(** * Network MAC address scanner: embedding of [mac_scanner.py]

    Python text is embedded as lists of characters ([list ascii]); a
    character stands for the code point of the same number, so the
    embedding covers text of code points below 256.  On these, white
    space ([str.strip], [str.isspace], [\s]), line boundaries
    ([str.splitlines]), digits ([\d]) and word characters ([\w]) are
    Python's, and so are [str.lower] and [re.IGNORECASE]; [str.upper]
    is Python's except on the three characters whose upper case is not
    one of these code points.  Wall-clock readings are rationals.
    Everything the program obtains from outside (clock, remote sessions,
    other threads setting the stop event) is read from an environment
    record indexed by the number of interactions performed so far.  The
    embedding follows one thread at a time; the other threads of the
    pool show only through the stop event, and the coordinator sees the
    pollers through the list of their futures in completion order. *)

From Stdlib Require Import List Ascii String Bool Arith NArith ZArith QArith Qround Lia.
From Stdlib Require Import DecimalString.
Import ListNotations.

Local Open Scope list_scope.
Local Open Scope bool_scope.

(** ** Text *)

Definition str := list ascii.

Definition lit (s : string) : str := list_ascii_of_string s.

Module Char.

Definition code (c : ascii) : N := N_of_ascii c.

Definition between (lo hi : N) (c : ascii) : bool :=
  (N.leb lo (code c)) && (N.leb (code c) hi).

Definition is_upper (c : ascii) : bool := between 65 90 c.
Definition is_lower (c : ascii) : bool := between 97 122 c.
Definition is_digit (c : ascii) : bool := between 48 57 c.

(** [str.lower] on one character: the capitals [A]-[Z] and the accented
    capitals U+00C0-U+00DE, without the multiplication sign, move up by
    32. *)
Definition lower (c : ascii) : ascii :=
  if is_upper c || between 192 214 c || between 216 222 c
  then ascii_of_N (code c + 32) else c.

(** [str.upper] on one character: the small letters [a]-[z] and the
    accented small letters U+00E0-U+00FE, without the division sign, move
    down by 32.  The micro sign, the sharp s and y with diaeresis stay as
    they are: their upper case is no single code point below 256. *)
Definition upper (c : ascii) : ascii :=
  if is_lower c || between 224 246 c || between 248 254 c
  then ascii_of_N (code c - 32) else c.

(** The class [[0-9a-fA-F]]. *)
Definition is_hex (c : ascii) : bool :=
  is_digit c || between 97 102 c || between 65 70 c.

(** [str.isspace], which is also the class [\s] of a [str] pattern:
    TAB, LF, VT, FF, CR, FS, GS, RS, US, SPACE, NEL (U+0085) and the
    no-break space (U+00A0). *)
Definition is_space (c : ascii) : bool :=
  between 9 13 c || between 28 32 c
  || N.eqb (code c) 133 || N.eqb (code c) 160.

(** The letters and numbers above U+007F: the ordinal indicators, the
    superscript digits, the micro sign, the fractions and the accented
    letters, without the multiplication and division signs. *)
Definition is_latin_alnum (c : ascii) : bool :=
  N.eqb (code c) 170 || between 178 179 c || N.eqb (code c) 181
  || between 185 186 c || between 188 190 c
  || between 192 214 c || between 216 246 c || between 248 255 c.

(** The class [\w] of a [str] pattern: what [str.isalnum] accepts, and
    the underscore. *)
Definition is_word (c : ascii) : bool :=
  is_digit c || is_lower c || is_upper c || Ascii.eqb c "_"%char
  || is_latin_alnum c.

(** Line boundaries of [str.splitlines] other than CR: LF, VT, FF, FS,
    GS, RS and NEL (U+0085). *)
Definition is_linebreak (c : ascii) : bool :=
  between 10 12 c || between 28 30 c || N.eqb (code c) 133.

End Char.

Definition lower (s : str) : str := map Char.lower s.
Definition upper (s : str) : str := map Char.upper s.

Fixpoint lstrip_by (p : ascii -> bool) (s : str) : str :=
  match s with
  | c :: s' => if p c then lstrip_by p s' else s
  | [] => []
  end.

Definition strip_by (p : ascii -> bool) (s : str) : str :=
  rev (lstrip_by p (rev (lstrip_by p s))).

(** [s.strip()] *)
Definition strip (s : str) : str := strip_by Char.is_space s.

(** [s.strip(chars)] *)
Definition strip_chars (chars : str) (s : str) : str :=
  strip_by (fun c => existsb (Ascii.eqb c) chars) s.

(** [s[i:j]] for [0 <= i <= j]. *)
Definition slice (i j : nat) (s : str) : str := firstn (j - i) (skipn i s).

(** [s.replace(old, new)] for a one-character [old]. *)
Definition replace_char (old : ascii) (new : str) (s : str) : str :=
  flat_map (fun c => if Ascii.eqb c old then new else [c]) s.

(** [sep.join(parts)] *)
Fixpoint join (sep : str) (parts : list str) : str :=
  match parts with
  | [] => []
  | [p] => p
  | p :: ps => p ++ sep ++ join sep ps
  end.

Fixpoint starts_with (needle hay : str) : bool :=
  match needle, hay with
  | [], _ => true
  | _ :: _, [] => false
  | a :: n', b :: h' => Ascii.eqb a b && starts_with n' h'
  end.

(** [needle in hay] *)
Fixpoint contains (needle hay : str) : bool :=
  starts_with needle hay ||
  match hay with
  | [] => false
  | _ :: h' => contains needle h'
  end.

(** [s.split(sep)] for a one-character separator. *)
Fixpoint split_on (sep : ascii) (cur : str) (s : str) : list str :=
  match s with
  | [] => [rev cur]
  | c :: s' =>
      if Ascii.eqb c sep then rev cur :: split_on sep [] s'
      else split_on sep (c :: cur) s'
  end.

Definition split (sep : ascii) (s : str) : list str := split_on sep [] s.

(** [s.splitlines()]: CR LF counts as one boundary and a final boundary
    opens no new line. *)
Fixpoint splitlines_from (cur : str) (s : str) : list str :=
  match s with
  | [] => match cur with [] => [] | _ => [rev cur] end
  | c :: s' =>
      if Ascii.eqb c "013"%char then
        match s' with
        | d :: s'' =>
            if Ascii.eqb d "010"%char then rev cur :: splitlines_from [] s''
            else rev cur :: splitlines_from [] s'
        | [] => [rev cur]
        end
      else if Char.is_linebreak c then rev cur :: splitlines_from [] s'
      else splitlines_from (c :: cur) s'
  end.

Definition splitlines (s : str) : list str := splitlines_from [] s.

(** [str(n)] for an integer. *)
Definition str_of_Z (n : Z) : str := lit (NilZero.string_of_int (Z.to_int n)).

(** ** MAC spellings *)

(** [re.sub(r"[^0-9a-fA-F]", "", mac)] *)
Definition hex_only (mac : str) : str := filter Char.is_hex mac.

Definition mac_to_huawei_format (mac : str) : str :=
  let mac_clean := hex_only mac in
  slice 0 4 mac_clean ++ lit "-" ++ slice 4 8 mac_clean ++ lit "-" ++ slice 8 12 mac_clean.

Definition huawei_mac_to_standard (mac : str) : str :=
  let mac_clean := lower (replace_char "-"%char [] mac) in
  upper (join (lit ":") (map (fun i => slice i (i + 2) mac_clean) [0; 2; 4; 6; 8; 10]%nat)).

(** The target as [main] keeps it: [sys.argv[2].lower()]. *)
Definition scan_target (argv_mac : str) : str := lower argv_mac.

(** The text each vendor handler puts in its command and looks for in
    the lower-cased output: [mac_to_huawei_format(search_mac).lower()]
    and [search_mac.lower()]. *)
Definition huawei_needle (search_mac : str) : str :=
  lower (mac_to_huawei_format search_mac).

Definition alcatel_needle (search_mac : str) : str := lower search_mac.

(** Six two-digit hexadecimal groups separated by colons. *)
Fixpoint hex_groups (n : nat) (mac : str) : bool :=
  match n, mac with
  | 1%nat, [a; b] => Char.is_hex a && Char.is_hex b
  | S n', a :: b :: c :: rest =>
      Char.is_hex a && Char.is_hex b && Ascii.eqb c ":"%char && hex_groups n' rest
  | _, _ => false
  end.

Definition is_standard_mac (mac : str) : bool := hex_groups 6 mac.

(** ** Regular expressions

    The fragment of Python's [re] that the two row patterns use, with its
    backtracking order: concatenation, counted repetition [r{n}], greedy
    [c+] over one character class, and capturing groups.  A match is the
    first success of the backtracking search; [re_search] tries start
    positions from left to right, as [Pattern.search] does. *)

Inductive regex : Type :=
| Cls (p : ascii -> bool)
| Cat (r1 r2 : regex)
| Rep (n : nat) (r : regex)
| Plus (p : ascii -> bool)
| Grp (name : string) (r : regex).

Definition captures := list (string * str).

Fixpoint greedy (p : ascii -> bool) (s : str) (k : str -> option captures)
  : option captures :=
  match s with
  | c :: s' =>
      if p c then
        match greedy p s' k with
        | Some m => Some m
        | None => k s
        end
      else k s
  | [] => k s
  end.

Fixpoint re_match (r : regex) (s : str) (caps : captures)
  (k : str -> captures -> option captures) {struct r} : option captures :=
  match r with
  | Cls p =>
      match s with
      | c :: s' => if p c then k s' caps else None
      | [] => None
      end
  | Cat r1 r2 => re_match r1 s caps (fun s1 caps1 => re_match r2 s1 caps1 k)
  | Rep n r1 =>
      (fix times (n : nat) (s : str) (caps : captures) : option captures :=
         match n with
         | O => k s caps
         | S n' => re_match r1 s caps (fun s1 caps1 => times n' s1 caps1)
         end) n s caps
  | Plus p =>
      match s with
      | c :: s' => if p c then greedy p s' (fun s1 => k s1 caps) else None
      | [] => None
      end
  | Grp name r1 =>
      re_match r1 s caps
        (fun s1 caps1 =>
           k s1 ((name, firstn (List.length s - List.length s1) s) :: caps1))
  end.

Fixpoint re_search (r : regex) (s : str) : option captures :=
  match re_match r s [] (fun _ caps => Some caps) with
  | Some m => Some m
  | None =>
      match s with
      | [] => None
      | _ :: s' => re_search r s'
      end
  end.

(** [match.group(name)]: the most recent binding of the group. *)
Fixpoint group (name : string) (m : captures) : str :=
  match m with
  | [] => []
  | (n, v) :: m' => if String.eqb n name then v else group name m'
  end.

Fixpoint cat_all (rs : list regex) (last : regex) : regex :=
  match rs with
  | [] => last
  | r :: rs' => Cat r (cat_all rs' last)
  end.

(** Character classes under [re.IGNORECASE]. *)
Module Class.
Definition hex_af (c : ascii) : bool :=
  Char.is_digit c || Char.between 97 102 (Char.lower c).
Definition sep (c : ascii) : bool :=
  Ascii.eqb c ":"%char || Ascii.eqb c "-"%char.
Definition chr (x : ascii) (c : ascii) : bool :=
  Ascii.eqb (Char.lower c) (Char.lower x).
Definition non_space (c : ascii) : bool := negb (Char.is_space c).
Definition sap_token (c : ascii) : bool :=
  Char.is_word c || Ascii.eqb c "-"%char || Ascii.eqb c ":"%char.
Definition age_flag (c : ascii) : bool := chr "L" c || chr "D" c.
End Class.

(** Lines 95-101. *)
Definition huawei_pattern : regex :=
  cat_all
    [ Grp "mac" (cat_all [Rep 4 (Cls Class.hex_af); Cls (Class.chr "-");
                          Rep 4 (Cls Class.hex_af); Cls (Class.chr "-")]
                         (Rep 4 (Cls Class.hex_af)));
      Plus Char.is_space;
      Grp "vlan" (Plus Class.non_space);
      Plus Char.is_space;
      Grp "interface" (Plus Class.non_space);
      Plus Char.is_space ]
    (Grp "type" (Plus Class.non_space)).

(** Lines 148-154.  The unnamed group is group number 3. *)
Definition alcatel_pattern : regex :=
  let d2 := Rep 2 (Cls Char.is_digit) in
  cat_all
    [ Grp "service" (Plus Char.is_digit);
      Plus Char.is_space;
      Grp "mac" (Cat (Rep 5 (Grp "3" (Cat (Rep 2 (Cls Class.hex_af)) (Cls Class.sep))))
                     (Rep 2 (Cls Class.hex_af)));
      Plus Char.is_space;
      Cls (Class.chr "s"); Cls (Class.chr "a"); Cls (Class.chr "p"); Cls (Class.chr ":");
      Grp "interface" (Plus Class.sap_token);
      Plus Char.is_space;
      Grp "age" (cat_all [Cls Class.age_flag; Cls (Class.chr "/")] (Plus Char.is_digit));
      Plus Char.is_space ]
    (Grp "timestamp"
       (cat_all [d2; Cls (Class.chr "/"); d2; Cls (Class.chr "/"); d2;
                 Plus Char.is_space;
                 d2; Cls (Class.chr ":"); d2; Cls (Class.chr ":")] d2)).

(** ** Match records *)

(** The tuple [(mac, interface, ip, hostname, attribute1, attribute2)]. *)
Record match_record : Type := MatchRecord {
  rec_mac : str;
  rec_interface : str;
  rec_ip : str;
  rec_hostname : str;
  rec_attribute1 : str;
  rec_attribute2 : str
}.

Fixpoint first_row (pat : regex) (lines : list str) : option captures :=
  match lines with
  | [] => None
  | line :: rest =>
      match re_search pat line with
      | Some m => Some m
      | None => first_row pat rest
      end
  end.

(** Lines 103-115, without the prints and the stop event. *)
Definition huawei_parse (hostname ip mac_output : str) : option match_record :=
  match first_row huawei_pattern (splitlines mac_output) with
  | Some m =>
      let mac_huawei := upper (group "mac" m) in
      let mac := huawei_mac_to_standard mac_huawei in
      let vlan := group "vlan" m in
      let interface := group "interface" m in
      let mac_type := group "type" m in
      Some (MatchRecord mac interface ip hostname
              (lit "VLAN/VSI=" ++ vlan) (lit "Type=" ++ mac_type))
  | None => None
  end.

(** Lines 156-167, without the prints and the stop event. *)
Definition alcatel_parse (hostname ip mac_output : str) : option match_record :=
  match first_row alcatel_pattern (splitlines mac_output) with
  | Some m =>
      let service := group "service" m in
      let mac := upper (replace_char "-"%char (lit ":") (group "mac" m)) in
      let interface := group "interface" m in
      let timestamp := group "timestamp" m in
      Some (MatchRecord mac interface ip hostname
              (lit "Service=" ++ service) (lit "LastSeen=" ++ timestamp))
  | None => None
  end.

(** ** Effects

    A computation reads and updates the process-wide state ([world]),
    emits a trace of observable events, and ends by returning, by raising
    an exception, or not at all ([Diverge], when the fuel of a polling
    loop runs out). *)

Inductive exn : Type :=
| ZeroDivisionError
| UnboundLocalError
| RemoteError (msg : str).

Definition exn_message (e : exn) : str :=
  match e with
  | ZeroDivisionError => lit "float division by zero"
  | UnboundLocalError =>
      lit "cannot access local variable 'mac_output' where it is not associated with a value"
  | RemoteError msg => msg
  end.

Inductive reply (A : Type) : Type :=
| Ok (a : A)
| Failed (e : exn).
Arguments Ok {A} a.
Arguments Failed {A} e.

Inductive res (A : Type) : Type :=
| Ret (a : A)
| Raise (e : exn)
| Diverge.
Arguments Ret {A} a.
Arguments Raise {A} e.
Arguments Diverge {A}.

Inductive event : Type :=
| EvPrint (text : str)
| EvSocketConnect (host : str)
| EvConnectHandler (host device_type : str)
| EvSetBasePrompt
| EvFindPrompt
| EvSendCommand (cmd : str)
| EvSendCommandTiming (cmd : str) (answer : reply str)
| EvSleep (seconds : Z)
| EvDisconnect
| EvSetEvent
| EvAcquire
| EvRelease
| EvCompleted (n : Z).

(** The module-level globals, and [ticks], the number of interactions
    with the outside so far. *)
Record world : Type := World {
  mac_found_event : bool;
  completed_devices : Z;
  total_devices : Z;
  scan_start_time : option Q;
  ticks : nat
}.

(** What the outside answers at each interaction. *)
Record env : Type := Env {
  env_clock : nat -> Q;
  env_set_elsewhere : nat -> bool;
  env_socket_connect : nat -> str -> reply unit;
  env_connect_handler : nat -> str -> str -> reply unit;
  env_set_base_prompt : nat -> reply unit;
  env_find_prompt : nat -> reply str;
  env_send_command : nat -> str -> reply str;
  env_send_command_timing : nat -> str -> reply str;
  env_disconnect : nat -> reply unit
}.

Definition M (A : Type) : Type := world -> res A * world * list event.

Definition ret {A} (a : A) : M A := fun w => (Ret a, w, []).

Definition raise {A} (e : exn) : M A := fun w => (Raise e, w, []).

Definition diverge {A} : M A := fun w => (Diverge, w, []).

Definition bind {A B} (m : M A) (f : A -> M B) : M B :=
  fun w =>
    match m w with
    | (Ret a, w1, t1) => let '(r, w2, t2) := f a w1 in (r, w2, t1 ++ t2)
    | (Raise e, w1, t1) => (Raise e, w1, t1)
    | (Diverge, w1, t1) => (Diverge, w1, t1)
    end.

Declare Scope prog_scope.
Delimit Scope prog_scope with prog.
Notation "x <- m ;; k" := (bind m (fun x => k))
  (at level 100, m at next level, right associativity) : prog_scope.
Notation "m ;; k" := (bind m (fun _ => k))
  (at level 100, right associativity) : prog_scope.
Local Open Scope prog_scope.

(** [try: m  except Exception as e: h e] *)
Definition try_catch {A} (m : M A) (h : exn -> M A) : M A :=
  fun w =>
    match m w with
    | (Raise e, w1, t1) => let '(r, w2, t2) := h e w1 in (r, w2, t1 ++ t2)
    | other => other
    end.

(** [try: m  finally: c] *)
Definition finally {A} (m : M A) (c : M unit) : M A :=
  fun w =>
    match m w with
    | (Diverge, w1, t1) => (Diverge, w1, t1)
    | (r, w1, t1) =>
        match c w1 with
        | (Ret _, w2, t2) => (r, w2, t1 ++ t2)
        | (Raise e, w2, t2) => (Raise e, w2, t1 ++ t2)
        | (Diverge, w2, t2) => (Diverge, w2, t1 ++ t2)
        end
    end.

Definition emit (ev : event) : M unit := fun w => (Ret tt, w, [ev]).

Definition get : M world := fun w => (Ret w, w, []).

Definition tick (w : world) : world :=
  World (mac_found_event w) (completed_devices w) (total_devices w)
        (scan_start_time w) (S (ticks w)).

Definition ask {A} (answer : nat -> reply A) : M A :=
  fun w =>
    match answer (ticks w) with
    | Ok a => (Ret a, tick w, [])
    | Failed e => (Raise e, tick w, [])
    end.

Definition newline : str := ["010"%char].

(** [print(text)] and [print(text, end=e)] *)
Definition print (text : str) : M unit := emit (EvPrint (text ++ newline)).
Definition print_end (text e : str) : M unit := emit (EvPrint (text ++ e)).

(** [with progress_lock: body] *)
Definition with_progress_lock {A} (body : M A) : M A :=
  emit EvAcquire ;; finally body (emit EvRelease).

Definition Qltb (x y : Q) : bool := negb (Qle_bool y x).

Section Program.

Variable E : env.

(** [time.time()] *)
Definition time_time : M Q :=
  fun w => (Ret (env_clock E (ticks w)), tick w, []).

(** [time.sleep(seconds)] *)
Definition time_sleep (seconds : Z) : M unit :=
  fun w => (Ret tt, tick w, [EvSleep seconds]).

(** [mac_found_event.is_set()]: the event is set if this thread saw or
    set it before, or if another thread has set it by now. *)
Definition is_set : M bool :=
  fun w =>
    let b := mac_found_event w || env_set_elsewhere E (ticks w) in
    (Ret b,
     World b (completed_devices w) (total_devices w) (scan_start_time w)
           (S (ticks w)),
     []).

(** [mac_found_event.set()] *)
Definition set_event : M unit :=
  fun w =>
    (Ret tt,
     World true (completed_devices w) (total_devices w) (scan_start_time w)
           (ticks w),
     [EvSetEvent]).

(** [completed_devices += 1] *)
Definition count_completed : M unit :=
  fun w =>
    let n := (completed_devices w + 1)%Z in
    (Ret tt,
     World (mac_found_event w) n (total_devices w) (scan_start_time w)
           (ticks w),
     [EvCompleted n]).

(** [x / y] with a float [x] and an int [y]. *)
Definition truediv (x : Q) (y : Z) : M Q :=
  if (y =? 0)%Z then raise ZeroDivisionError else ret (x / inject_Z y)%Q.

Definition two_digits (n : Z) : str :=
  (if (n <? 10)%Z then lit "0" else []) ++ str_of_Z n.

(** [time.strftime("%H:%M:%S", time.gmtime(seconds))], for [seconds]
    within the range of the platform's [time_t]. *)
Definition strftime_HMS (seconds : Q) : str :=
  let t := (Qfloor seconds mod 86400)%Z in
  two_digits (t / 3600) ++ lit ":" ++ two_digits ((t mod 3600) / 60)
    ++ lit ":" ++ two_digits (t mod 60).

(** The text of the progress line. *)
Definition progress_line (completed total : Z) (eta_str : str) : str :=
  lit "[PROGRESS] " ++ str_of_Z completed ++ lit "/" ++ str_of_Z total
    ++ lit " devices scanned | ETA: " ++ eta_str.

Definition print_progress : M unit :=
  w <- get ;;
  match scan_start_time w with
  | None => ret tt
  | Some started =>
      now <- time_time ;;
      let elapsed := (now - started)%Q in
      avg_time_per_device <-
        (if (0 <? completed_devices w)%Z
         then truediv elapsed (completed_devices w)
         else ret 0%Q) ;;
      let remaining_devices := (total_devices w - completed_devices w)%Z in
      let eta_seconds := (avg_time_per_device * inject_Z remaining_devices)%Q in
      let eta_str := strftime_HMS eta_seconds in
      print_end
        (progress_line (completed_devices w) (total_devices w) eta_str)
        ["013"%char]
  end.

Record connection : Type := Connection {
  conn_host : str;
  conn_device_type : str
}.

Definition ssh_connect (host device_type : str) : M (option connection) :=
  try_catch
    (print (lit "[DEBUG] Trying to connect to " ++ host) ;;
     emit (EvSocketConnect host) ;;
     ask (fun n => env_socket_connect E n host) ;;
     print (lit "[DEBUG] Socket connection successful to " ++ host) ;;
     emit (EvConnectHandler host device_type) ;;
     ask (fun n => env_connect_handler E n host device_type) ;;
     ret (Some (Connection host device_type)))
    (fun e =>
       print (lit "[X] Connection error for " ++ host ++ lit ": " ++ exn_message e) ;;
       ret None).

(** [conn.send_command(cmd)] *)
Definition send_command (conn : connection) (cmd : str) : M str :=
  emit (EvSendCommand cmd) ;; ask (fun n => env_send_command E n cmd).

(** [conn.send_command_timing(cmd, delay_factor=2)] *)
Definition send_command_timing (conn : connection) (cmd : str) : M str :=
  fun w =>
    let a := env_send_command_timing E (ticks w) cmd in
    (match a with Ok out => Ret out | Failed e => Raise e end,
     tick w, [EvSendCommandTiming cmd a]).

Definition set_base_prompt (conn : connection) : M unit :=
  emit EvSetBasePrompt ;; ask (env_set_base_prompt E).

Definition find_prompt (conn : connection) : M str :=
  emit EvFindPrompt ;; ask (env_find_prompt E).

Definition disconnect (conn : connection) : M unit :=
  emit EvDisconnect ;; ask (env_disconnect E).

(** How a polling loop ends: by [return None] inside the loop, or by
    leaving the loop ([break] or the [while] test) with the last value
    of [mac_output], if it was ever assigned. *)
Inductive loop_exit : Type :=
| ReturnedNone
| LeftLoop (mac_output : option str).

(** The [while] loop of lines 77-89 and of lines 130-142; the two differ
    in the command and in the text looked for. *)
Fixpoint poll (fuel : nat) (conn : connection) (hostname cmd needle : str)
  (start_time timeout : Q) (mac_output : option str) : M loop_exit :=
  match fuel with
  | O => diverge
  | S fuel' =>
      now <- time_time ;;
      if Qltb (now - start_time) timeout then
        stop <- is_set ;;
        if stop then ret ReturnedNone
        else
          out <- send_command_timing conn cmd ;;
          let mac_output := strip out in
          match mac_output with
          | [] =>
              print (lit "[DEBUG] No output from " ++ hostname ++ lit ", skipping wait") ;;
              ret ReturnedNone
          | _ :: _ =>
              if contains needle (lower mac_output)
              then ret (LeftLoop (Some mac_output))
              else
                time_sleep 2 ;;
                poll fuel' conn hostname cmd needle start_time timeout
                     (Some mac_output)
          end
      else ret (LeftLoop mac_output)
  end.

(** The statements after the loop, up to the row search. *)
Definition after_poll (exit : loop_exit) (hostname search_mac needle : str)
  (found : str -> M (option match_record)) : M (option match_record) :=
  match exit with
  | ReturnedNone => ret None
  | LeftLoop None => raise UnboundLocalError
  | LeftLoop (Some mac_output) =>
      if negb (contains needle (lower mac_output)) then
        print (lit "[!] MAC " ++ search_mac ++ lit " not found on " ++ hostname) ;;
        ret None
      else found mac_output
  end.

Definition handle_huawei_device (fuel : nat) (conn : connection)
  (hostname ip search_mac : str) (timeout : Q) : M (option match_record) :=
  stop <- is_set ;;
  if stop then ret None
  else
    let huawei_mac := huawei_needle search_mac in
    let cmd := lit "display mac-address | include " ++ huawei_mac in
    print (lit "[DEBUG] Sending command to Huawei device " ++ hostname ++ lit ": " ++ cmd) ;;
    send_command conn (lit "screen-length 0 temporary") ;;
    start_time <- time_time ;;
    exit <- poll fuel conn hostname cmd huawei_mac start_time timeout None ;;
    after_poll exit hostname search_mac huawei_mac
      (fun mac_output =>
         match huawei_parse hostname ip mac_output with
         | Some r =>
             print (lit "[DEBUG] Parsed -> MAC=" ++ rec_mac r
                      ++ lit ", " ++ rec_attribute1 r
                      ++ lit ", Interface=" ++ rec_interface r
                      ++ lit ", " ++ rec_attribute2 r) ;;
             set_event ;;
             ret (Some r)
         | None => ret None
         end).

Definition handle_alcatel_device (fuel : nat) (conn : connection)
  (hostname ip search_mac : str) (timeout : Q) : M (option match_record) :=
  stop <- is_set ;;
  if stop then ret None
  else
    let search_mac_lower := alcatel_needle search_mac in
    let cmd := lit "show service fdb-mac | match " ++ search_mac_lower in
    print (lit "[DEBUG] Sending command to Alcatel device " ++ hostname ++ lit ": " ++ cmd) ;;
    send_command conn (lit "environment no more") ;;
    start_time <- time_time ;;
    exit <- poll fuel conn hostname cmd search_mac_lower start_time timeout None ;;
    after_poll exit hostname search_mac search_mac_lower
      (fun mac_output =>
         match alcatel_parse hostname ip mac_output with
         | Some r =>
             print (lit "[DEBUG] Parsed -> " ++ rec_attribute1 r
                      ++ lit ", MAC=" ++ rec_mac r
                      ++ lit ", Interface=" ++ rec_interface r
                      ++ lit ", " ++ rec_attribute2 r) ;;
             set_event ;;
             ret (Some r)
         | None => ret None
         end).

Definition str_eqb (a b : str) : bool :=
  if list_eq_dec ascii_dec a b then true else false.

Definition report_completion : M unit :=
  with_progress_lock (count_completed ;; print_progress).

(** The [try] body of [handle_device] with its [except] clause. *)
Definition session (fuel : nat) (ip vendor search_mac : str) (timeout : Q)
  : M (option match_record) :=
  try_catch
    (c <- ssh_connect ip vendor ;;
     match c with
     | None => ret None
     | Some conn =>
         set_base_prompt conn ;;
         prompt <- find_prompt conn ;;
         let hostname := strip (strip_chars (lit "<># ") prompt) in
         result <-
           (if str_eqb vendor (lit "huawei")
            then handle_huawei_device fuel conn hostname ip search_mac timeout
            else handle_alcatel_device fuel conn hostname ip search_mac timeout) ;;
         disconnect conn ;;
         ret result
     end)
    (fun e =>
       print (lit "[X] Error on " ++ ip ++ lit ": " ++ exn_message e) ;;
       ret None).

Definition handle_device (fuel : nat) (device_info search_mac : str)
  (timeout : Q) : M (option match_record) :=
  stop <- is_set ;;
  if stop then ret None
  else
    let parts := split ","%char (strip device_info) in
    if negb (List.length parts =? 2)%nat then
      report_completion ;; ret None
    else
      let ip := strip (nth 0 parts []) in
      let vendor := lower (strip (nth 1 parts [])) in
      if negb (existsb (str_eqb vendor) [lit "huawei"; lit "alcatel_aos"]) then
        report_completion ;; ret None
      else
        finally (session fuel ip vendor search_mac timeout) report_completion.

(** A finished future: the device line it was submitted for and what
    [future.result()] gives. *)
Definition future : Type := str * reply (option match_record).

(** The [for future in as_completed(...)] loop of [main], over the
    futures in the order in which they complete. *)
Fixpoint collect (futures : list future) (found_result : option match_record)
  : M (option match_record) :=
  match futures with
  | [] => ret found_result
  | (device_info, outcome) :: rest =>
      stop <- is_set ;;
      if stop && (match found_result with Some _ => true | None => false end)
      then ret found_result
      else
        match outcome with
        | Ok (Some result) => set_event ;; ret (Some result)
        | Ok None => collect rest found_result
        | Failed e =>
            print (lit "[X] Error scanning device " ++ strip device_info
                     ++ lit ": " ++ exn_message e) ;;
            collect rest found_result
        end
  end.

(** The summary block of [main]. *)
Definition summary (found_result : option match_record) (search_mac : str) : M unit :=
  print (newline ++ lit "========== SCAN SUMMARY ==========") ;;
  match found_result with
  | Some r =>
      print (lit "[+] MAC " ++ rec_mac r ++ lit " found on device "
               ++ rec_hostname r ++ lit " (" ++ rec_ip r ++ lit ")") ;;
      print (lit "    • Interface: " ++ rec_interface r) ;;
      print (lit "    • " ++ rec_attribute1 r) ;;
      print (lit "    • " ++ rec_attribute2 r)
  | None =>
      print (lit "[!] MAC " ++ upper search_mac ++ lit " not found on any device.")
  end ;;
  print (lit "==================================" ++ newline).

(** [main] from the [with ThreadPoolExecutor] block on, given the
    futures in completion order.  Cancelling the futures that are not
    done changes neither the result nor the summary. *)
Definition coordinate (futures : list future) (search_mac : str)
  : M (option match_record) :=
  found_result <- collect futures None ;;
  summary found_result search_mac ;;
  ret found_result.

End Program.

(** * Vocabulary of the properties *)

(** ** Sample data *)

(** The output row of the specification's Vendor B example, and the same
    row with an interface token that has no slash. *)
Definition slash_row : str :=
  lit "100  AA:BB:CC:DD:EE:FF sap:1/1/1:100 L/300 01/02/24 10:00:00".

Definition lag_row : str :=
  lit "100  AA:BB:CC:DD:EE:FF sap:lag-1:100 L/300 01/02/24 10:00:00".

(** ** Frames

    The events of the progress lock and of the counter. *)
Definition progress_event (ev : event) : bool :=
  match ev with
  | EvAcquire | EvRelease | EvCompleted _ => true
  | _ => false
  end.

(** A stretch of execution from [w] to [w'] with trace [t] that keeps the
    progress counters, does not clear the stop event and emits no event
    of the progress lock. *)
Record frame (w w' : world) (t : list event) : Prop := Frame {
  frame_completed : completed_devices w' = completed_devices w;
  frame_total : total_devices w' = total_devices w;
  frame_started : scan_start_time w' = scan_start_time w;
  frame_latch : mac_found_event w = true -> mac_found_event w' = true;
  frame_events : Forall (fun ev => progress_event ev = false) t
}.

(** Every run of [m] is such a stretch. *)
Definition framed {A} (m : M A) : Prop :=
  forall w r w' t, m w = (r, w', t) -> frame w w' t.

(** ** Progress

    The state after [print_progress]: the clock is read only when
    [scan_start_time] is set. *)
Definition after_progress (w : world) : world :=
  match scan_start_time w with
  | None => w
  | Some _ => tick w
  end.

(** What one call of [print_progress] writes. *)
Definition progress_output (w : world) (line : list event) : Prop :=
  match scan_start_time w with
  | None => line = []
  | Some _ =>
      exists eta_str,
        line = [EvPrint (progress_line (completed_devices w) (total_devices w)
                           eta_str ++ ["013"%char])]
  end.

(** The state after [completed_devices += 1]. *)
Definition counted (w : world) : world :=
  World (mac_found_event w) (completed_devices w + 1) (total_devices w)
        (scan_start_time w) (ticks w).

(** ** Device lines and entry

    The device line does not split into two fields, or its second field
    names no known vendor (lines 177-189). *)
Definition malformed (device_info : str) : Prop :=
  let parts := split ","%char (strip device_info) in
  List.length parts <> 2%nat
  \/ existsb (str_eqb (lower (strip (nth 1 parts []))))
             [lit "huawei"; lit "alcatel_aos"] = false.

(** What [mac_found_event.is_set()] answers on entry. *)
Definition stopped_on_entry (E : env) (w : world) : bool :=
  mac_found_event w || env_set_elsewhere E (ticks w).

(** The state after the entry test. *)
Definition entered (E : env) (w : world) : world :=
  World (stopped_on_entry E w) (completed_devices w) (total_devices w)
        (scan_start_time w) (S (ticks w)).

(** Any [N] interactions take at least the timeout. *)
Definition clock_passes (E : env) (timeout : Q) (N : nat) : Prop :=
  forall i j, (i + N <= j)%nat ->
              Qltb (env_clock E j - env_clock E i) timeout = false.

(** ** Sample environments and states

    A reachable device with prompt [<sw1>], a clock that advances by one
    second per interaction, the given answers to the lookup command and
    the given behaviour of the other threads. *)
Definition lab (answer : nat -> str -> reply str) (elsewhere : nat -> bool) : env :=
  {| env_clock := fun n => inject_Z (Z.of_nat n);
     env_set_elsewhere := elsewhere;
     env_socket_connect := fun _ _ => Ok tt;
     env_connect_handler := fun _ _ _ => Ok tt;
     env_set_base_prompt := fun _ => Ok tt;
     env_find_prompt := fun _ => Ok (lit "<sw1>");
     env_send_command := fun _ _ => Ok [];
     env_send_command_timing := answer;
     env_disconnect := fun _ => Ok tt |}.

(** No other thread sets the stop event. *)
Definition nobody : nat -> bool := fun _ => false.

(** The same device, except that closing the session fails. *)
Definition lab_closing_fails (answer : nat -> str -> reply str)
  (elsewhere : nat -> bool) : env :=
  {| env_clock := fun n => inject_Z (Z.of_nat n);
     env_set_elsewhere := elsewhere;
     env_socket_connect := fun _ _ => Ok tt;
     env_connect_handler := fun _ _ _ => Ok tt;
     env_set_base_prompt := fun _ => Ok tt;
     env_find_prompt := fun _ => Ok (lit "<sw1>");
     env_send_command := fun _ _ => Ok [];
     env_send_command_timing := answer;
     env_disconnect := fun _ => Failed (RemoteError (lit "Socket is closed")) |}.

(** The state in which [main] starts three pollers at time 0, and the
    same state once a match has been found elsewhere. *)
Definition scan_started : world := World false 0 3 (Some 0%Q) 0.

Definition scan_decided : world := World true 1 3 (Some 0%Q) 0.

Definition sample_mac : str := lit "aa:bb:cc:dd:ee:ff".

(** The outcome, final state and trace of running [m] from [w]. *)
Definition run_of {A} (m : M A) (w : world) : res A * world * list event := m w.

(** ** Events of interest *)

Definition opens_session (ev : event) : bool :=
  match ev with EvConnectHandler _ _ => true | _ => false end.

Definition closes_session (ev : event) : bool :=
  match ev with EvDisconnect => true | _ => false end.

(** The lookup command was answered with nothing but white space. *)
Definition empty_answer (ev : event) : Prop :=
  match ev with
  | EvSendCommandTiming _ (Ok out) => strip out = []
  | _ => False
  end.

(** The debug line printed on such an answer (lines 83 and 136). *)
Definition no_output_message (hostname : str) : event :=
  EvPrint ((lit "[DEBUG] No output from " ++ hostname ++ lit ", skipping wait")
             ++ newline).

(** An answer of two rows, the target on the second. *)
Definition two_rows : str :=
  lit "100  11:22:33:44:55:66 sap:lag-1:100 L/300 01/02/24 10:00:00" ++ newline
    ++ lit "200  AA:BB:CC:DD:EE:FF sap:lag-2:200 L/300 01/02/24 10:00:00".

(** * Vocabulary of the further properties *)
(** ** Texts matched by a pattern

    [denotes r u caps caps']: the text [u] is matched by [r], and matching
    it turns the captures [caps] into [caps']. *)
Fixpoint denotes (r : regex) (u : str) (caps caps' : captures) {struct r} : Prop :=
  match r with
  | Cls p => exists c, u = [c] /\ p c = true /\ caps' = caps
  | Cat r1 r2 =>
      exists u1 u2 mid,
        u = u1 ++ u2 /\ denotes r1 u1 caps mid /\ denotes r2 u2 mid caps'
  | Rep n r1 =>
      (fix times (n : nat) (u : str) (caps : captures) : Prop :=
         match n with
         | O => u = [] /\ caps' = caps
         | S n' =>
             exists u1 u2 mid,
               u = u1 ++ u2 /\ denotes r1 u1 caps mid /\ times n' u2 mid
         end) n u caps
  | Plus p => u <> [] /\ forallb p u = true /\ caps' = caps
  | Grp name r1 => exists mid, denotes r1 u caps mid /\ caps' = (name, u) :: mid
  end.

(** Two decimal digits. *)
Definition digit_pair (t : str) : Prop :=
  exists a b, t = [a; b] /\ Char.is_digit a = true /\ Char.is_digit b = true.

(** A non-empty token without white space. *)
Definition token (t : str) : Prop :=
  t <> [] /\ forallb Class.non_space t = true.

(** [stops p s]: the text [s] does not begin with a character of the
    class [p], so that a greedy [p+] cannot run into it. *)
Definition stops (p : ascii -> bool) (s : str) : Prop :=
  match s with
  | [] => True
  | c :: _ => p c = false
  end.

(** [first_choice r u rest caps caps']: on the text [u ++ rest] the first
    path that the backtracking search tries for [r] matches exactly [u],
    turning the captures [caps] into [caps']. *)
Fixpoint first_choice (r : regex) (u rest : str) (caps caps' : captures)
  {struct r} : Prop :=
  match r with
  | Cls p => exists c, u = [c] /\ p c = true /\ caps' = caps
  | Cat r1 r2 =>
      exists u1 u2 mid,
        u = u1 ++ u2
        /\ first_choice r1 u1 (u2 ++ rest) caps mid
        /\ first_choice r2 u2 rest mid caps'
  | Rep n r1 =>
      (fix times (n : nat) (u : str) (caps : captures) : Prop :=
         match n with
         | O => u = [] /\ caps' = caps
         | S n' =>
             exists u1 u2 mid,
               u = u1 ++ u2
               /\ first_choice r1 u1 (u2 ++ rest) caps mid
               /\ times n' u2 mid
         end) n u caps
  | Plus p => u <> [] /\ forallb p u = true /\ stops p rest /\ caps' = caps
  | Grp name r1 =>
      exists mid, first_choice r1 u rest caps mid /\ caps' = (name, u) :: mid
  end.

(** ** Well-formed rows

    The fields of an output row as the row patterns read them.  Gaps are
    runs of spaces and tabs; a tail is any text without a line boundary. *)

Definition is_blank (c : ascii) : bool :=
  Ascii.eqb c " "%char || Ascii.eqb c "009"%char.

(** A non-empty text of characters of the class [q]. *)
Definition all_of (q : ascii -> bool) (s : str) : bool :=
  match s with
  | [] => false
  | _ => forallb q s
  end.

Definition is_gap (s : str) : bool := all_of is_blank s.

Definition is_number (s : str) : bool := all_of Char.is_digit s.

Definition is_word_token (s : str) : bool := all_of Class.non_space s.

Definition is_sap_token (s : str) : bool := all_of Class.sap_token s.

Definition breaks_line (c : ascii) : bool :=
  Ascii.eqb c "013"%char || Char.is_linebreak c.

Definition one_line (s : str) : bool := forallb (fun c => negb (breaks_line c)) s.

(** Four hexadecimal digits. *)
Definition is_quad (s : str) : bool :=
  match s with
  | [a; b; c; d] =>
      Class.hex_af a && Class.hex_af b && Class.hex_af c && Class.hex_af d
  | _ => false
  end.

(** Two hexadecimal digits. *)
Definition is_octet (s : str) : bool :=
  match s with
  | [a; b] => Class.hex_af a && Class.hex_af b
  | _ => false
  end.

Definition is_separator (s : str) : bool :=
  match s with
  | [c] => Class.sep c
  | _ => false
  end.

Definition is_two_digits (s : str) : bool :=
  match s with
  | [a; b] => Char.is_digit a && Char.is_digit b
  | _ => false
  end.

Definition is_age_flag (s : str) : bool :=
  match s with
  | [c] => Class.age_flag c
  | _ => false
  end.

(** A tail: empty, or a gap followed by text on the same line. *)
Definition is_tail (s : str) : bool :=
  match s with
  | [] => true
  | c :: _ => is_blank c && one_line s
  end.

(** A Huawei row: [mac  vlan  interface  type] and a tail. *)
Definition huawei_row (q1 q2 q3 gap1 vlan gap2 interface gap3 mac_type tail : str)
  : str :=
  (q1 ++ lit "-" ++ q2 ++ lit "-" ++ q3) ++ gap1 ++ vlan ++ gap2 ++ interface
    ++ gap3 ++ mac_type ++ tail.

(** The MAC text of an Alcatel row: six octets and five separators. *)
Definition alcatel_mac_text (o1 s1 o2 s2 o3 s3 o4 s4 o5 s5 o6 : str) : str :=
  o1 ++ s1 ++ o2 ++ s2 ++ o3 ++ s3 ++ o4 ++ s4 ++ o5 ++ s5 ++ o6.

(** The timestamp text of an Alcatel row. *)
Definition alcatel_timestamp (d1 d2 d3 gap5 t1 t2 t3 : str) : str :=
  d1 ++ lit "/" ++ d2 ++ lit "/" ++ d3 ++ gap5 ++ t1 ++ lit ":" ++ t2 ++ lit ":" ++ t3.

(** An Alcatel row: [service  mac  sap:interface  age  date  time] and
    whatever follows on the line. *)
Definition alcatel_row (service gap1 mac gap2 interface gap3 flag age gap4
                          timestamp tail : str) : str :=
  service ++ gap1 ++ mac ++ gap2 ++ lit "sap:" ++ interface ++ gap3
    ++ (flag ++ lit "/" ++ age) ++ gap4 ++ timestamp ++ tail.

(** The fields of a Huawei row are well formed. *)
Definition huawei_fields_ok
  (q1 q2 q3 gap1 vlan gap2 interface gap3 mac_type tail : str) : bool :=
  is_quad q1 && is_quad q2 && is_quad q3
  && is_gap gap1 && is_word_token vlan
  && is_gap gap2 && is_word_token interface
  && is_gap gap3 && is_word_token mac_type
  && is_tail tail.

(** The fields of an Alcatel MAC text and of an Alcatel timestamp are
    well formed. *)
Definition alcatel_mac_ok (o1 s1 o2 s2 o3 s3 o4 s4 o5 s5 o6 : str) : bool :=
  is_octet o1 && is_separator s1 && is_octet o2 && is_separator s2
  && is_octet o3 && is_separator s3 && is_octet o4 && is_separator s4
  && is_octet o5 && is_separator s5 && is_octet o6.

Definition alcatel_timestamp_ok (d1 d2 d3 gap5 t1 t2 t3 : str) : bool :=
  is_two_digits d1 && is_two_digits d2 && is_two_digits d3 && is_gap gap5
  && is_two_digits t1 && is_two_digits t2 && is_two_digits t3.

(** The other fields of an Alcatel row are well formed. *)
Definition alcatel_fields_ok
  (service gap1 gap2 interface gap3 flag age gap4 tail : str) : bool :=
  is_number service && is_gap gap1 && is_gap gap2 && is_sap_token interface
  && is_gap gap3 && is_age_flag flag && is_number age && is_gap gap4
  && one_line tail.

(** A Huawei answer of one row. *)
Definition huawei_answer : str :=
  lit "0abc-1234-5678   10   GE0/0/1   dynamic".

(** ** Transcripts of the vendor handlers *)

Definition is_lookup (ev : event) : bool :=
  match ev with EvSendCommandTiming _ _ => true | _ => false end.

(** The number of lookup commands in a trace. *)
Definition lookups (t : list event) : nat := List.length (filter is_lookup t).

(** The events of one polling loop that sends [cmd]. *)
Definition poll_event (cmd : str) (ev : event) : Prop :=
  match ev with
  | EvSendCommandTiming c _ => c = cmd
  | EvSleep seconds => seconds = 2%Z
  | EvPrint _ => True
  | _ => False
  end.

Definition is_print (ev : event) : Prop :=
  match ev with EvPrint _ => True | _ => False end.

(** The lookup commands (lines 71 and 124). *)
Definition huawei_command (search_mac : str) : str :=
  lit "display mac-address | include " ++ huawei_needle search_mac.

Definition alcatel_command (search_mac : str) : str :=
  lit "show service fdb-mac | match " ++ alcatel_needle search_mac.

(** The shape of a handler's trace: nothing at all, or the debug line,
    the pagination command, the events of the polling loop and a closing
    part, which ends with the stop event exactly when a record is
    returned. *)
Definition handler_trace (pagination cmd : str) (r : res (option match_record))
  (t : list event) : Prop :=
  (r = Ret None /\ t = [])
  \/ exists line polled closing,
      t = EvPrint line :: EvSendCommand pagination :: polled ++ closing
      /\ Forall (poll_event cmd) polled
      /\ match r with
         | Ret (Some _) => exists parsed, closing = [EvPrint parsed; EvSetEvent]
         | _ => Forall is_print closing
         end.

(** ** The fields of a device line (line 184) *)

Definition device_ip (device_info : str) : str :=
  strip (nth 0 (split ","%char (strip device_info)) []).

Definition device_vendor (device_info : str) : str :=
  lower (strip (nth 1 (split ","%char (strip device_info)) [])).

(** ** Connections *)

(** The probe of port 22 or the SSH login fails with [e], at the
    interactions at which [ssh_connect] called in [w] performs them. *)
Definition unreachable (E : env) (w : world) (ip vendor : str) (e : exn) : Prop :=
  env_socket_connect E (ticks w) ip = Failed e
  \/ (env_socket_connect E (ticks w) ip = Ok tt
      /\ env_connect_handler E (S (ticks w)) ip vendor = Failed e).

(** The events that need an open session, and the stop event. *)
Definition session_event (ev : event) : bool :=
  match ev with
  | EvSetBasePrompt | EvFindPrompt | EvSendCommand _ | EvSendCommandTiming _ _
  | EvDisconnect | EvSetEvent => true
  | _ => false
  end.

Definition connection_error_line (host : str) (e : exn) : event :=
  EvPrint ((lit "[X] Connection error for " ++ host ++ lit ": " ++ exn_message e)
             ++ newline).

Definition device_error_line (ip : str) (e : exn) : event :=
  EvPrint ((lit "[X] Error on " ++ ip ++ lit ": " ++ exn_message e) ++ newline).

(** The timeout has elapsed when a handler started in [w] tests the
    clock for the first time: it reads [start_time] at its third
    interaction and tests the clock at its fourth. *)
Definition elapsed_at_first_test (E : env) (timeout : Q) (w : world) : Prop :=
  Qltb (env_clock E (3 + ticks w) - env_clock E (2 + ticks w)) timeout = false.

(** ** The coordinator's output *)

(** The error line of a future that raised (line 277). *)
Definition scan_error_line (device_info : str) (e : exn) : event :=
  EvPrint ((lit "[X] Error scanning device " ++ strip device_info
              ++ lit ": " ++ exn_message e) ++ newline).

(** The error lines of the futures that raised, in completion order. *)
Definition reported (futures : list future) : list event :=
  flat_map (fun f : future =>
              match snd f with
              | Failed e => [scan_error_line (fst f) e]
              | Ok _ => []
              end) futures.

Definition no_found (futures : list future) : Prop :=
  forall f, In f futures -> forall r0, snd f <> Ok (Some r0).

(** The summary blocks (lines 284-292). *)
Definition found_summary (r : match_record) : list event :=
  [EvPrint ((newline ++ lit "========== SCAN SUMMARY ==========") ++ newline);
   EvPrint ((lit "[+] MAC " ++ rec_mac r ++ lit " found on device "
               ++ rec_hostname r ++ lit " (" ++ rec_ip r ++ lit ")") ++ newline);
   EvPrint ((lit "    • Interface: " ++ rec_interface r) ++ newline);
   EvPrint ((lit "    • " ++ rec_attribute1 r) ++ newline);
   EvPrint ((lit "    • " ++ rec_attribute2 r) ++ newline);
   EvPrint ((lit "==================================" ++ newline) ++ newline)].


(** ** The first lookup

    The first lookup of a handler started in [w] is answered with [out]:
    the stop event is not seen set at the handler's two tests, the
    pagination command succeeds and the timeout has not elapsed at the
    first test of the loop. *)
Definition first_lookup_answered (E : env) (timeout : Q) (w : world)
  (pagination cmd out : str) : Prop :=
  stopped_on_entry E w = false
  /\ (exists o, env_send_command E (1 + ticks w) pagination = Ok o)
  /\ Qltb (env_clock E (3 + ticks w) - env_clock E (2 + ticks w)) timeout = true
  /\ env_set_elsewhere E (4 + ticks w) = false
  /\ env_send_command_timing E (5 + ticks w) cmd = Ok out.

(** ** The commands of a vendor (lines 71-74, 124-127 and 206-209) *)

Definition pagination_command (vendor : str) : str :=
  if str_eqb vendor (lit "huawei")
  then lit "screen-length 0 temporary"
  else lit "environment no more".

Definition lookup_command (vendor search_mac : str) : str :=
  if str_eqb vendor (lit "huawei")
  then huawei_command search_mac
  else alcatel_command search_mac.

(** Every command in the trace is one of the two given. *)
Definition command_event (pagination cmd : str) (ev : event) : Prop :=
  match ev with
  | EvSendCommand c => c = pagination
  | EvSendCommandTiming c _ => c = cmd
  | _ => True
  end.

(** ** The stop event as a latch

    A stretch of execution from [w] to [w'] with trace [t] keeps the
    stop event: if it was set at the start, or is set on the way, it is
    set at the end. *)
Definition latch (w w' : world) (t : list event) : Prop :=
  mac_found_event w = true \/ In EvSetEvent t -> mac_found_event w' = true.

(** Every run of [m] keeps the stop event. *)
Definition latched {A} (m : M A) : Prop :=
  forall w r w' t, m w = (r, w', t) -> latch w w' t.

(** * Properties *)

(** ** Characters and MAC spellings *)

Ltac each_char c := destruct c as [[] [] [] [] [] [] [] []].

Ltac conjs := repeat match goal with |- _ /\ _ => split end.

Ltac by_eval := vm_compute; reflexivity.

Lemma upper_lower_char (c : ascii) : Char.upper (Char.lower c) = Char.upper c.
Proof. each_char c; reflexivity. Qed.

Lemma lower_lower_char (c : ascii) : Char.lower (Char.lower c) = Char.lower c.
Proof. each_char c; reflexivity. Qed.

Lemma is_hex_lower_char (c : ascii) : Char.is_hex (Char.lower c) = Char.is_hex c.
Proof. each_char c; reflexivity. Qed.

Lemma hex_not_hyphen (c : ascii) : Char.is_hex c = true -> Ascii.eqb c "-"%char = false.
Proof. each_char c; simpl; intro H; try reflexivity; discriminate H. Qed.

Lemma lower_idem (s : str) : lower (lower s) = lower s.
Proof.
  unfold lower. rewrite map_map. apply map_ext. exact lower_lower_char.
Qed.

Lemma hex_only_lower (s : str) : hex_only (lower s) = lower (hex_only s).
Proof.
  unfold hex_only, lower. induction s as [|c s IH]; simpl; [reflexivity|].
  rewrite is_hex_lower_char. destruct (Char.is_hex c); simpl; now rewrite IH.
Qed.

Lemma hex_only_hex (c : ascii) (s : str) :
  Char.is_hex c = true -> hex_only (c :: s) = c :: hex_only s.
Proof. intro H. unfold hex_only. simpl. now rewrite H. Qed.

Lemma hex_only_colon (s : str) : hex_only (":"%char :: s) = hex_only s.
Proof. reflexivity. Qed.

Lemma drop_hyphen_hex (c : ascii) (s : str) :
  Char.is_hex c = true ->
  replace_char "-"%char [] (c :: s) = c :: replace_char "-"%char [] s.
Proof. intro H. unfold replace_char. simpl. now rewrite (hex_not_hyphen c H). Qed.

Lemma drop_hyphen_hyphen (s : str) :
  replace_char "-"%char [] ("-"%char :: s) = replace_char "-"%char [] s.
Proof. reflexivity. Qed.

Lemma hex_groups_last (mac : str) :
  hex_groups 1 mac = true ->
  exists a b, mac = [a; b] /\ Char.is_hex a = true /\ Char.is_hex b = true.
Proof.
  destruct mac as [|a [|b [|c rest]]]; cbn [hex_groups]; intro H.
  - exfalso; exact (Bool.diff_false_true H).
  - exfalso; exact (Bool.diff_false_true H).
  - apply andb_prop in H. destruct H as [Ha Hb]. now exists a, b.
  - rewrite andb_false_r in H. exfalso; exact (Bool.diff_false_true H).
Qed.

Lemma hex_groups_next (n : nat) (mac : str) :
  hex_groups (S (S n)) mac = true ->
  exists a b rest,
    mac = a :: b :: ":"%char :: rest
    /\ Char.is_hex a = true /\ Char.is_hex b = true
    /\ hex_groups (S n) rest = true.
Proof.
  destruct mac as [|a [|b [|c rest]]]; cbn [hex_groups]; intro H.
  - exfalso; exact (Bool.diff_false_true H).
  - exfalso; exact (Bool.diff_false_true H).
  - exfalso; exact (Bool.diff_false_true H).
  - apply andb_prop in H. destruct H as [H Hrest].
    apply andb_prop in H. destruct H as [H Hc].
    apply andb_prop in H. destruct H as [Ha Hb].
    apply Ascii.eqb_eq in Hc. subst c. now exists a, b, rest.
Qed.

(** A standard MAC is seventeen characters: twelve hexadecimal digits
    and five colons. *)
Lemma standard_mac_shape (mac : str) :
  is_standard_mac mac = true ->
  exists a1 a2 a3 a4 a5 a6 a7 a8 a9 a10 a11 a12,
    mac = [a1; a2; ":"; a3; a4; ":"; a5; a6; ":"; a7; a8; ":"; a9; a10; ":"; a11; a12]%char
    /\ Forall (fun c => Char.is_hex c = true)
              [a1; a2; a3; a4; a5; a6; a7; a8; a9; a10; a11; a12].
Proof.
  unfold is_standard_mac. intro H.
  apply hex_groups_next in H. destruct H as (a1 & a2 & r1 & -> & H1 & H2 & H).
  apply hex_groups_next in H. destruct H as (a3 & a4 & r2 & -> & H3 & H4 & H).
  apply hex_groups_next in H. destruct H as (a5 & a6 & r3 & -> & H5 & H6 & H).
  apply hex_groups_next in H. destruct H as (a7 & a8 & r4 & -> & H7 & H8 & H).
  apply hex_groups_next in H. destruct H as (a9 & a10 & r5 & -> & H9 & H10 & H).
  apply hex_groups_last in H. destruct H as (a11 & a12 & -> & H11 & H12).
  exists a1, a2, a3, a4, a5, a6, a7, a8, a9, a10, a11, a12.
  split; [reflexivity|]. repeat constructor; assumption.
Qed.

(** C2. For every valid standard MAC (six colon-separated groups of two
    hexadecimal digits), converting to the Huawei form with
    [mac_to_huawei_format] and back with [huawei_mac_to_standard] gives
    the same MAC in upper case, colon-separated. *)
Theorem huawei_round_trip (mac : str) :
  is_standard_mac mac = true ->
  huawei_mac_to_standard (mac_to_huawei_format mac) = upper mac.
Proof.
  intro H. apply standard_mac_shape in H.
  destruct H as (a1 & a2 & a3 & a4 & a5 & a6 & a7 & a8 & a9 & a10 & a11 & a12 & -> & H).
  repeat match goal with
         | F : Forall _ (_ :: _) |- _ => inversion F; subst; clear F
         end.
  unfold mac_to_huawei_format. cbv zeta.
  repeat first [rewrite hex_only_hex by assumption | rewrite hex_only_colon].
  change (hex_only []) with (@nil ascii).
  cbv [slice firstn skipn Nat.sub lit list_ascii_of_string app].
  unfold huawei_mac_to_standard. cbv zeta.
  repeat first [rewrite drop_hyphen_hex by assumption | rewrite drop_hyphen_hyphen].
  change (replace_char "-"%char [] []) with (@nil ascii).
  cbv [lower upper map slice firstn skipn Nat.sub Nat.add
       join lit list_ascii_of_string app].
  rewrite !upper_lower_char. reflexivity.
Qed.

Lemma huawei_round_trip_witness :
  huawei_mac_to_standard (mac_to_huawei_format (lit "0a:bc:12:34:56:7F"))
  = lit "0A:BC:12:34:56:7F".
Proof.
  exact (huawei_round_trip (lit "0a:bc:12:34:56:7F") eq_refl).
Defined.

(** ** Row patterns on concrete lines *)

Lemma slash_row_no_match :
  first_row alcatel_pattern (splitlines slash_row) = None.
Proof. vm_compute. reflexivity. Qed.

Lemma lag_row_match :
  first_row alcatel_pattern (splitlines lag_row)
  = Some [("timestamp"%string, lit "01/02/24 10:00:00");
          ("age"%string, lit "L/300");
          ("interface"%string, lit "lag-1:100");
          ("mac"%string, lit "AA:BB:CC:DD:EE:FF");
          ("3"%string, lit "EE:"); ("3"%string, lit "DD:");
          ("3"%string, lit "CC:"); ("3"%string, lit "BB:");
          ("3"%string, lit "AA:");
          ("service"%string, lit "100")].
Proof. vm_compute. reflexivity. Qed.

(** C1 fails on the code.  When the device answers the lookup for
    [aa:bb:cc:dd:ee:ff] with the line
    [100  AA:BB:CC:DD:EE:FF sap:1/1/1:100 L/300 01/02/24 10:00:00], the
    handler finds the target in the answer, but the row pattern reads the
    interface as [[\w\-:]+], which leaves out [/]: no row is found and
    the handler returns [None] after the lookup, printing nothing and
    leaving the stop event unset.  The Huawei row pattern reads the
    interface as [\S+] and takes [1/1/1:100], and the Alcatel pattern
    parses the same line when its interface has no [/]. *)
Theorem alcatel_slash_interface_dropped :
  let run := run_of (handle_alcatel_device (lab (fun _ _ => Ok slash_row) nobody) 61
                       (Connection (lit "10.0.0.1") (lit "alcatel_aos"))
                       (lit "sw1") (lit "10.0.0.1") sample_mac 60) scan_started in
  sample_mac = lit "aa:bb:cc:dd:ee:ff"
  /\ slash_row = lit "100  AA:BB:CC:DD:EE:FF sap:1/1/1:100 L/300 01/02/24 10:00:00"
  /\ contains (alcatel_needle sample_mac) (lower (strip slash_row)) = true
  /\ re_search alcatel_pattern slash_row = None
  /\ fst (fst run) = Ret None
  /\ mac_found_event (snd (fst run)) = false
  /\ snd run
     = [EvPrint (lit "[DEBUG] Sending command to Alcatel device sw1: show service fdb-mac | match aa:bb:cc:dd:ee:ff"
                   ++ newline);
        EvSendCommand (lit "environment no more");
        EvSendCommandTiming (lit "show service fdb-mac | match aa:bb:cc:dd:ee:ff")
          (Ok slash_row)]
  /\ huawei_parse (lit "sw1") (lit "10.0.0.1")
       (lit "aabb-ccdd-eeff 100 1/1/1:100 dynamic")
     = Some (MatchRecord (lit "AA:BB:CC:DD:EE:FF") (lit "1/1/1:100")
               (lit "10.0.0.1") (lit "sw1") (lit "VLAN/VSI=100") (lit "Type=dynamic"))
  /\ alcatel_parse (lit "sw1") (lit "10.0.0.1") lag_row
     = Some (MatchRecord (lit "AA:BB:CC:DD:EE:FF") (lit "lag-1:100")
               (lit "10.0.0.1") (lit "sw1") (lit "Service=100")
               (lit "LastSeen=01/02/24 10:00:00")).
Proof. cbv zeta. conjs; by_eval. Qed.

(** ** The target and the containment test *)

Lemma to_huawei_same_digits (a b : str) :
  hex_only a = hex_only b -> mac_to_huawei_format a = mac_to_huawei_format b.
Proof. unfold mac_to_huawei_format. now intros ->. Qed.

Lemma huawei_needle_same_digits (a b : str) :
  lower (hex_only a) = lower (hex_only b) ->
  huawei_needle (scan_target a) = huawei_needle (scan_target b).
Proof.
  intro H. unfold huawei_needle, scan_target. f_equal.
  apply to_huawei_same_digits. now rewrite !hex_only_lower.
Qed.

(** C3, as the claim has it, fails for the Alcatel handler: the colon and
    the hyphen spelling of one MAC have the same twelve digits, yet on an
    output row that carries the colon spelling only the first is seen. *)
Lemma alcatel_separator_sensitive :
  lower (hex_only (lit "aa:bb:cc:dd:ee:ff")) = lower (hex_only (lit "aa-bb-cc-dd-ee-ff"))
  /\ contains (alcatel_needle (scan_target (lit "aa:bb:cc:dd:ee:ff"))) (lower lag_row) = true
  /\ contains (alcatel_needle (scan_target (lit "aa-bb-cc-dd-ee-ff"))) (lower lag_row) = false
  /\ alcatel_needle (scan_target (lit "AA:BB:CC:DD:EE:FF")) = lit "aa:bb:cc:dd:ee:ff"
  /\ huawei_needle (scan_target (lit "AA:BB:CC:DD:EE:FF")) = lit "aabb-ccdd-eeff".
Proof. conjs; by_eval. Qed.

(** C3, amended.  The containment test is insensitive to letter case for
    both vendors, and insensitive to separators for Huawei only: two
    spellings that agree up to case give the same Alcatel decision and
    the same Huawei decision on every output, and two spellings with the
    same hexadecimal digits up to case give the same Huawei decision.
    The Huawei target is held as lower-case hyphenated triplets, the
    Alcatel target as the lower-cased input with its separators. *)
Theorem target_comparison (a b mac_output : str) :
  (lower a = lower b ->
   contains (alcatel_needle (scan_target a)) (lower mac_output)
   = contains (alcatel_needle (scan_target b)) (lower mac_output)
   /\ contains (huawei_needle (scan_target a)) (lower mac_output)
      = contains (huawei_needle (scan_target b)) (lower mac_output))
  /\ (lower (hex_only a) = lower (hex_only b) ->
      contains (huawei_needle (scan_target a)) (lower mac_output)
      = contains (huawei_needle (scan_target b)) (lower mac_output))
  /\ alcatel_needle (scan_target a) = lower a
  /\ huawei_needle (scan_target a)
     = lower (slice 0 4 (hex_only a)) ++ lit "-" ++ lower (slice 4 8 (hex_only a))
         ++ lit "-" ++ lower (slice 8 12 (hex_only a)).
Proof.
  conjs.
  - unfold scan_target. intros ->. now split.
  - intro H. now rewrite (huawei_needle_same_digits a b H).
  - unfold alcatel_needle, scan_target. apply lower_idem.
  - unfold huawei_needle, scan_target, mac_to_huawei_format. cbv zeta.
    rewrite hex_only_lower. unfold lower, slice.
    rewrite !map_app, !skipn_map, !firstn_map, !map_map.
    repeat (f_equal; try (apply map_ext; intro; apply lower_lower_char)).
Qed.

Lemma target_comparison_witness :
  contains (huawei_needle (scan_target (lit "AA:BB:CC:DD:EE:FF"))) (lower lag_row)
  = contains (huawei_needle (scan_target (lit "aa-bb-cc-dd-ee-ff"))) (lower lag_row)
  /\ contains (alcatel_needle (scan_target (lit "AA:BB:CC:DD:EE:FF"))) (lower lag_row)
     = contains (alcatel_needle (scan_target (lit "aa:bb:cc:dd:ee:ff"))) (lower lag_row).
Proof.
  split.
  - apply (proj1 (proj2 (target_comparison (lit "AA:BB:CC:DD:EE:FF")
                           (lit "aa-bb-cc-dd-ee-ff") lag_row))).
    vm_compute. reflexivity.
  - apply (proj1 (target_comparison (lit "AA:BB:CC:DD:EE:FF")
                    (lit "aa:bb:cc:dd:ee:ff") lag_row)).
    vm_compute. reflexivity.
Defined.

(** ** Reasoning about computations *)

Lemma bind_inv {A B} (m : M A) (f : A -> M B) (w : world)
  (r : res B) (w' : world) (t : list event) :
  bind m f w = (r, w', t) ->
  (exists a w1 t1 t2,
      m w = (Ret a, w1, t1) /\ f a w1 = (r, w', t2) /\ t = t1 ++ t2)
  \/ (exists e, m w = (Raise e, w', t) /\ r = Raise e)
  \/ (m w = (Diverge, w', t) /\ r = Diverge).
Proof.
  unfold bind. destruct (m w) as [[[a|e|] w1] t1].
  - destruct (f a w1) as [[r2 w2] t2] eqn:Hf. intro H. inversion H; subst.
    left. exists a, w1, t1, t2. auto.
  - intro H. inversion H; subst. right. left. exists e. auto.
  - intro H. inversion H; subst. right. right. auto.
Qed.

Lemma try_catch_inv {A} (m : M A) (h : exn -> M A) (w : world)
  (r : res A) (w' : world) (t : list event) :
  try_catch m h w = (r, w', t) ->
  (exists e w1 t1 t2,
      m w = (Raise e, w1, t1) /\ h e w1 = (r, w', t2) /\ t = t1 ++ t2)
  \/ (m w = (r, w', t) /\ forall e, r <> Raise e).
Proof.
  unfold try_catch. destruct (m w) as [[[a|e|] w1] t1].
  - intro H. inversion H; subst. right. split; [reflexivity | discriminate].
  - destruct (h e w1) as [[r2 w2] t2] eqn:Hh. intro H. inversion H; subst.
    left. exists e, w1, t1, t2. auto.
  - intro H. inversion H; subst. right. split; [reflexivity | discriminate].
Qed.

Lemma finally_inv {A} (m : M A) (c : M unit) (w : world)
  (r : res A) (w' : world) (t : list event) :
  finally m c w = (r, w', t) ->
  (m w = (Diverge, w', t) /\ r = Diverge)
  \/ (exists r1 w1 t1 rc t2,
         m w = (r1, w1, t1) /\ r1 <> Diverge /\ c w1 = (rc, w', t2)
         /\ t = t1 ++ t2
         /\ r = match rc with
                | Ret _ => r1
                | Raise e => Raise e
                | Diverge => Diverge
                end).
Proof.
  unfold finally. destruct (m w) as [[[a|e|] w1] t1].
  - destruct (c w1) as [[[u|e2|] w2] t2] eqn:Hc; intro H; inversion H; subst;
      right; eexists _, w1, t1, _, t2; (conjs; first [eassumption | reflexivity | discriminate]).
  - destruct (c w1) as [[[u|e2|] w2] t2] eqn:Hc; intro H; inversion H; subst;
      right; eexists _, w1, t1, _, t2; (conjs; first [eassumption | reflexivity | discriminate]).
  - intro H. inversion H; subst. left. auto.
Qed.

(** *** Inversion of runs *)

Lemma triple_inv {A B C} (a a' : A) (b b' : B) (c c' : C) :
  (a, b, c) = (a', b', c') -> a = a' /\ b = b' /\ c = c'.
Proof. intro H. inversion H. auto. Qed.

Lemma Ret_inj {A} (a b : A) : Ret a = Ret b -> a = b.
Proof. intro H. inversion H. reflexivity. Qed.

Ltac triple H := apply triple_inv in H; destruct H as (? & ? & ?); subst.

(** Takes apart the hypotheses that describe a run of a computation
    built from the primitive operations. *)
Ltac run_inv :=
  repeat match goal with
    | H : bind _ _ _ = _ |- _ =>
        apply bind_inv in H;
        destruct H as [(? & ? & ? & ? & ? & ? & ?) | [(? & ? & ?) | (? & ?)]]
    | H : (if ?b then _ else _) _ = _ |- _ => destruct b eqn:?
    | H : (match ?x with _ => _ end) _ = _ |- _ => destruct x eqn:?
    | H : ret _ _ = _ |- _ => triple H
    | H : raise _ _ = _ |- _ => triple H
    | H : diverge _ = _ |- _ => triple H
    | H : emit _ _ = _ |- _ => triple H
    | H : print _ _ = _ |- _ => triple H
    | H : time_time _ _ = _ |- _ => triple H
    | H : time_sleep _ _ = _ |- _ => triple H
    | H : is_set _ _ = _ |- _ => triple H
    | H : set_event _ = _ |- _ => triple H
    | H : send_command_timing ?E _ ?cmd ?w = _ |- _ =>
        unfold send_command_timing in H;
        destruct (env_send_command_timing E (ticks w) cmd) eqn:?;
        triple H
    | H : ask ?f ?w = _ |- _ =>
        unfold ask in H; destruct (f (ticks w)) eqn:?; triple H
    | H : Ret _ = Ret _ |- _ => apply Ret_inj in H; try discriminate H; subst
    | H : Ret _ = Raise _ |- _ => discriminate H
    | H : Ret _ = Diverge |- _ => discriminate H
    | H : Raise _ = Diverge |- _ => discriminate H
    | H : Raise _ = Ret _ |- _ => discriminate H
    | H : Diverge = Ret _ |- _ => discriminate H
    | H : Diverge = Raise _ |- _ => discriminate H
    end.

(** *** What a session leaves alone *)

Lemma frame_refl (w : world) : frame w w [].
Proof. constructor; auto. Qed.

Lemma frame_trans (w w1 w2 : world) (t1 t2 : list event) :
  frame w w1 t1 -> frame w1 w2 t2 -> frame w w2 (t1 ++ t2).
Proof.
  intros [c1 n1 s1 l1 e1] [c2 n2 s2 l2 e2]. constructor.
  - congruence.
  - congruence.
  - congruence.
  - auto.
  - apply Forall_app. auto.
Qed.

Lemma frame_tick (w : world) : frame w (tick w) [].
Proof. constructor; auto. Qed.

Lemma framed_ret {A} (a : A) : framed (ret a).
Proof. intros w r w' t H. inversion H; subst. apply frame_refl. Qed.

Lemma framed_raise {A} (e : exn) : framed (@raise A e).
Proof. intros w r w' t H. inversion H; subst. apply frame_refl. Qed.

Lemma framed_diverge {A} : framed (@diverge A).
Proof. intros w r w' t H. inversion H; subst. apply frame_refl. Qed.

Lemma framed_bind {A B} (m : M A) (f : A -> M B) :
  framed m -> (forall a, framed (f a)) -> framed (bind m f).
Proof.
  intros Hm Hf w r w' t H. apply bind_inv in H.
  destruct H as [(a & w1 & t1 & t2 & H1 & H2 & ->) | [(e & H1 & _) | (H1 & _)]].
  - eapply frame_trans; [eapply Hm | eapply Hf]; eassumption.
  - eapply Hm; eassumption.
  - eapply Hm; eassumption.
Qed.

Lemma framed_try_catch {A} (m : M A) (h : exn -> M A) :
  framed m -> (forall e, framed (h e)) -> framed (try_catch m h).
Proof.
  intros Hm Hh w r w' t H. apply try_catch_inv in H.
  destruct H as [(e & w1 & t1 & t2 & H1 & H2 & ->) | (H1 & _)].
  - eapply frame_trans; [eapply Hm | eapply Hh]; eassumption.
  - eapply Hm; eassumption.
Qed.

Lemma framed_emit (ev : event) : progress_event ev = false -> framed (emit ev).
Proof.
  intros Hev w r w' t H. inversion H; subst.
  constructor; auto.
Qed.

Lemma framed_print (text : str) : framed (print text).
Proof. apply framed_emit. reflexivity. Qed.

Lemma framed_ask {A} (answer : nat -> reply A) : framed (ask answer).
Proof.
  intros w r w' t H. unfold ask in H.
  destruct (answer (ticks w)); inversion H; subst; apply frame_tick.
Qed.

Section Framed.

Variable E : env.

Lemma framed_time_time : framed (time_time E).
Proof. intros w r w' t H. inversion H; subst. apply frame_tick. Qed.

Lemma framed_time_sleep (seconds : Z) : framed (time_sleep seconds).
Proof.
  intros w r w' t H. inversion H; subst. constructor; auto.
Qed.

Lemma framed_is_set : framed (is_set E).
Proof.
  intros w r w' t H. inversion H; subst. constructor; simpl; auto.
  intros ->. reflexivity.
Qed.

Lemma framed_set_event : framed set_event.
Proof.
  intros w r w' t H. inversion H; subst. constructor; simpl; auto.
Qed.

Lemma framed_send_command_timing (conn : connection) (cmd : str) :
  framed (send_command_timing E conn cmd).
Proof.
  intros w r w' t H. inversion H; subst. constructor; simpl; auto.
Qed.

End Framed.

Create HintDb framed.

Ltac framed_step :=
  first
    [ solve [auto 1 with framed nocore]
    | apply framed_bind
    | apply framed_try_catch
    | apply framed_ret
    | apply framed_raise
    | apply framed_diverge
    | apply framed_print
    | apply framed_ask
    | apply framed_time_time
    | apply framed_time_sleep
    | apply framed_is_set
    | apply framed_set_event
    | apply framed_send_command_timing
    | apply framed_emit; reflexivity
    | match goal with
      | |- framed (if ?b then _ else _) => destruct b
      | |- framed (match ?x with _ => _ end) => destruct x
      end
    | progress intros ].

Ltac framed_auto := repeat framed_step.

Section FramedSession.

Variable E : env.

Lemma framed_ssh_connect (host device_type : str) :
  framed (ssh_connect E host device_type).
Proof. unfold ssh_connect. framed_auto. Qed.

Lemma framed_poll (fuel : nat) (conn : connection) (hostname cmd needle : str)
  (start_time timeout : Q) (mac_output : option str) :
  framed (poll E fuel conn hostname cmd needle start_time timeout mac_output).
Proof.
  revert mac_output.
  induction fuel as [|fuel IH]; intro mac_output; cbn [poll].
  - apply framed_diverge.
  - framed_auto.
Qed.
#[local] Hint Resolve framed_ssh_connect framed_poll : framed.

Lemma framed_handle_huawei_device (fuel : nat) (conn : connection)
  (hostname ip search_mac : str) (timeout : Q) :
  framed (handle_huawei_device E fuel conn hostname ip search_mac timeout).
Proof.
  unfold handle_huawei_device, send_command, after_poll.
  framed_auto.
Qed.

Lemma framed_handle_alcatel_device (fuel : nat) (conn : connection)
  (hostname ip search_mac : str) (timeout : Q) :
  framed (handle_alcatel_device E fuel conn hostname ip search_mac timeout).
Proof.
  unfold handle_alcatel_device, send_command, after_poll.
  framed_auto.
Qed.

#[local] Hint Resolve framed_handle_huawei_device framed_handle_alcatel_device : framed.

Lemma framed_session (fuel : nat) (ip vendor search_mac : str) (timeout : Q) :
  framed (session E fuel ip vendor search_mac timeout).
Proof.
  unfold session, set_base_prompt, find_prompt, disconnect.
  framed_auto.
Qed.

End FramedSession.

(** ** Progress reporting *)

Section Progress.

Variable E : env.

Lemma progress_output_quiet (w : world) (line : list event) :
  progress_output w line -> Forall (fun ev => progress_event ev = false) line.
Proof.
  unfold progress_output. destruct (scan_start_time w).
  - intros (eta & ->). repeat constructor.
  - intros ->. constructor.
Qed.

(** [print_progress] always returns: the division is guarded. *)
Lemma print_progress_run (w : world) :
  exists t,
    print_progress E w = (Ret tt, after_progress w, t)
    /\ progress_output w t.
Proof.
  unfold print_progress, after_progress, progress_output, bind, get.
  destruct (scan_start_time w) as [started|] eqn:Hs.
  - unfold time_time, truediv.
    destruct (0 <? completed_devices w)%Z eqn:Hpos.
    + destruct (completed_devices w =? 0)%Z eqn:Hz.
      * apply Z.ltb_lt in Hpos. apply Z.eqb_eq in Hz. lia.
      * cbn. eexists. split; [reflexivity|]. eexists. reflexivity.
    + cbn. eexists. split; [reflexivity|]. eexists. reflexivity.
  - cbn. eexists. split; reflexivity.
Qed.

(** One completion report: the counter goes up by one, inside the
    lock, and at most the progress line is printed. *)
Lemma report_completion_run (w : world) :
  exists line,
    report_completion E w
    = (Ret tt, after_progress (counted w),
       EvAcquire :: EvCompleted (completed_devices w + 1) :: line ++ [EvRelease])
    /\ progress_output (counted w) line.
Proof.
  destruct (print_progress_run (counted w)) as (t & Hrun & Ht).
  exists t. split; [|exact Ht].
  unfold report_completion, with_progress_lock, finally, bind, emit,
    count_completed.
  fold (counted w). rewrite Hrun. reflexivity.
Qed.

Lemma after_progress_counted (w : world) :
  completed_devices (after_progress (counted w)) = (completed_devices w + 1)%Z
  /\ total_devices (after_progress (counted w)) = total_devices w
  /\ scan_start_time (after_progress (counted w)) = scan_start_time w
  /\ mac_found_event (after_progress (counted w)) = mac_found_event w.
Proof.
  unfold after_progress, counted. cbn.
  destruct (scan_start_time w); cbn; auto.
Qed.

End Progress.

(** ** One device *)

Section Device.

Variable E : env.

Lemma handle_device_stopped (fuel : nat) (device_info search_mac : str)
  (timeout : Q) (w : world) :
  stopped_on_entry E w = true ->
  handle_device E fuel device_info search_mac timeout w
  = (Ret None, entered E w, []).
Proof.
  intro H. unfold handle_device, bind, is_set.
  fold (stopped_on_entry E w). fold (entered E w). rewrite H. reflexivity.
Qed.

Lemma handle_device_malformed (fuel : nat) (device_info search_mac : str)
  (timeout : Q) (w : world) :
  stopped_on_entry E w = false ->
  malformed device_info ->
  exists line,
    handle_device E fuel device_info search_mac timeout w
    = (Ret None, after_progress (counted (entered E w)),
       EvAcquire :: EvCompleted (completed_devices w + 1) :: line ++ [EvRelease])
    /\ progress_output (counted (entered E w)) line.
Proof.
  intros Hgo Hbad.
  destruct (report_completion_run E (entered E w)) as (line & Hrun & Hline).
  exists line. split; [|exact Hline].
  unfold handle_device, bind at 1, is_set.
  fold (stopped_on_entry E w). fold (entered E w). rewrite Hgo.
  unfold malformed in Hbad. cbv zeta in Hbad |- *.
  destruct Hbad as [Hlen | Hvendor].
  - apply Nat.eqb_neq in Hlen. rewrite Hlen. cbn [negb].
    unfold bind. rewrite Hrun. cbn. rewrite app_nil_r. reflexivity.
  - destruct (negb (List.length (split "," (strip device_info)) =? 2)%nat).
    + unfold bind. rewrite Hrun. cbn. rewrite app_nil_r. reflexivity.
    + rewrite Hvendor. cbn [negb]. unfold bind. rewrite Hrun. cbn. rewrite app_nil_r. reflexivity.
Qed.

Lemma handle_device_session (fuel : nat) (device_info search_mac : str)
  (timeout : Q) (w : world) :
  stopped_on_entry E w = false ->
  ~ malformed device_info ->
  let parts := split ","%char (strip device_info) in
  handle_device E fuel device_info search_mac timeout w
  = let '(r, w1, t1) :=
      finally (session E fuel (strip (nth 0 parts []))
                 (lower (strip (nth 1 parts []))) search_mac timeout)
              (report_completion E) (entered E w) in
    (r, w1, t1).
Proof.
  intros Hgo Hok parts.
  unfold handle_device, bind at 1, is_set.
  fold (stopped_on_entry E w). fold (entered E w). rewrite Hgo.
  cbv zeta. fold parts.
  unfold malformed in Hok. cbv zeta in Hok. fold parts in Hok.
  destruct (List.length parts =? 2)%nat eqn:Hlen.
  - cbn [negb].
    destruct (existsb (str_eqb (lower (strip (nth 1 parts []))))
                [lit "huawei"; lit "alcatel_aos"]) eqn:Hv.
    + cbn [negb].
      destruct (finally _ _ _) as [[r w1] t1]. reflexivity.
    + exfalso. apply Hok. now right.
  - exfalso. apply Hok. left. now apply Nat.eqb_neq.
Qed.

(** The guarded session never raises: its [except] clause only prints. *)
Lemma session_no_raise (fuel : nat) (ip vendor search_mac : str) (timeout : Q)
  (w : world) (e : exn) (w' : world) (t : list event) :
  session E fuel ip vendor search_mac timeout w <> (Raise e, w', t).
Proof.
  intro H. unfold session in H. apply try_catch_inv in H.
  destruct H as [(e1 & w1 & t1 & t2 & _ & H & _) | (_ & H)].
  - cbn in H. inversion H.
  - now apply (H e).
Qed.

(** A run of [handle_device] that comes back, and was not stopped on
    entry, consists of a framed part followed by one completion
    report. *)
Lemma handle_device_counts (fuel : nat) (device_info search_mac : str)
  (timeout : Q) (w : world) (r : res (option match_record)) (w' : world)
  (t : list event) :
  handle_device E fuel device_info search_mac timeout w = (r, w', t) ->
  stopped_on_entry E w = false ->
  r <> Diverge ->
  exists v w1 before line,
    r = Ret v
    /\ (v = None
        \/ exists ip vendor,
            session E fuel ip vendor search_mac timeout (entered E w)
            = (Ret v, w1, before))
    /\ frame (entered E w) w1 before
    /\ w' = after_progress (counted w1)
    /\ t = before ++ EvAcquire :: EvCompleted (completed_devices w + 1)
                  :: line ++ [EvRelease]
    /\ progress_output (counted w1) line.
Proof.
  intros Hrun Hgo Hret.
  assert (Hdec : malformed device_info \/ ~ malformed device_info).
  { unfold malformed. cbv zeta.
    destruct (Nat.eq_dec (List.length (split "," (strip device_info))) 2) as [He|He].
    - destruct (existsb _ _) eqn:Hv.
      + right. intros [H|H]; [now apply H | discriminate].
      + left. now right.
    - left. now left. }
  destruct Hdec as [Hbad | Hok].
  - destruct (handle_device_malformed fuel device_info search_mac timeout w Hgo Hbad)
      as (line & Heq & Hline).
    rewrite Heq in Hrun. inversion Hrun; subst.
    exists None, (entered E w), [], line.
    conjs; [reflexivity | now left | apply frame_refl | reflexivity
           | reflexivity | exact Hline].
  - pose proof (handle_device_session fuel device_info search_mac timeout w Hgo Hok) as Heq.
    cbv zeta in Heq. rewrite Heq in Hrun. clear Heq.
    destruct (finally _ _ _) as [[r0 w0] t0] eqn:Hfin.
    inversion Hrun; subst. clear Hrun.
    apply finally_inv in Hfin.
    destruct Hfin as [(_ & Hd) | (r1 & w1 & t1 & rc & t2 & Hs & Hnd & Hc & -> & Hr)].
    + contradiction.
    + destruct (report_completion_run E w1) as (line & Hrep & Hline).
      rewrite Hrep in Hc. inversion Hc; subst. clear Hc.
      pose proof (framed_session E _ _ _ _ _ _ _ _ _ Hs) as Hframe.
      destruct r1 as [v|e|].
      * exists v, w1, t1, line.
        conjs; [reflexivity | right; eauto | exact Hframe | reflexivity
               | | exact Hline].
        rewrite (frame_completed _ _ _ Hframe). reflexivity.
      * exfalso. eapply session_no_raise. exact Hs.
      * contradiction.
Qed.

End Device.

(** ** Termination of the polling loop

    The loop ends once the clock has moved on by the timeout.  When every
    [N] interactions take at least the timeout, more than [N] units of
    fuel are enough. *)

Section Termination.

Variable E : env.
Variable timeout : Q.
Variable N : nat.
Hypothesis Hclock : clock_passes E timeout N.

Lemma poll_returns (fuel : nat) (conn : connection) (hostname cmd needle : str)
  (i0 : nat) (mac_output : option str) (w w' : world) (t : list event) :
  (i0 + N < fuel + ticks w)%nat ->
  (0 < fuel)%nat ->
  poll E fuel conn hostname cmd needle (env_clock E i0) timeout mac_output w
  <> (Diverge, w', t).
Proof.
  revert mac_output w t.
  induction fuel as [|fuel IH]; intros mac_output w t Hfuel Hpos Hrun; [lia|].
  cbn [poll] in Hrun.
  apply bind_inv in Hrun.
  destruct Hrun as [(now & w1 & t1 & t2 & Hnow & Hrun & ->) | [(e & H & _) | (H & _)]];
    [| inversion H | inversion H].
  inversion Hnow; subst; clear Hnow.
  destruct (Qltb (env_clock E (ticks w) - env_clock E i0) timeout) eqn:Hlt;
    [| inversion Hrun].
  assert (Hearly : (ticks w < i0 + N)%nat).
  { destruct (Nat.lt_ge_cases (ticks w) (i0 + N)) as [Hl|Hg]; [exact Hl|].
    rewrite (Hclock i0 (ticks w) Hg) in Hlt. discriminate Hlt. }
  run_inv;
    match goal with
    | H : poll _ _ _ _ _ _ _ _ _ _ = _ |- _ => revert H; apply IH; cbn; lia
    end.
Qed.

Ltac poll_ends Hfuel :=
  match goal with
  | H : poll _ _ _ _ _ _ _ _ _ _ = (Diverge, _, _) |- _ =>
      revert H; apply poll_returns; cbn; lia
  end.

Lemma handle_huawei_device_returns (fuel : nat) (conn : connection)
  (hostname ip search_mac : str) (w w' : world) (t : list event) :
  (N < fuel)%nat ->
  handle_huawei_device E fuel conn hostname ip search_mac timeout w
  <> (Diverge, w', t).
Proof.
  intros Hfuel Hrun.
  unfold handle_huawei_device, send_command, after_poll in Hrun.
  run_inv; poll_ends Hfuel.
Qed.

Lemma handle_alcatel_device_returns (fuel : nat) (conn : connection)
  (hostname ip search_mac : str) (w w' : world) (t : list event) :
  (N < fuel)%nat ->
  handle_alcatel_device E fuel conn hostname ip search_mac timeout w
  <> (Diverge, w', t).
Proof.
  intros Hfuel Hrun.
  unfold handle_alcatel_device, send_command, after_poll in Hrun.
  run_inv; poll_ends Hfuel.
Qed.

Lemma session_returns (fuel : nat) (ip vendor search_mac : str)
  (w w' : world) (t : list event) :
  (N < fuel)%nat ->
  session E fuel ip vendor search_mac timeout w <> (Diverge, w', t).
Proof.
  intros Hfuel Hrun. unfold session in Hrun.
  apply try_catch_inv in Hrun.
  destruct Hrun as [(e & w1 & t1 & t2 & _ & Hrun & _) | (Hrun & _)].
  - run_inv.
  - unfold ssh_connect, set_base_prompt, find_prompt, disconnect in Hrun.
    apply bind_inv in Hrun.
    destruct Hrun as [(c & w1 & t1 & t2 & Hc & Hrun & ->) | [(e & _ & He) | (Hc & _)]].
    + destruct c as [conn|]; [|run_inv].
      run_inv;
        first [ eapply handle_huawei_device_returns; eassumption
              | eapply handle_alcatel_device_returns; eassumption ].
    + discriminate He.
    + apply try_catch_inv in Hc.
      destruct Hc as [(e & w1 & t1 & t2 & _ & Hc & _) | (Hc & _)]; run_inv.
Qed.

Lemma handle_device_returns (fuel : nat) (device_info search_mac : str)
  (w w' : world) (t : list event) :
  (N < fuel)%nat ->
  handle_device E fuel device_info search_mac timeout w <> (Diverge, w', t).
Proof.
  intros Hfuel Hrun. unfold handle_device in Hrun.
  apply bind_inv in Hrun.
  destruct Hrun as [(stop & w1 & t1 & t2 & _ & Hrun & ->) | [(e & _ & He) | (Hs & _)]];
    [| discriminate He | inversion Hs].
  destruct stop; [inversion Hrun|].
  cbv zeta in Hrun.
  destruct (negb _) in Hrun.
  - destruct (report_completion_run E w1) as (line & Hrep & _).
    unfold bind in Hrun. rewrite Hrep in Hrun. inversion Hrun.
  - destruct (negb _) in Hrun.
    + destruct (report_completion_run E w1) as (line & Hrep & _).
      unfold bind in Hrun. rewrite Hrep in Hrun. inversion Hrun.
    + apply finally_inv in Hrun.
      destruct Hrun as [(Hs & _) | (r1 & w2 & t3 & rc & t4 & _ & Hnd & Hc & _ & Hr)].
      * revert Hs. now apply session_returns.
      * destruct (report_completion_run E w2) as (line & Hrep & _).
        rewrite Hrep in Hc. inversion Hc; subst.
        destruct r1; try discriminate Hr. now apply Hnd.
Qed.

End Termination.

(** ** Sample runs *)

Lemma lab_clock_passes (answer : nat -> str -> reply str) (elsewhere : nat -> bool) :
  clock_passes (lab answer elsewhere) 60 60.
Proof.
  intros i j Hij. unfold Qltb. apply negb_false_iff. apply Qle_bool_iff.
  cbn [env_clock lab]. unfold Qle, Qminus, Qplus, Qopp, inject_Z. cbn. lia.
Qed.

Lemma run_eta {A} (x : res A * world * list event) :
  x = (fst (fst x), snd (fst x), snd x).
Proof. destruct x as [[r w] t]. reflexivity. Qed.

(** ** Completion counting *)

(** C5, as the claim has it, fails: a poller that finds the stop event
    set on entry returns at once and leaves the counter as it was. *)
Lemma early_abort_not_counted :
  handle_device (lab (fun _ _ => Ok lag_row) nobody) 61
    (lit "10.0.0.1,alcatel_aos") sample_mac 60 scan_decided
  = (Ret None, World true 1 3 (Some 0%Q) 1, []).
Proof. by_eval. Qed.

(** C5, amended.  A poller that finds the stop event set on entry
    returns without touching the counter.  Every other invocation that
    comes back - match, no match, skipped line, failed connection or
    error - returns normally and has incremented the counter exactly
    once, between acquiring and releasing the progress lock, as the last
    thing it does; and it does come back whenever the clock passes the
    timeout within the fuel given. *)
Theorem completion_counted_once (E : env) (fuel : nat)
  (device_info search_mac : str) (timeout : Q) (w : world)
  (r : res (option match_record)) (w' : world) (t : list event) :
  handle_device E fuel device_info search_mac timeout w = (r, w', t) ->
  (stopped_on_entry E w = true ->
   r = Ret None /\ t = [] /\ completed_devices w' = completed_devices w)
  /\ (stopped_on_entry E w = false -> r <> Diverge ->
      (exists v, r = Ret v)
      /\ completed_devices w' = (completed_devices w + 1)%Z
      /\ exists before line,
          t = before ++ EvAcquire :: EvCompleted (completed_devices w + 1)
                     :: line ++ [EvRelease]
          /\ Forall (fun ev => progress_event ev = false) before
          /\ Forall (fun ev => progress_event ev = false) line)
  /\ (forall N, clock_passes E timeout N -> (N < fuel)%nat -> r <> Diverge).
Proof.
  intro Hrun. conjs.
  - intro Hstop.
    rewrite (handle_device_stopped E fuel device_info search_mac timeout w Hstop)
      in Hrun.
    inversion Hrun; subst. auto.
  - intros Hgo Hret.
    destruct (handle_device_counts E _ _ _ _ _ _ _ _ Hrun Hgo Hret)
      as (v & w1 & before & line & -> & _ & Hframe & -> & -> & Hline).
    conjs.
    + now exists v.
    + destruct (after_progress_counted w1) as (Hc & _). rewrite Hc.
      rewrite (frame_completed _ _ _ Hframe). reflexivity.
    + exists before, line. conjs.
      * reflexivity.
      * apply Hframe.
      * eapply progress_output_quiet. exact Hline.
  - intros N Hclock Hfuel ->.
    revert Hrun. now apply handle_device_returns with (N := N).
Qed.

Lemma completion_counted_once_witness :
  let run := run_of (handle_device (lab (fun _ _ => Ok lag_row) nobody) 61
                       (lit "10.0.0.1,alcatel_aos") sample_mac 60) scan_started in
  completed_devices (snd (fst run)) = 1%Z.
Proof.
  intro run.
  pose proof (completion_counted_once _ _ _ _ _ _ _ _ _ (run_eta run)) as H.
  destruct H as (_ & H & Hback).
  destruct H as (_ & H & _).
  - reflexivity.
  - apply (Hback 60%nat); [apply lab_clock_passes | lia].
  - exact H.
Defined.

(** C8, as the claim has it, fails: a malformed line that is handled
    after the stop event was set is not counted. *)
Lemma malformed_line_not_counted_when_stopped :
  malformed (lit "not-a-device-line")
  /\ handle_device (lab (fun _ _ => Ok lag_row) nobody) 61
       (lit "not-a-device-line") sample_mac 60 scan_decided
     = (Ret None, World true 1 3 (Some 0%Q) 1, []).
Proof.
  split.
  - left. vm_compute. discriminate.
  - by_eval.
Qed.

(** C8, amended.  For every malformed device line (field count other
    than two, or an unrecognised vendor) that is handled while the stop
    event is not set, the poller returns [None] normally, attempts no
    connection and prints no error - it only takes the progress lock,
    increments the counter by one, prints at most the progress line and
    releases the lock. *)
Theorem malformed_line_skipped (E : env) (fuel : nat)
  (device_info search_mac : str) (timeout : Q) (w : world) :
  malformed device_info ->
  stopped_on_entry E w = false ->
  exists w' line,
    handle_device E fuel device_info search_mac timeout w
    = (Ret None, w',
       EvAcquire :: EvCompleted (completed_devices w + 1) :: line ++ [EvRelease])
    /\ completed_devices w' = (completed_devices w + 1)%Z
    /\ match scan_start_time w with
       | None => line = []
       | Some _ =>
           exists eta_str,
             line = [EvPrint (progress_line (completed_devices w + 1)
                                (total_devices w) eta_str ++ ["013"%char])]
       end.
Proof.
  intros Hbad Hgo.
  destruct (handle_device_malformed E fuel device_info search_mac timeout w Hgo Hbad)
    as (line & Hrun & Hline).
  exists (after_progress (counted (entered E w))), line. conjs.
  - exact Hrun.
  - destruct (after_progress_counted (entered E w)) as (Hc & _). exact Hc.
  - exact Hline.
Qed.

Lemma malformed_line_skipped_witness :
  exists w' line,
    handle_device (lab (fun _ _ => Ok lag_row) nobody) 0
      (lit "10.0.0.1,cisco_ios") sample_mac 60 scan_started
    = (Ret None, w', EvAcquire :: EvCompleted 1 :: line ++ [EvRelease])
    /\ completed_devices w' = 1%Z.
Proof.
  destruct (malformed_line_skipped (lab (fun _ _ => Ok lag_row) nobody) 0
              (lit "10.0.0.1,cisco_ios") sample_mac 60 scan_started)
    as (w' & line & Hrun & Hc & _).
  - right. vm_compute. reflexivity.
  - reflexivity.
  - exists w', line. split; [exact Hrun | exact Hc].
Defined.

(** C10.  [print_progress] always returns normally, so its division
    never fails: with no device completed the average is taken as 0 and
    the line shows an ETA of 00:00:00; and when [scan_start_time] is
    unset it returns without printing and without reading the clock. *)
Theorem print_progress_total (E : env) (w : world) :
  exists t,
    print_progress E w = (Ret tt, after_progress w, t)
    /\ match scan_start_time w with
       | None => t = [] /\ after_progress w = w
       | Some _ =>
           (exists eta_str,
               t = [EvPrint (progress_line (completed_devices w) (total_devices w)
                               eta_str ++ ["013"%char])])
           /\ ((completed_devices w <= 0)%Z ->
               t = [EvPrint (progress_line (completed_devices w) (total_devices w)
                               (lit "00:00:00") ++ ["013"%char])])
       end.
Proof.
  unfold print_progress, after_progress, bind, get.
  destruct (scan_start_time w) as [started|] eqn:Hs.
  - unfold time_time, truediv.
    destruct (0 <? completed_devices w)%Z eqn:Hpos.
    + destruct (completed_devices w =? 0)%Z eqn:Hz.
      * apply Z.ltb_lt in Hpos. apply Z.eqb_eq in Hz. lia.
      * cbn. eexists. split; [reflexivity|]. split.
        -- eexists. reflexivity.
        -- apply Z.ltb_lt in Hpos. lia.
    + cbn. eexists. split; [reflexivity|]. split.
      * eexists. reflexivity.
      * intros _. reflexivity.
  - cbn. eexists. conjs; reflexivity.
Qed.

Lemma print_progress_total_witness :
  exists t,
    print_progress (lab (fun _ _ => Ok lag_row) nobody) scan_started
    = (Ret tt, tick scan_started, t)
    /\ t = [EvPrint (lit "[PROGRESS] 0/3 devices scanned | ETA: 00:00:00" ++ ["013"%char])].
Proof.
  destruct (print_progress_total (lab (fun _ _ => Ok lag_row) nobody) scan_started)
    as (t & Hrun & _ & Hzero).
  exists t. split; [exact Hrun|].
  apply Hzero. vm_compute. discriminate.
Defined.

(** ** Releasing the session *)

(** C6 fails on the code: when the lookup command raises after the
    session was opened, [handle_device] catches the exception and returns
    without [conn.disconnect()]; on the path without exception the
    session is closed. *)
Theorem session_leaked_on_error :
  let failing := lab (fun _ _ => Failed (RemoteError (lit "read timeout"))) nobody in
  let fine := lab (fun _ _ => Ok lag_row) nobody in
  let leaked := run_of (handle_device failing 61 (lit "10.0.0.1,huawei")
                          sample_mac 60) scan_started in
  let closed := run_of (handle_device fine 61 (lit "10.0.0.1,alcatel_aos")
                          sample_mac 60) scan_started in
  fst (fst leaked) = Ret None
  /\ existsb opens_session (snd leaked) = true
  /\ existsb closes_session (snd leaked) = false
  /\ In (EvPrint (lit "[X] Error on 10.0.0.1: read timeout" ++ newline)) (snd leaked)
  /\ existsb opens_session (snd closed) = true
  /\ existsb closes_session (snd closed) = true.
Proof.
  cbv zeta. conjs; try by_eval.
  vm_compute. tauto.
Qed.

(** ** Empty command output *)

Arguments lit : simpl never.

Ltac split_trace :=
  repeat match goal with
    | H : _ ++ _ :: _ = [] |- _ =>
        exfalso; symmetry in H; exact (app_cons_not_nil _ _ _ H)
    | H : [] = _ ++ _ :: _ |- _ =>
        exfalso; exact (app_cons_not_nil _ _ _ H)
    | H : _ :: _ = ?pre ++ _ :: _ |- _ =>
        is_var pre; destruct pre; cbn in H; inversion H; subst; clear H
    | H : ?pre ++ _ :: _ = _ :: _ |- _ =>
        is_var pre; destruct pre; cbn in H; inversion H; subst; clear H
    end.

Section EmptyOutput.

Variable E : env.

Lemma poll_empty_answer (fuel : nat) (conn : connection)
  (hostname cmd needle : str) (start_time timeout : Q)
  (mac_output : option str) (w : world) (r : res loop_exit) (w' : world)
  (pre : list event) (ev : event) (post : list event) :
  poll E fuel conn hostname cmd needle start_time timeout mac_output w
  = (r, w', pre ++ ev :: post) ->
  empty_answer ev ->
  r = Ret ReturnedNone /\ post = [no_output_message hostname].
Proof.
  revert mac_output w pre.
  induction fuel as [|fuel IH]; intros mac_output w pre Hrun Hev; cbn [poll] in Hrun.
  - inversion Hrun. split_trace.
  - run_inv; cbn in *; split_trace; cbn in Hev; try contradiction.
    all: try (rewrite Hev in *; discriminate).
    all: try (split; reflexivity).
    all: try (eapply IH; eassumption).
Qed.

End EmptyOutput.

Lemma answer_not_in_tail (pre : list event) (ev : event) (post t1 t2 : list event) :
  pre ++ ev :: post = t1 ++ t2 ->
  empty_answer ev ->
  Forall (fun e => ~ empty_answer e) t2 ->
  exists post1, t1 = pre ++ ev :: post1 /\ post = post1 ++ t2.
Proof.
  intros Heq Hev Htail. apply app_eq_app in Heq.
  destruct Heq as (l & [(-> & ->) | (-> & Heq)]).
  - exfalso. apply Forall_app in Htail. destruct Htail as (_ & Htail).
    inversion Htail; subst. contradiction.
  - destruct l as [|e l]; cbn in Heq.
    + exfalso. subst t2. inversion Htail; subst. contradiction.
    + inversion Heq; subst. exists l. split; reflexivity.
Qed.

Section EmptyOutputHandlers.

Variable E : env.

Lemma after_poll_quiet (exit : loop_exit) (hostname search_mac needle : str)
  (parse : str -> option match_record) (describe : match_record -> str)
  (w : world) (r : res (option match_record)) (w' : world) (t : list event) :
  after_poll exit hostname search_mac needle
    (fun mac_output =>
       match parse mac_output with
       | Some rec => print (describe rec) ;; set_event ;; ret (Some rec)
       | None => ret None
       end) w = (r, w', t) ->
  Forall (fun e => ~ empty_answer e) t
  /\ (exit = ReturnedNone -> r = Ret None /\ t = []).
Proof.
  intro Hrun. unfold after_poll in Hrun.
  destruct exit as [|[mac_output|]].
  - inversion Hrun; subst. split; [constructor | auto].
  - split; [|discriminate].
    run_inv; cbn; repeat constructor; auto.
  - inversion Hrun; subst. split; [constructor | discriminate].
Qed.

Ltac handler_empty_answer Hrun Hev :=
  run_inv; cbn in *; split_trace; cbn in Hev; try contradiction;
  match goal with
  | Ha : after_poll _ _ _ _ _ _ = _, Hp : poll _ _ _ _ _ _ _ _ _ _ = _,
    Heq : _ ++ _ :: _ = _ ++ _ |- _ =>
      destruct (after_poll_quiet _ _ _ _ _ _ _ _ _ _ Ha) as (Hquiet & Hnone);
      destruct (answer_not_in_tail _ _ _ _ _ Heq Hev Hquiet) as (post1 & -> & ->);
      destruct (poll_empty_answer E _ _ _ _ _ _ _ _ _ _ _ _ _ _ Hp Hev) as (Hr & ->);
      inversion Hr; subst;
      destruct (Hnone eq_refl) as (-> & ->);
      split; reflexivity
  | Hp : poll _ _ _ _ _ _ _ _ _ _ = _ |- _ =>
      destruct (poll_empty_answer E _ _ _ _ _ _ _ _ _ _ _ _ _ _ Hp Hev) as (Hr & _);
      discriminate Hr
  end.

Lemma huawei_empty_answer (fuel : nat) (conn : connection)
  (hostname ip search_mac : str) (timeout : Q) (w : world)
  (r : res (option match_record)) (w' : world)
  (pre : list event) (ev : event) (post : list event) :
  handle_huawei_device E fuel conn hostname ip search_mac timeout w
  = (r, w', pre ++ ev :: post) ->
  empty_answer ev ->
  r = Ret None /\ post = [no_output_message hostname].
Proof.
  intros Hrun Hev. unfold handle_huawei_device, send_command in Hrun.
  handler_empty_answer Hrun Hev.
Qed.

Lemma alcatel_empty_answer (fuel : nat) (conn : connection)
  (hostname ip search_mac : str) (timeout : Q) (w : world)
  (r : res (option match_record)) (w' : world)
  (pre : list event) (ev : event) (post : list event) :
  handle_alcatel_device E fuel conn hostname ip search_mac timeout w
  = (r, w', pre ++ ev :: post) ->
  empty_answer ev ->
  r = Ret None /\ post = [no_output_message hostname].
Proof.
  intros Hrun Hev. unfold handle_alcatel_device, send_command in Hrun.
  handler_empty_answer Hrun Hev.
Qed.

End EmptyOutputHandlers.

(** C7.  When a polling iteration of either vendor handler reads command
    output that is empty (after stripping), the handler prints the
    no-output message and returns [None] at once: nothing is sent and no
    sleep happens after that answer, and no exception is raised. *)
Theorem empty_output_stops_polling (E : env) (fuel : nat) (conn : connection)
  (hostname ip search_mac : str) (timeout : Q) (w : world)
  (r : res (option match_record)) (w' : world)
  (pre : list event) (ev : event) (post : list event) :
  handle_huawei_device E fuel conn hostname ip search_mac timeout w
  = (r, w', pre ++ ev :: post)
  \/ handle_alcatel_device E fuel conn hostname ip search_mac timeout w
     = (r, w', pre ++ ev :: post) ->
  empty_answer ev ->
  r = Ret None /\ post = [no_output_message hostname].
Proof.
  intros [Hrun | Hrun] Hev.
  - eapply huawei_empty_answer; eassumption.
  - eapply alcatel_empty_answer; eassumption.
Qed.

Lemma empty_output_stops_polling_witness :
  exists w',
    handle_alcatel_device (lab (fun _ _ => Ok (lit "  ")) nobody) 61
      (Connection (lit "10.0.0.1") (lit "alcatel_aos")) (lit "sw1") (lit "10.0.0.1")
      sample_mac 60 scan_started
    = (Ret None, w',
       [EvPrint (lit "[DEBUG] Sending command to Alcatel device sw1: show service fdb-mac | match aa:bb:cc:dd:ee:ff" ++ newline);
        EvSendCommand (lit "environment no more")]
       ++ EvSendCommandTiming (lit "show service fdb-mac | match aa:bb:cc:dd:ee:ff")
            (Ok (lit "  "))
       :: [no_output_message (lit "sw1")]).
Proof.
  assert (Hrun :
    handle_alcatel_device (lab (fun _ _ => Ok (lit "  ")) nobody) 61
      (Connection (lit "10.0.0.1") (lit "alcatel_aos")) (lit "sw1") (lit "10.0.0.1")
      sample_mac 60 scan_started
    = (Ret None, World false 0 3 (Some 0%Q) 6,
       [EvPrint (lit "[DEBUG] Sending command to Alcatel device sw1: show service fdb-mac | match aa:bb:cc:dd:ee:ff" ++ newline);
        EvSendCommand (lit "environment no more")]
       ++ EvSendCommandTiming (lit "show service fdb-mac | match aa:bb:cc:dd:ee:ff")
            (Ok (lit "  "))
       :: [no_output_message (lit "sw1")])) by by_eval.
  destruct (empty_output_stops_polling _ _ _ _ _ _ _ _ _ _ _ _ _ (or_intror Hrun))
    as (_ & _).
  - reflexivity.
  - eexists. exact Hrun.
Defined.

(** ** Where a Match Record comes from *)

Lemma first_row_first (pat : regex) (lines : list str) (m : captures) :
  first_row pat lines = Some m ->
  exists before line after,
    lines = before ++ line :: after
    /\ Forall (fun l => re_search pat l = None) before
    /\ re_search pat line = Some m.
Proof.
  induction lines as [|l lines IH]; cbn [first_row]; [discriminate|].
  destruct (re_search pat l) as [m0|] eqn:Hl.
  - intro H. inversion H; subst. exists [], l, lines. auto.
  - intro H. destruct (IH H) as (before & line & after & -> & Hb & Hm).
    exists (l :: before), line, after. auto.
Qed.

Section Provenance.

Variable E : env.

Lemma poll_left_with (fuel : nat) (conn : connection)
  (hostname cmd needle : str) (start_time timeout : Q)
  (mac_output : option str) (w : world) (last : str) (w' : world)
  (t : list event) :
  poll E fuel conn hostname cmd needle start_time timeout mac_output w
  = (Ret (LeftLoop (Some last)), w', t) ->
  mac_output = Some last
  \/ exists out, In (EvSendCommandTiming cmd (Ok out)) t /\ last = strip out.
Proof.
  revert mac_output w t.
  induction fuel as [|fuel IH]; intros mac_output w t Hrun; cbn [poll] in Hrun.
  - inversion Hrun.
  - run_inv; try (left; congruence).
    all: try (right; eexists; split; [cbn; left; reflexivity | congruence]).
    all: match goal with
         | H : poll _ _ _ _ _ _ _ _ _ _ = _ |- _ =>
             apply IH in H; destruct H as [Hsome | (out & Hin & Hlast)]
         end.
    all: right.
    + inversion Hsome; subst. eexists.
      split; [cbn; left; reflexivity | congruence].
    + exists out. split; [cbn; auto | exact Hlast].
Qed.

End Provenance.

Section Found.

Variable E : env.

Ltac found_answer Hrun :=
  run_inv;
  match goal with
  | Hp : poll _ _ _ _ _ _ _ _ _ _ = (Ret (LeftLoop (Some _)), _, _),
    Hc : negb (contains _ _) = false |- _ =>
      apply poll_left_with in Hp;
      destruct Hp as [Hp | (out & Hin & ->)]; [discriminate Hp|];
      apply negb_false_iff in Hc;
      exists out; conjs;
      [ repeat (rewrite in_app_iff; cbn); tauto | exact Hc | congruence ]
  end.

Lemma huawei_found (fuel : nat) (conn : connection)
  (hostname ip search_mac : str) (timeout : Q) (w : world)
  (rec : match_record) (w' : world) (t : list event) :
  handle_huawei_device E fuel conn hostname ip search_mac timeout w
  = (Ret (Some rec), w', t) ->
  exists out,
    In (EvSendCommandTiming
          (lit "display mac-address | include " ++ huawei_needle search_mac)
          (Ok out)) t
    /\ contains (huawei_needle search_mac) (lower (strip out)) = true
    /\ huawei_parse hostname ip (strip out) = Some rec.
Proof.
  intro Hrun. unfold handle_huawei_device, send_command, after_poll in Hrun.
  found_answer Hrun.
Qed.

Lemma alcatel_found (fuel : nat) (conn : connection)
  (hostname ip search_mac : str) (timeout : Q) (w : world)
  (rec : match_record) (w' : world) (t : list event) :
  handle_alcatel_device E fuel conn hostname ip search_mac timeout w
  = (Ret (Some rec), w', t) ->
  exists out,
    In (EvSendCommandTiming
          (lit "show service fdb-mac | match " ++ alcatel_needle search_mac)
          (Ok out)) t
    /\ contains (alcatel_needle search_mac) (lower (strip out)) = true
    /\ alcatel_parse hostname ip (strip out) = Some rec.
Proof.
  intro Hrun. unfold handle_alcatel_device, send_command, after_poll in Hrun.
  found_answer Hrun.
Qed.

End Found.

(** C4, as the claim has it, fails: the output contains the target, the
    polling loop exits successfully and a Match Record is returned, but
    the record is built from the first line that fits the row pattern,
    which carries another MAC. *)
Lemma record_of_another_mac :
  let run := run_of (handle_alcatel_device (lab (fun _ _ => Ok two_rows) nobody) 61
                       (Connection (lit "10.0.0.1") (lit "alcatel_aos"))
                       (lit "sw1") (lit "10.0.0.1") sample_mac 60) scan_started in
  sample_mac = lit "aa:bb:cc:dd:ee:ff"
  /\ contains (alcatel_needle sample_mac) (lower (strip two_rows)) = true
  /\ fst (fst run)
     = Ret (Some (MatchRecord (lit "11:22:33:44:55:66") (lit "lag-1:100")
                    (lit "10.0.0.1") (lit "sw1") (lit "Service=100")
                    (lit "LastSeen=01/02/24 10:00:00"))).
Proof. cbv zeta. conjs; by_eval. Qed.

(** C4, amended.  When a vendor handler returns a Match Record, some
    answer to its lookup command contained the target text (after
    stripping and lower-casing), and the record is built from the first
    line of that answer on which the vendor's row pattern matches: its
    MAC field is the text of that line's [mac] group in upper-case
    colon-separated form, which need not be the target. *)
Theorem match_record_provenance (E : env) (fuel : nat) (conn : connection)
  (hostname ip search_mac : str) (timeout : Q) (w : world)
  (rec : match_record) (w' : world) (t : list event) :
  (handle_huawei_device E fuel conn hostname ip search_mac timeout w
   = (Ret (Some rec), w', t) ->
   exists out before line after m,
     In (EvSendCommandTiming
           (lit "display mac-address | include " ++ huawei_needle search_mac)
           (Ok out)) t
     /\ contains (huawei_needle search_mac) (lower (strip out)) = true
     /\ splitlines (strip out) = before ++ line :: after
     /\ Forall (fun l => re_search huawei_pattern l = None) before
     /\ re_search huawei_pattern line = Some m
     /\ rec_mac rec = huawei_mac_to_standard (upper (group "mac" m)))
  /\ (handle_alcatel_device E fuel conn hostname ip search_mac timeout w
      = (Ret (Some rec), w', t) ->
      exists out before line after m,
        In (EvSendCommandTiming
              (lit "show service fdb-mac | match " ++ alcatel_needle search_mac)
              (Ok out)) t
        /\ contains (alcatel_needle search_mac) (lower (strip out)) = true
        /\ splitlines (strip out) = before ++ line :: after
        /\ Forall (fun l => re_search alcatel_pattern l = None) before
        /\ re_search alcatel_pattern line = Some m
        /\ rec_mac rec = upper (replace_char "-"%char (lit ":") (group "mac" m))).
Proof.
  split; intro Hrun.
  - destruct (huawei_found E _ _ _ _ _ _ _ _ _ _ Hrun) as (out & Hin & Hc & Hparse).
    unfold huawei_parse in Hparse.
    destruct (first_row huawei_pattern (splitlines (strip out))) as [m|] eqn:Hrow;
      [|discriminate Hparse].
    destruct (first_row_first _ _ _ Hrow) as (before & line & after & Hl & Hb & Hm).
    exists out, before, line, after, m. inversion Hparse; subst. cbn. auto 10.
  - destruct (alcatel_found E _ _ _ _ _ _ _ _ _ _ Hrun) as (out & Hin & Hc & Hparse).
    unfold alcatel_parse in Hparse.
    destruct (first_row alcatel_pattern (splitlines (strip out))) as [m|] eqn:Hrow;
      [|discriminate Hparse].
    destruct (first_row_first _ _ _ Hrow) as (before & line & after & Hl & Hb & Hm).
    exists out, before, line, after, m. inversion Hparse; subst. cbn. auto 10.
Qed.

Lemma match_record_provenance_witness :
  exists out before line after m,
    contains (alcatel_needle sample_mac) (lower (strip out)) = true
    /\ splitlines (strip out) = before ++ line :: after
    /\ re_search alcatel_pattern line = Some m
    /\ lit "11:22:33:44:55:66" = upper (replace_char "-"%char (lit ":") (group "mac" m)).
Proof.
  pose (run := run_of (handle_alcatel_device (lab (fun _ _ => Ok two_rows) nobody) 61
                         (Connection (lit "10.0.0.1") (lit "alcatel_aos"))
                         (lit "sw1") (lit "10.0.0.1") sample_mac 60) scan_started).
  assert (Hrun : run
                 = (Ret (Some (MatchRecord (lit "11:22:33:44:55:66") (lit "lag-1:100")
                                 (lit "10.0.0.1") (lit "sw1") (lit "Service=100")
                                 (lit "LastSeen=01/02/24 10:00:00"))),
                    snd (fst run), snd run)).
  { rewrite (run_eta run) at 1.
    replace (fst (fst run)) with
      (Ret (Some (MatchRecord (lit "11:22:33:44:55:66") (lit "lag-1:100")
                    (lit "10.0.0.1") (lit "sw1") (lit "Service=100")
                    (lit "LastSeen=01/02/24 10:00:00")))) by (symmetry; by_eval).
    reflexivity. }
  destruct (proj2 (match_record_provenance _ _ _ _ _ _ _ _ _ _ _) Hrun)
    as (out & before & line & after & m & _ & Hc & Hl & _ & Hm & Hmac).
  exists out, before, line, after, m. auto.
Defined.

(** ** The stop event and the coordinator *)


(** * Further properties *)

(** ** The matcher accepts only texts of the pattern *)

Lemma greedy_sound (p : ascii -> bool) (s : str) (k : str -> option captures)
  (m : captures) :
  greedy p s k = Some m ->
  exists u s1, s = u ++ s1 /\ forallb p u = true /\ k s1 = Some m.
Proof.
  induction s as [|c s IH]; cbn [greedy].
  - intro H. exists [], []. auto.
  - destruct (p c) eqn:Hc.
    + destruct (greedy p s k) as [m0|] eqn:Hg.
      * intro H. inversion H; subst.
        destruct (IH eq_refl) as (u & s1 & -> & Hu & Hk).
        exists (c :: u), s1. cbn. rewrite Hc, Hu. auto.
      * intro H. exists [], (c :: s). auto.
    + intro H. exists [], (c :: s). auto.
Qed.

Lemma firstn_consumed (u s1 : str) :
  firstn (List.length (u ++ s1) - List.length s1) (u ++ s1) = u.
Proof.
  rewrite length_app, Nat.add_sub.
  rewrite firstn_app, Nat.sub_diag, firstn_all. cbn. apply app_nil_r.
Qed.

Lemma re_match_sound (r : regex) :
  forall (s : str) (caps : captures) (k : str -> captures -> option captures)
         (m : captures),
    re_match r s caps k = Some m ->
    exists u s1 caps1,
      s = u ++ s1 /\ denotes r u caps caps1 /\ k s1 caps1 = Some m.
Proof.
  induction r as [p | r1 IH1 r2 IH2 | n r1 IH1 | p | name r1 IH1];
    intros s caps k m H.
  - cbn in H. destruct s as [|c s]; [discriminate|].
    destruct (p c) eqn:Hc; [|discriminate].
    exists [c], s, caps. cbn. eauto 10.
  - cbn [re_match] in H.
    destruct (IH1 _ _ _ _ H) as (u1 & s1 & mid & -> & H1 & H').
    destruct (IH2 _ _ _ _ H') as (u2 & s2 & caps1 & -> & H2 & Hk).
    exists (u1 ++ u2), s2, caps1. rewrite app_assoc. cbn [denotes]. eauto 10.
  - cbn [re_match] in H. cbn [denotes].
    revert s caps H. induction n as [|n IHn]; intros s caps H.
    + exists [], s, caps. auto.
    + destruct (IH1 _ _ _ _ H) as (u1 & s1 & mid & -> & H1 & H').
      destruct (IHn _ _ H') as (u2 & s2 & caps1 & -> & H2 & Hk).
      exists (u1 ++ u2), s2, caps1. rewrite app_assoc. eauto 10.
  - cbn in H. destruct s as [|c s]; [discriminate|].
    destruct (p c) eqn:Hc; [|discriminate].
    apply greedy_sound in H. destruct H as (u & s1 & -> & Hu & Hk).
    exists (c :: u), s1, caps. cbn. rewrite Hc, Hu. conjs; auto. discriminate.
  - cbn [re_match] in H.
    destruct (IH1 _ _ _ _ H) as (u & s1 & mid & -> & H1 & Hk).
    rewrite firstn_consumed in Hk.
    exists u, s1, ((name, u) :: mid). cbn [denotes]. eauto 10.
Qed.

Lemma re_search_sound (r : regex) (s : str) (m : captures) :
  re_search r s = Some m ->
  exists pre u post, s = pre ++ u ++ post /\ denotes r u [] m.
Proof.
  induction s as [|c s IH]; cbn [re_search].
  - destruct (re_match r [] [] _) as [m0|] eqn:Hm; [|discriminate].
    intro H. inversion H; subst.
    destruct (re_match_sound _ _ _ _ _ Hm) as (u & s1 & caps1 & Hs & Hd & Hk).
    inversion Hk; subst. exists [], u, s1. auto.
  - destruct (re_match r (c :: s) [] _) as [m0|] eqn:Hm.
    + intro H. inversion H; subst.
      destruct (re_match_sound _ _ _ _ _ Hm) as (u & s1 & caps1 & Hs & Hd & Hk).
      inversion Hk; subst. exists [], u, s1. auto.
    + intro H. destruct (IH H) as (pre & u & post & -> & Hd).
      exists (c :: pre), u, post. auto.
Qed.

(** ** What the parsers return *)

Lemma upper_upper_char (c : ascii) : Char.upper (Char.upper c) = Char.upper c.
Proof. each_char c; reflexivity. Qed.

Lemma upper_idem (s : str) : upper (upper s) = upper s.
Proof.
  unfold upper. rewrite map_map. apply map_ext. exact upper_upper_char.
Qed.

Lemma hex_af_upper_hex (c : ascii) :
  Class.hex_af c = true -> Char.is_hex (Char.upper c) = true.
Proof. each_char c; intro H; try reflexivity; discriminate H. Qed.

Lemma hex_af_not_hyphen (c : ascii) :
  Class.hex_af c = true -> Ascii.eqb c "-"%char = false.
Proof. each_char c; intro H; try reflexivity; discriminate H. Qed.

Lemma hex_af_round_hex (c : ascii) :
  Class.hex_af c = true ->
  Char.is_hex (Char.upper (Char.lower (Char.upper c))) = true.
Proof. each_char c; intro H; try reflexivity; discriminate H. Qed.

Lemma hex_af_upper_not_hyphen (c : ascii) :
  Class.hex_af c = true -> Ascii.eqb (Char.upper c) "-"%char = false.
Proof. each_char c; intro H; try reflexivity; discriminate H. Qed.

Lemma sep_to_colon (c : ascii) :
  Class.sep c = true ->
  (if Ascii.eqb c "-"%char then [":"%char] else [c]) = [":"%char].
Proof. each_char c; intro H; try reflexivity; discriminate H. Qed.

Lemma chr_slash (c : ascii) : Class.chr "/" c = true -> c = "/"%char.
Proof. each_char c; intro H; try reflexivity; discriminate H. Qed.

Lemma chr_colon (c : ascii) : Class.chr ":" c = true -> c = ":"%char.
Proof. each_char c; intro H; try reflexivity; discriminate H. Qed.

Lemma chr_hyphen (c : ascii) : Class.chr "-" c = true -> c = "-"%char.
Proof. each_char c; intro H; try reflexivity; discriminate H. Qed.

Lemma sap_token_no_slash (t : str) :
  forallb Class.sap_token t = true -> ~ In "/"%char t.
Proof.
  induction t as [|c t IH]; cbn [forallb In]; [tauto|].
  intro H. apply andb_prop in H. destruct H as [Hc Ht].
  intros [Heq | Hin]; [subst c; vm_compute in Hc; discriminate Hc | now apply IH].
Qed.

(** Takes a [denotes] hypothesis of a concrete pattern apart. *)
Ltac open_denotes H :=
  cbn [denotes cat_all] in H;
  repeat match goal with
    | H : exists _, _ |- _ => destruct H
    | H : _ /\ _ |- _ => destruct H
    end;
  subst.

Lemma digit_pair_intro (a b : ascii) :
  Char.is_digit a = true -> Char.is_digit b = true -> digit_pair [a; b].
Proof. intros Ha Hb. now exists a, b. Qed.

Lemma alcatel_row_shape (u : str) (m : captures) :
  denotes alcatel_pattern u [] m ->
  is_standard_mac (upper (replace_char "-"%char (lit ":") (group "mac" m))) = true
  /\ (group "interface" m <> []
      /\ forallb Class.sap_token (group "interface" m) = true)
  /\ (group "service" m <> []
      /\ forallb Char.is_digit (group "service" m) = true)
  /\ exists d1 d2 d3 gap t1 t2 t3,
      group "timestamp" m
      = d1 ++ lit "/" ++ d2 ++ lit "/" ++ d3 ++ gap
           ++ t1 ++ lit ":" ++ t2 ++ lit ":" ++ t3
      /\ digit_pair d1 /\ digit_pair d2 /\ digit_pair d3
      /\ (gap <> [] /\ forallb Char.is_space gap = true)
      /\ digit_pair t1 /\ digit_pair t2 /\ digit_pair t3.
Proof.
  intro H. unfold alcatel_pattern in H. cbv zeta in H. open_denotes H.
  repeat match goal with
         | H : Class.chr "/" _ = true |- _ => apply chr_slash in H; subst
         | H : Class.chr ":" _ = true |- _ => apply chr_colon in H; subst
         end.
  cbn [group String.eqb Ascii.eqb Bool.eqb].
  split; [|split; [|split]].
  - cbn [app]. cbv [replace_char flat_map lit list_ascii_of_string]. cbn [app].
    repeat match goal with
           | H : Class.hex_af ?c = true |- _ =>
               rewrite (hex_af_not_hyphen c H);
               pose proof (hex_af_upper_hex c H); clear H
           | H : Class.sep ?c = true |- _ =>
               rewrite (sep_to_colon c H); clear H
           end.
    cbn [app upper map]. unfold is_standard_mac. cbn [hex_groups].
    repeat match goal with
           | H : Char.is_hex (Char.upper _) = true |- _ => rewrite H; clear H
           end.
    reflexivity.
  - split; assumption.
  - split; assumption.
  - eexists [_; _], [_; _], [_; _], _, [_; _], [_; _], [_; _].
    split; [reflexivity|].
    conjs; try (apply digit_pair_intro; assumption); assumption.
Qed.

Lemma huawei_row_shape (u : str) (m : captures) :
  denotes huawei_pattern u [] m ->
  is_standard_mac (huawei_mac_to_standard (upper (group "mac" m))) = true
  /\ token (group "vlan" m) /\ token (group "interface" m)
  /\ token (group "type" m).
Proof.
  intro H. unfold huawei_pattern in H. open_denotes H.
  repeat match goal with
         | H : Class.chr "-" _ = true |- _ => apply chr_hyphen in H; subst
         end.
  cbn [group String.eqb Ascii.eqb Bool.eqb].
  split; [|unfold token; auto].
  cbn [app upper map]. unfold huawei_mac_to_standard. cbv zeta.
  cbv [replace_char flat_map]. cbn [app].
  change (Char.upper "-") with "-"%char. cbn [Ascii.eqb Bool.eqb app].
  repeat match goal with
         | H : Class.hex_af ?c = true |- _ =>
             rewrite (hex_af_upper_not_hyphen c H);
             pose proof (hex_af_round_hex c H); clear H
         end.
  cbn [app lower upper map slice firstn skipn Nat.sub Nat.add join].
  cbv [lit list_ascii_of_string]. cbn [app map].
  unfold is_standard_mac. cbn [hex_groups].
  repeat match goal with
         | H : Char.is_hex _ = true |- _ => rewrite H; clear H
         end.
  reflexivity.
Qed.

(** ** The matcher finds the first-choice match *)

Lemma greedy_first (p : ascii -> bool) (u rest : str)
  (k : str -> option captures) (m : captures) :
  forallb p u = true -> stops p rest -> k rest = Some m ->
  greedy p (u ++ rest) k = Some m.
Proof.
  intros Hu Hstop Hk. induction u as [|c u IH]; cbn [app].
  - destruct rest as [|c rest]; cbn [greedy]; [exact Hk|].
    cbn in Hstop. rewrite Hstop. exact Hk.
  - cbn [forallb] in Hu. apply andb_prop in Hu. destruct Hu as [Hc Hu].
    cbn [greedy]. rewrite Hc, (IH Hu). reflexivity.
Qed.

Lemma re_match_first (r : regex) :
  forall (u rest : str) (caps caps1 : captures)
         (k : str -> captures -> option captures) (m : captures),
    first_choice r u rest caps caps1 ->
    k rest caps1 = Some m ->
    re_match r (u ++ rest) caps k = Some m.
Proof.
  induction r as [p | r1 IH1 r2 IH2 | n r1 IH1 | p | name r1 IH1];
    intros u rest caps caps1 k m H Hk.
  - destruct H as (c & -> & Hc & ->). cbn. rewrite Hc. exact Hk.
  - cbn [first_choice] in H. destruct H as (u1 & u2 & mid & -> & H1 & H2).
    cbn [re_match]. rewrite <- app_assoc.
    eapply IH1; [exact H1|]. cbn beta. eapply IH2; eassumption.
  - cbn [first_choice] in H. cbn [re_match].
    revert u caps H. induction n as [|n IHn]; intros u caps H.
    + destruct H as (-> & ->). exact Hk.
    + destruct H as (u1 & u2 & mid & -> & H1 & H2).
      rewrite <- app_assoc. eapply IH1; [exact H1|]. cbn beta.
      apply IHn. exact H2.
  - destruct H as (Hne & Hu & Hstop & ->).
    destruct u as [|c u]; [contradiction|].
    cbn [forallb] in Hu. apply andb_prop in Hu. destruct Hu as [Hc Hu].
    cbn [app re_match]. rewrite Hc.
    apply greedy_first; assumption.
  - cbn [first_choice] in H. destruct H as (mid & H1 & ->).
    cbn [re_match]. eapply IH1; [exact H1|]. cbn beta.
    rewrite firstn_consumed. exact Hk.
Qed.

Lemma re_search_first (r : regex) (u rest : str) (caps1 : captures) :
  first_choice r u rest [] caps1 -> re_search r (u ++ rest) = Some caps1.
Proof.
  intro H.
  assert (Hm : re_match r (u ++ rest) [] (fun _ caps => Some caps) = Some caps1)
    by (eapply re_match_first; [exact H | reflexivity]).
  destruct (u ++ rest); cbn [re_search]; rewrite Hm; reflexivity.
Qed.

(** ** Well-formed rows are parsed *)

Lemma all_of_spec (q : ascii -> bool) (s : str) :
  all_of q s = true -> s <> [] /\ forallb q s = true.
Proof. destruct s; [discriminate|]. intro H. split; [discriminate | exact H]. Qed.

Lemma forallb_weaken (p q : ascii -> bool) (s : str) :
  (forall c, q c = true -> p c = true) ->
  forallb q s = true -> forallb p s = true.
Proof.
  intros Hpq. induction s as [|c s IH]; cbn [forallb]; [reflexivity|].
  intro H. apply andb_prop in H. destruct H as [Hc Hs].
  rewrite (Hpq c Hc), (IH Hs). reflexivity.
Qed.

Lemma stops_after (p q : ascii -> bool) (s rest : str) :
  (forall c, q c = true -> p c = false) ->
  all_of q s = true -> stops p (s ++ rest).
Proof.
  intros Hqp H. destruct s as [|c s]; [discriminate|].
  cbn in H. apply andb_prop in H. destruct H as [Hc _].
  cbn. now apply Hqp.
Qed.

Lemma blank_is_space (c : ascii) : is_blank c = true -> Char.is_space c = true.
Proof. each_char c; intro H; try reflexivity; discriminate H. Qed.

Lemma blank_not_token (c : ascii) : is_blank c = true -> Class.non_space c = false.
Proof. each_char c; intro H; try reflexivity; discriminate H. Qed.

Lemma blank_not_digit (c : ascii) : is_blank c = true -> Char.is_digit c = false.
Proof. each_char c; intro H; try reflexivity; discriminate H. Qed.

Lemma blank_not_sap (c : ascii) : is_blank c = true -> Class.sap_token c = false.
Proof. each_char c; intro H; try reflexivity; discriminate H. Qed.

Lemma token_not_space (c : ascii) : Class.non_space c = true -> Char.is_space c = false.
Proof. each_char c; intro H; try reflexivity; discriminate H. Qed.

Lemma digit_not_space (c : ascii) : Char.is_digit c = true -> Char.is_space c = false.
Proof. each_char c; intro H; try reflexivity; discriminate H. Qed.

Lemma hex_af_not_space (c : ascii) : Class.hex_af c = true -> Char.is_space c = false.
Proof. each_char c; intro H; try reflexivity; discriminate H. Qed.

Lemma age_flag_not_space (c : ascii) : Class.age_flag c = true -> Char.is_space c = false.
Proof. each_char c; intro H; try reflexivity; discriminate H. Qed.

Lemma space_breaks (c : ascii) : Char.is_space c = false -> breaks_line c = false.
Proof. each_char c; intro H; try reflexivity; discriminate H. Qed.

Lemma blank_no_break (c : ascii) : is_blank c = true -> breaks_line c = false.
Proof. each_char c; intro H; try reflexivity; discriminate H. Qed.

Lemma sap_no_break (c : ascii) : Class.sap_token c = true -> breaks_line c = false.
Proof. each_char c; intro H; try reflexivity; discriminate H. Qed.

Lemma sep_no_break (c : ascii) : Class.sep c = true -> breaks_line c = false.
Proof. each_char c; intro H; try reflexivity; discriminate H. Qed.

Lemma one_line_app (a b : str) : one_line (a ++ b) = one_line a && one_line b.
Proof. apply forallb_app. Qed.

Lemma one_line_of (q : ascii -> bool) (s : str) :
  (forall c, q c = true -> breaks_line c = false) ->
  forallb q s = true -> one_line s = true.
Proof.
  intros Hq. unfold one_line. apply forallb_weaken.
  intros c Hc. now rewrite (Hq c Hc).
Qed.

Lemma splitlines_from_one_line (s cur : str) :
  one_line s = true ->
  splitlines_from cur s
  = match rev cur ++ s with
    | [] => []
    | line => [line]
    end.
Proof.
  revert cur. induction s as [|c s IH]; intros cur Hs.
  - cbn [splitlines_from]. rewrite app_nil_r.
    destruct cur as [|a cur]; [reflexivity|].
    cbn [rev]. destruct (rev cur); reflexivity.
  - cbn [one_line forallb] in Hs. apply andb_prop in Hs.
    destruct Hs as [Hc Hs]. apply negb_true_iff in Hc.
    unfold breaks_line in Hc. apply orb_false_iff in Hc. destruct Hc as [Hcr Hlb].
    cbn [splitlines_from]. rewrite Hcr, Hlb.
    rewrite (IH (c :: cur) Hs). cbn [rev]. rewrite <- app_assoc. reflexivity.
Qed.

Lemma splitlines_one_line (s : str) :
  one_line s = true -> s <> [] -> splitlines s = [s].
Proof.
  intros Hs Hne. unfold splitlines. rewrite (splitlines_from_one_line s [] Hs).
  cbn [rev app]. destruct s; [contradiction | reflexivity].
Qed.

Lemma first_row_one_line (pat : regex) (s : str) (m : captures) :
  one_line s = true -> s <> [] -> re_search pat s = Some m ->
  first_row pat (splitlines s) = Some m.
Proof.
  intros Hs Hne Hm. rewrite (splitlines_one_line s Hs Hne).
  cbn [first_row]. now rewrite Hm.
Qed.

(** *** Fixed-width fields *)

Lemma quad_first (q rest : str) (caps : captures) :
  is_quad q = true -> first_choice (Rep 4 (Cls Class.hex_af)) q rest caps caps.
Proof.
  destruct q as [|a [|b [|c [|d [|e q]]]]]; try discriminate.
  cbn [is_quad]. intro H.
  apply andb_prop in H. destruct H as [H Hd].
  apply andb_prop in H. destruct H as [H Hc].
  apply andb_prop in H. destruct H as [Ha Hb].
  cbn [first_choice].
  exists [a], [b; c; d], caps. conjs; [reflexivity | now exists a |].
  exists [b], [c; d], caps. conjs; [reflexivity | now exists b |].
  exists [c], [d], caps. conjs; [reflexivity | now exists c |].
  exists [d], [], caps. conjs; [reflexivity | now exists d | reflexivity | reflexivity].
Qed.

Lemma pair_first (p : ascii -> bool) (t rest : str) (caps : captures) :
  (match t with [a; b] => p a && p b | _ => false end) = true ->
  first_choice (Rep 2 (Cls p)) t rest caps caps.
Proof.
  destruct t as [|a [|b [|c t]]]; try discriminate.
  intro H. apply andb_prop in H. destruct H as [Ha Hb].
  cbn [first_choice].
  exists [a], [b], caps. conjs; [reflexivity | now exists a |].
  exists [b], [], caps. conjs; [reflexivity | now exists b | reflexivity | reflexivity].
Qed.

Lemma single_first (p : ascii -> bool) (t rest : str) (caps : captures) :
  (match t with [c] => p c | _ => false end) = true ->
  first_choice (Cls p) t rest caps caps.
Proof.
  destruct t as [|c [|d t]]; try discriminate.
  intro H. cbn [first_choice]. now exists c.
Qed.

Lemma literal_first (x : ascii) (rest : str) (caps : captures) :
  first_choice (Cls (Class.chr x)) [x] rest caps caps.
Proof.
  cbn [first_choice]. exists x. conjs; try reflexivity.
  unfold Class.chr. apply Ascii.eqb_refl.
Qed.

Lemma plus_first (p q : ascii -> bool) (u rest : str) (caps : captures) :
  (forall c, q c = true -> p c = true) ->
  all_of q u = true -> stops p rest ->
  first_choice (Plus p) u rest caps caps.
Proof.
  intros Hqp Hu Hstop. apply all_of_spec in Hu. destruct Hu as [Hne Hu].
  cbn [first_choice]. conjs; auto. eapply forallb_weaken; eassumption.
Qed.

Lemma cat_first (r1 r2 : regex) (u1 u2 rest : str) (caps mid caps' : captures) :
  first_choice r1 u1 (u2 ++ rest) caps mid ->
  first_choice r2 u2 rest mid caps' ->
  first_choice (Cat r1 r2) (u1 ++ u2) rest caps caps'.
Proof. intros H1 H2. cbn [first_choice]. exists u1, u2, mid. auto. Qed.

Lemma grp_first (name : string) (r : regex) (u rest : str) (caps mid : captures) :
  first_choice r u rest caps mid ->
  first_choice (Grp name r) u rest caps ((name, u) :: mid).
Proof. intro H. cbn [first_choice]. exists mid. auto. Qed.

Lemma tail_stops_token (tail : str) :
  is_tail tail = true -> stops Class.non_space tail.
Proof.
  destruct tail as [|c tail]; [intros _; exact I|].
  cbn [is_tail stops]. intro H. apply andb_prop in H. destruct H as [Hc _].
  now apply blank_not_token.
Qed.

Lemma tail_one_line (tail : str) : is_tail tail = true -> one_line tail = true.
Proof.
  destruct tail as [|c tail]; [reflexivity|].
  cbn [is_tail]. intro H. apply andb_prop in H. now destruct H.
Qed.

Lemma quad_one_line (q : str) : is_quad q = true -> one_line q = true.
Proof.
  destruct q as [|a [|b [|c [|d [|e q]]]]]; try discriminate.
  cbn [is_quad]. intro H.
  apply andb_prop in H. destruct H as [H Hd].
  apply andb_prop in H. destruct H as [H Hc].
  apply andb_prop in H. destruct H as [Ha Hb].
  apply (one_line_of Class.hex_af).
  - intros x Hx. apply space_breaks. now apply hex_af_not_space.
  - cbn [forallb]. now rewrite Ha, Hb, Hc, Hd.
Qed.

Lemma all_of_one_line (q : ascii -> bool) (s : str) :
  (forall c, q c = true -> breaks_line c = false) ->
  all_of q s = true -> one_line s = true.
Proof.
  intros Hq H. apply all_of_spec in H. destruct H as [_ H].
  now apply (one_line_of q).
Qed.

Lemma token_no_break (c : ascii) : Class.non_space c = true -> breaks_line c = false.
Proof. intro H. apply space_breaks. now apply token_not_space. Qed.

Lemma digit_no_break (c : ascii) : Char.is_digit c = true -> breaks_line c = false.
Proof. intro H. apply space_breaks. now apply digit_not_space. Qed.

Lemma hex_af_no_break (c : ascii) : Class.hex_af c = true -> breaks_line c = false.
Proof. intro H. apply space_breaks. now apply hex_af_not_space. Qed.

Ltac stops_by L :=
  rewrite <- ?app_assoc; eapply stops_after; [exact L | eassumption].

Ltac bools H :=
  repeat match type of H with
         | _ && _ = true =>
             let H' := fresh "Hf" in
             apply andb_prop in H; destruct H as [H H']
         end.

Lemma huawei_row_first
  (q1 q2 q3 gap1 vlan gap2 interface gap3 mac_type tail : str) :
  huawei_fields_ok q1 q2 q3 gap1 vlan gap2 interface gap3 mac_type tail = true ->
  first_choice huawei_pattern
    ((q1 ++ lit "-" ++ q2 ++ lit "-" ++ q3) ++ gap1 ++ vlan ++ gap2 ++ interface
       ++ gap3 ++ mac_type)
    tail []
    [("type"%string, mac_type); ("interface"%string, interface);
     ("vlan"%string, vlan);
     ("mac"%string, q1 ++ lit "-" ++ q2 ++ lit "-" ++ q3)].
Proof.
  intro H. unfold huawei_fields_ok in H. bools H.
  unfold huawei_pattern. cbn [cat_all].
  change (lit "-") with ["-"%char].
  eapply cat_first.
  { eapply grp_first.
    eapply cat_first; [now apply quad_first|].
    eapply cat_first; [apply literal_first|].
    eapply cat_first; [now apply quad_first|].
    eapply cat_first; [apply literal_first|].
    now apply quad_first. }
  eapply cat_first.
  { apply (plus_first _ is_blank); [exact blank_is_space | assumption |].
    stops_by token_not_space. }
  eapply cat_first.
  { eapply grp_first. apply (plus_first _ Class.non_space); [auto | assumption |].
    stops_by blank_not_token. }
  eapply cat_first.
  { apply (plus_first _ is_blank); [exact blank_is_space | assumption |].
    stops_by token_not_space. }
  eapply cat_first.
  { eapply grp_first. apply (plus_first _ Class.non_space); [auto | assumption |].
    stops_by blank_not_token. }
  eapply cat_first.
  { apply (plus_first _ is_blank); [exact blank_is_space | assumption |].
    stops_by token_not_space. }
  eapply grp_first. apply (plus_first _ Class.non_space); [auto | assumption |].
  now apply tail_stops_token.
Qed.

Lemma lower_upper_char (c : ascii) : Char.lower (Char.upper c) = Char.lower c.
Proof. each_char c; reflexivity. Qed.

Lemma upper_hyphen_char (c : ascii) :
  Ascii.eqb (Char.upper c) "-"%char = Ascii.eqb c "-"%char.
Proof. each_char c; reflexivity. Qed.

Lemma huawei_mac_to_standard_upper (mac : str) :
  huawei_mac_to_standard (upper mac) = huawei_mac_to_standard mac.
Proof.
  unfold huawei_mac_to_standard. cbv zeta. f_equal. f_equal.
  assert (Hclean : lower (replace_char "-"%char [] (upper mac))
                   = lower (replace_char "-"%char [] mac)).
  { unfold lower, upper, replace_char.
    induction mac as [|c mac IH]; cbn [map flat_map]; [reflexivity|].
    rewrite !map_app, IH, upper_hyphen_char.
    destruct (Ascii.eqb c "-"%char); cbn [map app]; [reflexivity|].
    now rewrite lower_upper_char. }
  now rewrite Hclean.
Qed.

(** The Huawei parser on a well-formed row. *)
Lemma huawei_row_parse
  (hostname ip q1 q2 q3 gap1 vlan gap2 interface gap3 mac_type tail : str) :
  huawei_fields_ok q1 q2 q3 gap1 vlan gap2 interface gap3 mac_type tail = true ->
  huawei_parse hostname ip
    (huawei_row q1 q2 q3 gap1 vlan gap2 interface gap3 mac_type tail)
  = Some (MatchRecord
            (huawei_mac_to_standard (q1 ++ lit "-" ++ q2 ++ lit "-" ++ q3))
            interface ip hostname
            (lit "VLAN/VSI=" ++ vlan) (lit "Type=" ++ mac_type)).
Proof.
  intro H. pose proof (huawei_row_first _ _ _ _ _ _ _ _ _ _ H) as Hfirst.
  apply re_search_first in Hfirst.
  assert (Hrow : huawei_row q1 q2 q3 gap1 vlan gap2 interface gap3 mac_type tail
                 = ((q1 ++ lit "-" ++ q2 ++ lit "-" ++ q3) ++ gap1 ++ vlan ++ gap2
                      ++ interface ++ gap3 ++ mac_type) ++ tail).
  { unfold huawei_row. now rewrite <- !app_assoc. }
  rewrite <- Hrow in Hfirst.
  unfold huawei_fields_ok in H. bools H.
  unfold huawei_parse.
  rewrite (first_row_one_line huawei_pattern _ _) with (3 := Hfirst).
  - cbn [group String.eqb Ascii.eqb Bool.eqb rec_mac].
    now rewrite huawei_mac_to_standard_upper.
  - unfold huawei_row. rewrite !one_line_app.
    rewrite (quad_one_line q1), (quad_one_line q2), (quad_one_line q3) by assumption.
    rewrite (all_of_one_line is_blank gap1 blank_no_break) by assumption.
    rewrite (all_of_one_line is_blank gap2 blank_no_break) by assumption.
    rewrite (all_of_one_line is_blank gap3 blank_no_break) by assumption.
    rewrite (all_of_one_line Class.non_space vlan token_no_break) by assumption.
    rewrite (all_of_one_line Class.non_space interface token_no_break) by assumption.
    rewrite (all_of_one_line Class.non_space mac_type token_no_break) by assumption.
    rewrite (tail_one_line tail) by assumption.
    reflexivity.
  - unfold huawei_row. destruct q1; [discriminate|]. discriminate.
Qed.

(** X1.  Every well-formed Huawei row is parsed: for a line made of a MAC
    in three hyphen-separated groups of four hexadecimal digits, a
    VLAN/VSI token, an interface token and a type token, separated by
    spaces or tabs and followed by nothing or by more columns, the
    Huawei parser returns the record of these fields, with the MAC in
    standard form. *)
Theorem huawei_row_parsed
  (hostname ip q1 q2 q3 gap1 vlan gap2 interface gap3 mac_type tail : str) :
  huawei_fields_ok q1 q2 q3 gap1 vlan gap2 interface gap3 mac_type tail = true ->
  huawei_parse hostname ip
    (huawei_row q1 q2 q3 gap1 vlan gap2 interface gap3 mac_type tail)
  = Some (MatchRecord
            (huawei_mac_to_standard (q1 ++ lit "-" ++ q2 ++ lit "-" ++ q3))
            interface ip hostname
            (lit "VLAN/VSI=" ++ vlan) (lit "Type=" ++ mac_type)).
Proof. apply huawei_row_parse. Qed.

Lemma huawei_row_parsed_witness :
  huawei_parse (lit "sw1") (lit "10.0.0.1")
    (lit "0abc-1234-5678   10   GE0/0/1   dynamic")
  = Some (MatchRecord (lit "0A:BC:12:34:56:78") (lit "GE0/0/1")
            (lit "10.0.0.1") (lit "sw1") (lit "VLAN/VSI=10") (lit "Type=dynamic")).
Proof.
  exact (huawei_row_parsed (lit "sw1") (lit "10.0.0.1")
           (lit "0abc") (lit "1234") (lit "5678") (lit "   ") (lit "10")
           (lit "   ") (lit "GE0/0/1") (lit "   ") (lit "dynamic") [] eq_refl).
Defined.

Lemma rep_zero_first (r : regex) (rest : str) (caps : captures) :
  first_choice (Rep 0 r) [] rest caps caps.
Proof. cbn [first_choice]. auto. Qed.

Lemma rep_succ_first (n : nat) (r : regex) (u1 u2 rest : str)
  (caps mid caps' : captures) :
  first_choice r u1 (u2 ++ rest) caps mid ->
  first_choice (Rep n r) u2 rest mid caps' ->
  first_choice (Rep (S n) r) (u1 ++ u2) rest caps caps'.
Proof. intros H1 H2. cbn [first_choice] in *. exists u1, u2, mid. auto. Qed.

Lemma octet_all_of (o : str) : is_octet o = true -> all_of Class.hex_af o = true.
Proof.
  destruct o as [|a [|b [|c o]]]; try discriminate.
  cbn [is_octet all_of forallb]. intro H. apply andb_prop in H.
  destruct H as [-> ->]. reflexivity.
Qed.

Lemma two_digits_all_of (t : str) :
  is_two_digits t = true -> all_of Char.is_digit t = true.
Proof.
  destruct t as [|a [|b [|c t]]]; try discriminate.
  cbn [is_two_digits all_of forallb]. intro H. apply andb_prop in H.
  destruct H as [-> ->]. reflexivity.
Qed.

Lemma separator_all_of (s : str) :
  is_separator s = true -> all_of Class.sep s = true.
Proof.
  destruct s as [|a [|b s]]; try discriminate.
  cbn [is_separator all_of forallb]. intros ->. reflexivity.
Qed.

Lemma age_flag_all_of (s : str) :
  is_age_flag s = true -> all_of Class.age_flag s = true.
Proof.
  destruct s as [|a [|b s]]; try discriminate.
  cbn [is_age_flag all_of forallb]. intros ->. reflexivity.
Qed.

Lemma age_flag_no_break (c : ascii) :
  Class.age_flag c = true -> breaks_line c = false.
Proof. intro H. apply space_breaks. now apply age_flag_not_space. Qed.

Lemma alcatel_mac_first (o1 s1 o2 s2 o3 s3 o4 s4 o5 s5 o6 rest : str)
  (caps : captures) :
  alcatel_mac_ok o1 s1 o2 s2 o3 s3 o4 s4 o5 s5 o6 = true ->
  first_choice
    (Grp "mac" (Cat (Rep 5 (Grp "3" (Cat (Rep 2 (Cls Class.hex_af)) (Cls Class.sep))))
                    (Rep 2 (Cls Class.hex_af))))
    (((o1 ++ s1) ++ (o2 ++ s2) ++ (o3 ++ s3) ++ (o4 ++ s4) ++ (o5 ++ s5) ++ []) ++ o6)
    rest caps
    (("mac"%string,
      ((o1 ++ s1) ++ (o2 ++ s2) ++ (o3 ++ s3) ++ (o4 ++ s4) ++ (o5 ++ s5) ++ []) ++ o6)
       :: ("3"%string, o5 ++ s5) :: ("3"%string, o4 ++ s4) :: ("3"%string, o3 ++ s3)
       :: ("3"%string, o2 ++ s2) :: ("3"%string, o1 ++ s1) :: caps).
Proof.
  intro H. unfold alcatel_mac_ok in H. bools H.
  assert (Hgroup : forall o s rest' caps',
             is_octet o = true -> is_separator s = true ->
             first_choice (Grp "3" (Cat (Rep 2 (Cls Class.hex_af)) (Cls Class.sep)))
               (o ++ s) rest' caps' (("3"%string, o ++ s) :: caps')).
  { intros o s rest' caps' Ho Hs. apply grp_first.
    eapply cat_first; [now apply pair_first | now apply single_first]. }
  apply grp_first. eapply cat_first.
  - eapply rep_succ_first; [now apply Hgroup|].
    eapply rep_succ_first; [now apply Hgroup|].
    eapply rep_succ_first; [now apply Hgroup|].
    eapply rep_succ_first; [now apply Hgroup|].
    eapply rep_succ_first; [now apply Hgroup|].
    apply rep_zero_first.
  - now apply pair_first.
Qed.

Lemma alcatel_mac_nested (o1 s1 o2 s2 o3 s3 o4 s4 o5 s5 o6 : str) :
  ((o1 ++ s1) ++ (o2 ++ s2) ++ (o3 ++ s3) ++ (o4 ++ s4) ++ (o5 ++ s5) ++ []) ++ o6
  = alcatel_mac_text o1 s1 o2 s2 o3 s3 o4 s4 o5 s5 o6.
Proof. unfold alcatel_mac_text. rewrite app_nil_r, <- !app_assoc. reflexivity. Qed.

Lemma alcatel_timestamp_first (d1 d2 d3 gap5 t1 t2 t3 rest : str)
  (caps : captures) :
  alcatel_timestamp_ok d1 d2 d3 gap5 t1 t2 t3 = true ->
  first_choice
    (Grp "timestamp"
       (cat_all [Rep 2 (Cls Char.is_digit); Cls (Class.chr "/");
                 Rep 2 (Cls Char.is_digit); Cls (Class.chr "/");
                 Rep 2 (Cls Char.is_digit); Plus Char.is_space;
                 Rep 2 (Cls Char.is_digit); Cls (Class.chr ":");
                 Rep 2 (Cls Char.is_digit); Cls (Class.chr ":")]
                (Rep 2 (Cls Char.is_digit))))
    (alcatel_timestamp d1 d2 d3 gap5 t1 t2 t3) rest caps
    (("timestamp"%string, alcatel_timestamp d1 d2 d3 gap5 t1 t2 t3) :: caps).
Proof.
  intro H. unfold alcatel_timestamp_ok in H. bools H.
  pose proof (two_digits_all_of t1 Hf1) as Ht1.
  unfold alcatel_timestamp. cbn [cat_all].
  change (lit "/") with ["/"%char]. change (lit ":") with [":"%char].
  apply grp_first.
  eapply cat_first; [now apply pair_first|].
  eapply cat_first; [apply literal_first|].
  eapply cat_first; [now apply pair_first|].
  eapply cat_first; [apply literal_first|].
  eapply cat_first; [now apply pair_first|].
  eapply cat_first.
  { apply (plus_first _ is_blank); [exact blank_is_space | assumption |].
    stops_by digit_not_space. }
  eapply cat_first; [now apply pair_first|].
  eapply cat_first; [apply literal_first|].
  eapply cat_first; [now apply pair_first|].
  eapply cat_first; [apply literal_first|].
  now apply pair_first.
Qed.

Lemma alcatel_row_first
  (service gap1 o1 s1 o2 s2 o3 s3 o4 s4 o5 s5 o6 gap2 interface gap3 flag age
     gap4 d1 d2 d3 gap5 t1 t2 t3 tail : str) :
  alcatel_fields_ok service gap1 gap2 interface gap3 flag age gap4 tail = true ->
  alcatel_mac_ok o1 s1 o2 s2 o3 s3 o4 s4 o5 s5 o6 = true ->
  alcatel_timestamp_ok d1 d2 d3 gap5 t1 t2 t3 = true ->
  exists m,
    re_search alcatel_pattern
      (alcatel_row service gap1
         (alcatel_mac_text o1 s1 o2 s2 o3 s3 o4 s4 o5 s5 o6)
         gap2 interface gap3 flag age gap4
         (alcatel_timestamp d1 d2 d3 gap5 t1 t2 t3) tail)
    = Some m
    /\ group "service" m = service
    /\ group "mac" m = alcatel_mac_text o1 s1 o2 s2 o3 s3 o4 s4 o5 s5 o6
    /\ group "interface" m = interface
    /\ group "timestamp" m = alcatel_timestamp d1 d2 d3 gap5 t1 t2 t3.
Proof.
  intros H Hmac Hts.
  pose proof Hmac as Hmac'. pose proof Hts as Hts'.
  unfold alcatel_fields_ok in H. bools H.
  unfold alcatel_mac_ok in Hmac'. bools Hmac'.
  unfold alcatel_timestamp_ok in Hts'. bools Hts'.
  pose proof (octet_all_of o1 Hmac') as Ho1.
  pose proof (age_flag_all_of flag Hf2) as Hflag.
  pose proof (two_digits_all_of d1 Hts') as Hd1.
  set (ts := alcatel_timestamp d1 d2 d3 gap5 t1 t2 t3).
  eexists. split.
  - assert (Hrow :
      alcatel_row service gap1
        (alcatel_mac_text o1 s1 o2 s2 o3 s3 o4 s4 o5 s5 o6)
        gap2 interface gap3 flag age gap4 ts tail
      = (service ++ gap1
           ++ (((o1 ++ s1) ++ (o2 ++ s2) ++ (o3 ++ s3) ++ (o4 ++ s4)
                  ++ (o5 ++ s5) ++ []) ++ o6)
           ++ gap2 ++ ["s"%char] ++ ["a"%char] ++ ["p"%char] ++ [":"%char]
           ++ interface ++ gap3 ++ (flag ++ ["/"%char] ++ age) ++ gap4 ++ ts)
        ++ tail).
    { rewrite alcatel_mac_nested. unfold alcatel_row.
      change (lit "sap:") with (["s"%char] ++ ["a"%char] ++ ["p"%char] ++ [":"%char]).
      change (lit "/") with ["/"%char].
      now rewrite <- !app_assoc. }
    rewrite Hrow. apply re_search_first.
    unfold alcatel_pattern. cbv zeta. cbn [cat_all].
    eapply cat_first.
    { apply grp_first. apply (plus_first _ Char.is_digit); [auto | assumption |].
      stops_by blank_not_digit. }
    eapply cat_first.
    { apply (plus_first _ is_blank); [exact blank_is_space | assumption |].
      stops_by hex_af_not_space. }
    eapply cat_first; [now apply alcatel_mac_first|].
    eapply cat_first.
    { apply (plus_first _ is_blank); [exact blank_is_space | assumption |].
      reflexivity. }
    eapply cat_first; [apply literal_first|].
    eapply cat_first; [apply literal_first|].
    eapply cat_first; [apply literal_first|].
    eapply cat_first; [apply literal_first|].
    eapply cat_first.
    { apply grp_first. apply (plus_first _ Class.sap_token); [auto | assumption |].
      stops_by blank_not_sap. }
    eapply cat_first.
    { apply (plus_first _ is_blank); [exact blank_is_space | assumption |].
      stops_by age_flag_not_space. }
    eapply cat_first.
    { apply grp_first.
      eapply cat_first; [now apply single_first|].
      eapply cat_first; [apply literal_first|].
      apply (plus_first _ Char.is_digit); [auto | assumption |].
      stops_by blank_not_digit. }
    eapply cat_first.
    { apply (plus_first _ is_blank); [exact blank_is_space | assumption |].
      unfold ts, alcatel_timestamp. stops_by digit_not_space. }
    now apply alcatel_timestamp_first.
  - cbn [group String.eqb Ascii.eqb Bool.eqb].
    rewrite alcatel_mac_nested. auto.
Qed.

(** The Alcatel parser on a well-formed row. *)
Lemma alcatel_row_parse
  (hostname ip service gap1 o1 s1 o2 s2 o3 s3 o4 s4 o5 s5 o6 gap2 interface gap3
     flag age gap4 d1 d2 d3 gap5 t1 t2 t3 tail : str) :
  alcatel_fields_ok service gap1 gap2 interface gap3 flag age gap4 tail = true ->
  alcatel_mac_ok o1 s1 o2 s2 o3 s3 o4 s4 o5 s5 o6 = true ->
  alcatel_timestamp_ok d1 d2 d3 gap5 t1 t2 t3 = true ->
  alcatel_parse hostname ip
    (alcatel_row service gap1
       (alcatel_mac_text o1 s1 o2 s2 o3 s3 o4 s4 o5 s5 o6)
       gap2 interface gap3 flag age gap4
       (alcatel_timestamp d1 d2 d3 gap5 t1 t2 t3) tail)
  = Some (MatchRecord
            (upper (replace_char "-"%char (lit ":")
                      (alcatel_mac_text o1 s1 o2 s2 o3 s3 o4 s4 o5 s5 o6)))
            interface ip hostname
            (lit "Service=" ++ service)
            (lit "LastSeen=" ++ alcatel_timestamp d1 d2 d3 gap5 t1 t2 t3)).
Proof.
  intros H Hmac Hts.
  destruct (alcatel_row_first _ _ _ _ _ _ _ _ _ _ _ _ _ _ _ _ _ _ _ _ _ _ _ _ _ _ _
              H Hmac Hts) as (m & Hm & Hsv & Hmc & Hif & Htm).
  unfold alcatel_fields_ok in H. bools H.
  unfold alcatel_mac_ok in Hmac. bools Hmac.
  unfold alcatel_timestamp_ok in Hts. bools Hts.
  unfold alcatel_parse.
  rewrite (first_row_one_line alcatel_pattern _ _) with (3 := Hm).
  - rewrite Hsv, Hmc, Hif, Htm. reflexivity.
  - unfold alcatel_row, alcatel_mac_text, alcatel_timestamp.
    rewrite !one_line_app.
    repeat match goal with
           | H : is_octet ?o = true |- _ =>
               rewrite (all_of_one_line Class.hex_af o hex_af_no_break
                          (octet_all_of o H)); clear H
           | H : is_separator ?o = true |- _ =>
               rewrite (all_of_one_line Class.sep o sep_no_break
                          (separator_all_of o H)); clear H
           | H : is_two_digits ?o = true |- _ =>
               rewrite (all_of_one_line Char.is_digit o digit_no_break
                          (two_digits_all_of o H)); clear H
           | H : is_gap ?o = true |- _ =>
               rewrite (all_of_one_line is_blank o blank_no_break H); clear H
           | H : is_number ?o = true |- _ =>
               rewrite (all_of_one_line Char.is_digit o digit_no_break H); clear H
           | H : is_sap_token ?o = true |- _ =>
               rewrite (all_of_one_line Class.sap_token o sap_no_break H); clear H
           | H : is_age_flag ?o = true |- _ =>
               rewrite (all_of_one_line Class.age_flag o age_flag_no_break
                          (age_flag_all_of o H)); clear H
           | H : one_line ?o = true |- _ => rewrite H; clear H
           end.
    reflexivity.
  - unfold alcatel_row. destruct service; [discriminate|]. discriminate.
Qed.

(** X2.  Every well-formed Alcatel row is parsed: for a line made of a
    service id, a MAC of six octets separated by colons or hyphens,
    [sap:] and an interface token of word characters, hyphens and colons,
    an age [L/n] or [D/n] and a timestamp [dd/dd/dd dd:dd:dd], separated
    by spaces or tabs, the Alcatel parser returns the record of these
    fields, with the MAC in upper case and colon-separated. *)
Theorem alcatel_row_parsed
  (hostname ip service gap1 o1 s1 o2 s2 o3 s3 o4 s4 o5 s5 o6 gap2 interface gap3
     flag age gap4 d1 d2 d3 gap5 t1 t2 t3 tail : str) :
  alcatel_fields_ok service gap1 gap2 interface gap3 flag age gap4 tail = true ->
  alcatel_mac_ok o1 s1 o2 s2 o3 s3 o4 s4 o5 s5 o6 = true ->
  alcatel_timestamp_ok d1 d2 d3 gap5 t1 t2 t3 = true ->
  alcatel_parse hostname ip
    (alcatel_row service gap1
       (alcatel_mac_text o1 s1 o2 s2 o3 s3 o4 s4 o5 s5 o6)
       gap2 interface gap3 flag age gap4
       (alcatel_timestamp d1 d2 d3 gap5 t1 t2 t3) tail)
  = Some (MatchRecord
            (upper (replace_char "-"%char (lit ":")
                      (alcatel_mac_text o1 s1 o2 s2 o3 s3 o4 s4 o5 s5 o6)))
            interface ip hostname
            (lit "Service=" ++ service)
            (lit "LastSeen=" ++ alcatel_timestamp d1 d2 d3 gap5 t1 t2 t3)).
Proof. apply alcatel_row_parse. Qed.

Lemma alcatel_row_parsed_witness :
  alcatel_parse (lit "sw1") (lit "10.0.0.1")
    (lit "42 0a-1B:2c:3D:4e:5F sap:lag-7:300  D/12 31/12/24 23:59:59 x")
  = Some (MatchRecord (lit "0A:1B:2C:3D:4E:5F") (lit "lag-7:300")
            (lit "10.0.0.1") (lit "sw1") (lit "Service=42")
            (lit "LastSeen=31/12/24 23:59:59")).
Proof.
  exact (alcatel_row_parsed (lit "sw1") (lit "10.0.0.1")
           (lit "42") (lit " ")
           (lit "0a") (lit "-") (lit "1B") (lit ":") (lit "2c") (lit ":")
           (lit "3D") (lit ":") (lit "4e") (lit ":") (lit "5F")
           (lit " ") (lit "lag-7:300") (lit "  ") (lit "D") (lit "12") (lit " ")
           (lit "31") (lit "12") (lit "24") (lit " ") (lit "23") (lit "59") (lit "59")
           (lit " x") eq_refl eq_refl eq_refl).
Defined.

(** ** Every returned record is well formed *)

Lemma alcatel_parse_shape (hostname ip mac_output : str) (rec : match_record) :
  alcatel_parse hostname ip mac_output = Some rec ->
  is_standard_mac (rec_mac rec) = true
  /\ upper (rec_mac rec) = rec_mac rec
  /\ rec_ip rec = ip /\ rec_hostname rec = hostname
  /\ (rec_interface rec <> []
      /\ forallb Class.sap_token (rec_interface rec) = true
      /\ ~ In "/"%char (rec_interface rec))
  /\ (exists service,
         rec_attribute1 rec = lit "Service=" ++ service
         /\ service <> [] /\ forallb Char.is_digit service = true)
  /\ exists d1 d2 d3 gap t1 t2 t3,
      rec_attribute2 rec
      = lit "LastSeen=" ++ d1 ++ lit "/" ++ d2 ++ lit "/" ++ d3 ++ gap
           ++ t1 ++ lit ":" ++ t2 ++ lit ":" ++ t3
      /\ digit_pair d1 /\ digit_pair d2 /\ digit_pair d3
      /\ (gap <> [] /\ forallb Char.is_space gap = true)
      /\ digit_pair t1 /\ digit_pair t2 /\ digit_pair t3.
Proof.
  unfold alcatel_parse.
  destruct (first_row alcatel_pattern (splitlines mac_output)) as [m|] eqn:Hrow;
    [|discriminate].
  intro H. inversion H; subst; clear H. cbn [rec_mac rec_ip rec_hostname
    rec_interface rec_attribute1 rec_attribute2].
  destruct (first_row_first _ _ _ Hrow) as (before & line & after & _ & _ & Hm).
  destruct (re_search_sound _ _ _ Hm) as (pre & u & post & _ & Hd).
  destruct (alcatel_row_shape u m Hd)
    as (Hmac & (Hi1 & Hi2) & (Hs1 & Hs2) & d1 & d2 & d3 & gap & t1 & t2 & t3 & Hts).
  conjs; try reflexivity; try assumption.
  - apply upper_idem.
  - now apply sap_token_no_slash.
  - exists (group "service" m). auto.
  - exists d1, d2, d3, gap, t1, t2, t3.
    destruct Hts as (-> & Hrest). split; [reflexivity | exact Hrest].
Qed.

Lemma huawei_mac_to_standard_is_upper (mac : str) :
  upper (huawei_mac_to_standard mac) = huawei_mac_to_standard mac.
Proof. unfold huawei_mac_to_standard. cbv zeta. apply upper_idem. Qed.

Lemma huawei_parse_shape (hostname ip mac_output : str) (rec : match_record) :
  huawei_parse hostname ip mac_output = Some rec ->
  is_standard_mac (rec_mac rec) = true
  /\ upper (rec_mac rec) = rec_mac rec
  /\ rec_ip rec = ip /\ rec_hostname rec = hostname
  /\ token (rec_interface rec)
  /\ (exists vlan, rec_attribute1 rec = lit "VLAN/VSI=" ++ vlan /\ token vlan)
  /\ exists mac_type, rec_attribute2 rec = lit "Type=" ++ mac_type /\ token mac_type.
Proof.
  unfold huawei_parse.
  destruct (first_row huawei_pattern (splitlines mac_output)) as [m|] eqn:Hrow;
    [|discriminate].
  intro H. inversion H; subst; clear H. cbn [rec_mac rec_ip rec_hostname
    rec_interface rec_attribute1 rec_attribute2].
  destruct (first_row_first _ _ _ Hrow) as (before & line & after & _ & _ & Hm).
  destruct (re_search_sound _ _ _ Hm) as (pre & u & post & _ & Hd).
  destruct (huawei_row_shape u m Hd) as (Hmac & Hvlan & Hif & Hty).
  conjs; try reflexivity; try assumption.
  - apply huawei_mac_to_standard_is_upper.
  - exists (group "vlan" m). auto.
  - exists (group "type" m). auto.
Qed.

(** X3.  Every Match Record returned by the Alcatel handler is well
    formed: its MAC is a standard MAC in upper case, it carries the
    device's address and host name, its interface is a non-empty run of
    word characters, hyphens and colons (so it never contains a slash),
    attribute 1 is [Service=] and a number, and attribute 2 is
    [LastSeen=] and a timestamp [dd/dd/dd dd:dd:dd]. *)
Theorem alcatel_record_well_formed (E : env) (fuel : nat) (conn : connection)
  (hostname ip search_mac : str) (timeout : Q) (w : world)
  (rec : match_record) (w' : world) (t : list event) :
  handle_alcatel_device E fuel conn hostname ip search_mac timeout w
  = (Ret (Some rec), w', t) ->
  is_standard_mac (rec_mac rec) = true
  /\ upper (rec_mac rec) = rec_mac rec
  /\ rec_ip rec = ip /\ rec_hostname rec = hostname
  /\ (rec_interface rec <> []
      /\ forallb Class.sap_token (rec_interface rec) = true
      /\ ~ In "/"%char (rec_interface rec))
  /\ (exists service,
         rec_attribute1 rec = lit "Service=" ++ service
         /\ service <> [] /\ forallb Char.is_digit service = true)
  /\ exists d1 d2 d3 gap t1 t2 t3,
      rec_attribute2 rec
      = lit "LastSeen=" ++ d1 ++ lit "/" ++ d2 ++ lit "/" ++ d3 ++ gap
           ++ t1 ++ lit ":" ++ t2 ++ lit ":" ++ t3
      /\ digit_pair d1 /\ digit_pair d2 /\ digit_pair d3
      /\ (gap <> [] /\ forallb Char.is_space gap = true)
      /\ digit_pair t1 /\ digit_pair t2 /\ digit_pair t3.
Proof.
  intro Hrun.
  destruct (alcatel_found E _ _ _ _ _ _ _ _ _ _ Hrun) as (out & _ & _ & Hparse).
  eapply alcatel_parse_shape. exact Hparse.
Qed.

Lemma alcatel_record_well_formed_witness :
  is_standard_mac (lit "11:22:33:44:55:66") = true.
Proof.
  pose (run := run_of (handle_alcatel_device (lab (fun _ _ => Ok two_rows) nobody) 61
                         (Connection (lit "10.0.0.1") (lit "alcatel_aos"))
                         (lit "sw1") (lit "10.0.0.1") sample_mac 60) scan_started).
  assert (Hrun : run
                 = (Ret (Some (MatchRecord (lit "11:22:33:44:55:66") (lit "lag-1:100")
                                 (lit "10.0.0.1") (lit "sw1") (lit "Service=100")
                                 (lit "LastSeen=01/02/24 10:00:00"))),
                    snd (fst run), snd run)).
  { rewrite (run_eta run) at 1.
    replace (fst (fst run)) with
      (Ret (Some (MatchRecord (lit "11:22:33:44:55:66") (lit "lag-1:100")
                    (lit "10.0.0.1") (lit "sw1") (lit "Service=100")
                    (lit "LastSeen=01/02/24 10:00:00")))) by (symmetry; by_eval).
    reflexivity. }
  exact (proj1 (alcatel_record_well_formed _ _ _ _ _ _ _ _ _ _ _ Hrun)).
Defined.

(** X4.  Every Match Record returned by the Huawei handler is well
    formed: its MAC is a standard MAC in upper case, it carries the
    device's address and host name, and its interface, VLAN/VSI and type
    are non-empty tokens without white space. *)
Theorem huawei_record_well_formed (E : env) (fuel : nat) (conn : connection)
  (hostname ip search_mac : str) (timeout : Q) (w : world)
  (rec : match_record) (w' : world) (t : list event) :
  handle_huawei_device E fuel conn hostname ip search_mac timeout w
  = (Ret (Some rec), w', t) ->
  is_standard_mac (rec_mac rec) = true
  /\ upper (rec_mac rec) = rec_mac rec
  /\ rec_ip rec = ip /\ rec_hostname rec = hostname
  /\ token (rec_interface rec)
  /\ (exists vlan, rec_attribute1 rec = lit "VLAN/VSI=" ++ vlan /\ token vlan)
  /\ exists mac_type, rec_attribute2 rec = lit "Type=" ++ mac_type /\ token mac_type.
Proof.
  intro Hrun.
  destruct (huawei_found E _ _ _ _ _ _ _ _ _ _ Hrun) as (out & _ & _ & Hparse).
  eapply huawei_parse_shape. exact Hparse.
Qed.

Lemma huawei_record_well_formed_witness :
  is_standard_mac (lit "0A:BC:12:34:56:78") = true.
Proof.
  pose (run := run_of (handle_huawei_device (lab (fun _ _ => Ok huawei_answer) nobody) 61
                         (Connection (lit "10.0.0.1") (lit "huawei"))
                         (lit "sw1") (lit "10.0.0.1") (lit "0A:BC:12:34:56:78") 60)
                 scan_started).
  assert (Hrun : run
                 = (Ret (Some (MatchRecord (lit "0A:BC:12:34:56:78") (lit "GE0/0/1")
                                 (lit "10.0.0.1") (lit "sw1") (lit "VLAN/VSI=10")
                                 (lit "Type=dynamic"))),
                    snd (fst run), snd run)).
  { rewrite (run_eta run) at 1.
    replace (fst (fst run)) with
      (Ret (Some (MatchRecord (lit "0A:BC:12:34:56:78") (lit "GE0/0/1")
                    (lit "10.0.0.1") (lit "sw1") (lit "VLAN/VSI=10")
                    (lit "Type=dynamic")))) by (symmetry; by_eval).
    reflexivity. }
  exact (proj1 (huawei_record_well_formed _ _ _ _ _ _ _ _ _ _ _ Hrun)).
Defined.

(** ** More on the MAC spellings *)

Lemma hex_only_all_hex (s : str) : forallb Char.is_hex (hex_only s) = true.
Proof.
  unfold hex_only. induction s as [|c s IH]; cbn [filter]; [reflexivity|].
  destruct (Char.is_hex c) eqn:Hc; [|exact IH].
  cbn [forallb]. now rewrite Hc, IH.
Qed.

Lemma hex_only_of_hex (s : str) :
  forallb Char.is_hex s = true -> hex_only s = s.
Proof.
  unfold hex_only. induction s as [|c s IH]; cbn [forallb filter]; [reflexivity|].
  intro H. apply andb_prop in H. destruct H as [Hc Hs].
  now rewrite Hc, (IH Hs).
Qed.

Lemma forallb_firstn (p : ascii -> bool) (n : nat) (s : str) :
  forallb p s = true -> forallb p (firstn n s) = true.
Proof.
  revert n. induction s as [|c s IH]; intros [|n]; cbn [firstn forallb]; auto.
  intro H. apply andb_prop in H. destruct H as [Hc Hs].
  now rewrite Hc, (IH n Hs).
Qed.

Lemma forallb_skipn (p : ascii -> bool) (n : nat) (s : str) :
  forallb p s = true -> forallb p (skipn n s) = true.
Proof.
  revert n. induction s as [|c s IH]; intros [|n]; cbn [skipn forallb]; auto.
  intro H. apply andb_prop in H. destruct H as [_ Hs]. now apply IH.
Qed.

Lemma hex_only_app (a b : str) : hex_only (a ++ b) = hex_only a ++ hex_only b.
Proof. apply filter_app. Qed.

Lemma firstn_then_firstn (a b : nat) (x : str) :
  firstn a x ++ firstn b (skipn a x) = firstn (a + b) x.
Proof.
  revert x. induction a as [|a IH]; intro x; [reflexivity|].
  destruct x as [|c x]; cbn [firstn skipn Nat.add app].
  - now rewrite firstn_nil.
  - now rewrite IH.
Qed.

(** The three groups of the Huawei form are the first twelve digits. *)
Lemma groups_are_first_twelve (x : str) :
  slice 0 4 x ++ slice 4 8 x ++ slice 8 12 x = firstn 12 x.
Proof.
  unfold slice. cbn [Nat.sub]. change (skipn 0 x) with x.
  replace (skipn 8 x) with (skipn 4 (skipn 4 x))
    by (rewrite skipn_skipn; reflexivity).
  rewrite (firstn_then_firstn 4 4 (skipn 4 x)).
  apply (firstn_then_firstn 4 8 x).
Qed.

Lemma slices_of_first_twelve (x : str) :
  slice 0 4 (firstn 12 x) = slice 0 4 x
  /\ slice 4 8 (firstn 12 x) = slice 4 8 x
  /\ slice 8 12 (firstn 12 x) = slice 8 12 x.
Proof.
  unfold slice. cbn [Nat.sub].
  change (skipn 0 (firstn 12 x)) with (firstn 12 x). change (skipn 0 x) with x.
  conjs.
  - now rewrite firstn_firstn.
  - rewrite skipn_firstn_comm, firstn_firstn. reflexivity.
  - rewrite skipn_firstn_comm, firstn_firstn. reflexivity.
Qed.

Lemma slice_length (i j : nat) (x : str) :
  List.length (slice i j x) = Nat.min (j - i) (List.length x - i).
Proof. unfold slice. now rewrite length_firstn, length_skipn. Qed.

(** X5.  [mac_to_huawei_format] reads only the first twelve hexadecimal
    digits of its argument: it is idempotent, every other character and
    every further digit is ignored, and the result has two characters
    more than the digits used - for an argument without hexadecimal
    digits it is [--]. *)
Theorem to_huawei_format_digits (mac : str) :
  mac_to_huawei_format (mac_to_huawei_format mac) = mac_to_huawei_format mac
  /\ mac_to_huawei_format (firstn 12 (hex_only mac)) = mac_to_huawei_format mac
  /\ hex_only (mac_to_huawei_format mac) = firstn 12 (hex_only mac)
  /\ List.length (mac_to_huawei_format mac)
     = (Nat.min 12 (List.length (hex_only mac)) + 2)%nat.
Proof.
  assert (Hdigits : hex_only (mac_to_huawei_format mac) = firstn 12 (hex_only mac)).
  { unfold mac_to_huawei_format. cbv zeta.
    rewrite !hex_only_app. change (hex_only (lit "-")) with (@nil ascii).
    cbn [app].
    assert (Hgroup : forall i j, hex_only (slice i j (hex_only mac))
                                 = slice i j (hex_only mac))
      by (intros i j; apply hex_only_of_hex; unfold slice;
          apply forallb_firstn, forallb_skipn, hex_only_all_hex).
    rewrite !Hgroup.
    apply groups_are_first_twelve. }
  assert (Hfirst : mac_to_huawei_format (firstn 12 (hex_only mac))
                   = mac_to_huawei_format mac).
  { unfold mac_to_huawei_format at 1. cbv zeta.
    rewrite (hex_only_of_hex (firstn 12 (hex_only mac)))
      by (apply forallb_firstn, hex_only_all_hex).
    destruct (slices_of_first_twelve (hex_only mac)) as (-> & -> & ->).
    reflexivity. }
  conjs.
  - unfold mac_to_huawei_format at 1. cbv zeta. rewrite Hdigits.
    destruct (slices_of_first_twelve (hex_only mac)) as (-> & -> & ->).
    reflexivity.
  - exact Hfirst.
  - exact Hdigits.
  - unfold mac_to_huawei_format. cbv zeta.
    rewrite !length_app, !slice_length.
    change (List.length (lit "-")) with 1%nat. lia.
Qed.

Lemma hex_af_is_hex (c : ascii) : Class.hex_af c = Char.is_hex c.
Proof. each_char c; reflexivity. Qed.

(** X6.  The other round trip: for a MAC in the Huawei form (three groups
    of four hexadecimal digits separated by hyphens),
    [huawei_mac_to_standard] gives a standard MAC, and converting that
    back with [mac_to_huawei_format] gives the Huawei form in upper
    case. *)
Theorem standard_round_trip (q1 q2 q3 : str) :
  is_quad q1 = true -> is_quad q2 = true -> is_quad q3 = true ->
  let huawei := q1 ++ lit "-" ++ q2 ++ lit "-" ++ q3 in
  is_standard_mac (huawei_mac_to_standard huawei) = true
  /\ mac_to_huawei_format (huawei_mac_to_standard huawei) = upper huawei.
Proof.
  intros H1 H2 H3.
  destruct q1 as [|a1 [|a2 [|a3 [|a4 [|? ?]]]]]; try discriminate H1.
  destruct q2 as [|a5 [|a6 [|a7 [|a8 [|? ?]]]]]; try discriminate H2.
  destruct q3 as [|a9 [|a10 [|a11 [|a12 [|? ?]]]]]; try discriminate H3.
  cbn [is_quad] in H1, H2, H3. bools H1. bools H2. bools H3.
  repeat match goal with
         | H : Class.hex_af _ = true |- _ => rewrite hex_af_is_hex in H
         end.
  cbv zeta. cbv [lit list_ascii_of_string]. cbn [app].
  unfold huawei_mac_to_standard. cbv zeta.
  repeat first [rewrite drop_hyphen_hex by assumption | rewrite drop_hyphen_hyphen].
  change (replace_char "-"%char [] []) with (@nil ascii).
  cbn [lower upper map slice firstn skipn Nat.sub Nat.add
       join lit list_ascii_of_string app].
  cbv [lit list_ascii_of_string]. cbn [app map].
  rewrite !upper_lower_char.
  assert (Hup : forall c, Char.is_hex c = true -> Char.is_hex (Char.upper c) = true)
    by (intro c; each_char c; intro Hc; try reflexivity; discriminate Hc).
  split.
  - unfold is_standard_mac. cbn [hex_groups].
    repeat match goal with
           | H : Char.is_hex ?c = true |- _ => rewrite (Hup c H); clear H
           end.
    reflexivity.
  - unfold mac_to_huawei_format. cbv zeta.
    change (Char.upper ":") with ":"%char.
    repeat first [rewrite hex_only_hex by (apply Hup; assumption)
                 | rewrite hex_only_colon].
    change (hex_only []) with (@nil ascii).
    cbv [slice firstn skipn Nat.sub lit list_ascii_of_string app].
    reflexivity.
Qed.

Lemma standard_round_trip_witness :
  mac_to_huawei_format (huawei_mac_to_standard (lit "0abc-1234-56ef"))
  = lit "0ABC-1234-56EF".
Proof.
  exact (proj2 (standard_round_trip (lit "0abc") (lit "1234") (lit "56ef")
                  eq_refl eq_refl eq_refl)).
Defined.

(** ** What a vendor handler does to the device *)

Section Transcript.

Variable E : env.

Lemma poll_events (fuel : nat) (conn : connection) (hostname cmd needle : str)
  (start_time timeout : Q) (mac_output : option str) (w : world)
  (r : res loop_exit) (w' : world) (t : list event) :
  poll E fuel conn hostname cmd needle start_time timeout mac_output w = (r, w', t) ->
  Forall (poll_event cmd) t.
Proof.
  revert mac_output w t.
  induction fuel as [|fuel IH]; intros mac_output w t Hrun; cbn [poll] in Hrun.
  - run_inv. constructor.
  - run_inv; cbn [app];
      repeat first [ apply Forall_nil
                   | apply Forall_cons; [cbn; auto; reflexivity|]
                   | eapply IH; eassumption ].
Qed.

Ltac close_trace :=
  first [ eexists; reflexivity | repeat constructor ].

Ltac handler_shape :=
  run_inv;
  try (left; split; reflexivity);
  right;
  repeat match goal with
    | H : poll _ _ _ _ _ _ _ _ _ _ = _ |- _ => apply poll_events in H
    end;
  cbn [app];
  match goal with
  | H : Forall _ ?p |- context [EvSendCommand _ :: ?p ++ ?c] =>
      eexists; exists p, c; conjs; [reflexivity | exact H | close_trace]
  | H : Forall _ ?p |- context [EvSendCommand _ :: ?p] =>
      eexists; exists p, []; conjs;
      [rewrite app_nil_r; reflexivity | exact H | close_trace]
  | |- context [[EvSendCommand _]] =>
      eexists; exists [], []; conjs; [reflexivity | constructor | close_trace]
  end.

Lemma huawei_trace (fuel : nat) (conn : connection)
  (hostname ip search_mac : str) (timeout : Q) (w : world)
  (r : res (option match_record)) (w' : world) (t : list event) :
  handle_huawei_device E fuel conn hostname ip search_mac timeout w = (r, w', t) ->
  handler_trace (lit "screen-length 0 temporary") (huawei_command search_mac) r t.
Proof.
  intro Hrun. unfold handle_huawei_device, send_command, after_poll in Hrun.
  unfold handler_trace. handler_shape.
Qed.

Lemma alcatel_trace (fuel : nat) (conn : connection)
  (hostname ip search_mac : str) (timeout : Q) (w : world)
  (r : res (option match_record)) (w' : world) (t : list event) :
  handle_alcatel_device E fuel conn hostname ip search_mac timeout w = (r, w', t) ->
  handler_trace (lit "environment no more") (alcatel_command search_mac) r t.
Proof.
  intro Hrun. unfold handle_alcatel_device, send_command, after_poll in Hrun.
  unfold handler_trace. handler_shape.
Qed.

End Transcript.

Lemma poll_event_not_set (cmd : str) (polled : list event) :
  Forall (poll_event cmd) polled -> ~ In EvSetEvent polled.
Proof.
  intros Hall Hin. rewrite Forall_forall in Hall. exact (Hall _ Hin).
Qed.

Lemma print_not_set (closing : list event) :
  Forall is_print closing -> ~ In EvSetEvent closing.
Proof.
  intros Hall Hin. rewrite Forall_forall in Hall. exact (Hall _ Hin).
Qed.

Lemma handler_trace_event (pagination cmd : str)
  (r : res (option match_record)) (t : list event) :
  handler_trace pagination cmd r t ->
  (In EvSetEvent t <-> exists rec, r = Ret (Some rec)).
Proof.
  intros [(-> & ->) | (line & polled & closing & -> & Hp & Hc)].
  - split; [intros [] | intros (rec & H); discriminate H].
  - split.
    + intro Hin. destruct r as [[rec|]|e|]; [now exists rec | | |]; exfalso.
      all: destruct Hin as [H | [H | Hin]]; [discriminate H | discriminate H |].
      all: apply in_app_or in Hin; destruct Hin as [Hin | Hin];
        [ exact (poll_event_not_set _ _ Hp Hin) | exact (print_not_set _ Hc Hin) ].
    + intros (rec & ->). destruct Hc as (parsed & ->).
      right. right. apply in_or_app. right. right. now left.
Qed.

(** X7.  What a vendor handler does to the session.  Either it finds
    the stop event set on entry and does nothing, or it prints its debug
    line, sends the pagination command once and then nothing but its
    lookup command, sleeping two seconds between lookups; it never
    closes or reopens the session.  It sets the stop event exactly when
    it returns a Match Record, as the last thing it does. *)
Theorem handler_transcript (E : env) (fuel : nat) (conn : connection)
  (hostname ip search_mac : str) (timeout : Q) (w : world)
  (r : res (option match_record)) (w' : world) (t : list event) :
  (handle_huawei_device E fuel conn hostname ip search_mac timeout w = (r, w', t) ->
   handler_trace (lit "screen-length 0 temporary") (huawei_command search_mac) r t
   /\ (In EvSetEvent t <-> exists rec, r = Ret (Some rec)))
  /\ (handle_alcatel_device E fuel conn hostname ip search_mac timeout w = (r, w', t) ->
      handler_trace (lit "environment no more") (alcatel_command search_mac) r t
      /\ (In EvSetEvent t <-> exists rec, r = Ret (Some rec))).
Proof.
  split; intro Hrun.
  - pose proof (huawei_trace E _ _ _ _ _ _ _ _ _ _ Hrun) as Ht.
    split; [exact Ht | exact (handler_trace_event _ _ _ _ Ht)].
  - pose proof (alcatel_trace E _ _ _ _ _ _ _ _ _ _ Hrun) as Ht.
    split; [exact Ht | exact (handler_trace_event _ _ _ _ Ht)].
Qed.

Lemma handler_transcript_witness :
  let run := run_of (handle_alcatel_device (lab (fun _ _ => Ok lag_row) nobody) 61
                       (Connection (lit "10.0.0.1") (lit "alcatel_aos"))
                       (lit "sw1") (lit "10.0.0.1") sample_mac 60) scan_started in
  In EvSetEvent (snd run) <-> exists rec, fst (fst run) = Ret (Some rec).
Proof.
  intro run.
  exact (proj2 (proj2 (handler_transcript _ _ _ _ _ _ _ _ _ _ _) (run_eta run))).
Defined.

(** ** How many lookups a handler sends *)

Lemma lookups_app (t1 t2 : list event) :
  lookups (t1 ++ t2) = (lookups t1 + lookups t2)%nat.
Proof. unfold lookups. now rewrite filter_app, length_app. Qed.

Section Lookups.

Variable E : env.
Variable timeout : Q.
Variable N : nat.
Hypothesis Hclock : clock_passes E timeout N.

(** Each turn of the loop that sends a lookup takes four interactions:
    the clock, the stop event, the command and the sleep. *)
Lemma poll_lookups (fuel : nat) (conn : connection) (hostname cmd needle : str)
  (i0 : nat) (mac_output : option str) (w : world) (r : res loop_exit)
  (w' : world) (t : list event) :
  poll E fuel conn hostname cmd needle (env_clock E i0) timeout mac_output w
  = (r, w', t) ->
  (4 * lookups t <= (i0 + N - ticks w) + 3)%nat.
Proof.
  revert mac_output w t.
  induction fuel as [|fuel IH]; intros mac_output w t Hrun; cbn [poll] in Hrun.
  - run_inv. cbn. lia.
  - apply bind_inv in Hrun.
    destruct Hrun as [(now & w1 & t1 & t2 & Hnow & Hrun & ->) | [(e & H & _) | (H & _)]];
      [| inversion H | inversion H].
    apply triple_inv in Hnow. destruct Hnow as (Hnow & <- & <-).
    apply Ret_inj in Hnow. subst now.
    destruct (Qltb (env_clock E (ticks w) - env_clock E i0) timeout) eqn:Hlt.
    + assert (Hearly : (ticks w < i0 + N)%nat).
      { destruct (Nat.lt_ge_cases (ticks w) (i0 + N)) as [Hl|Hg]; [exact Hl|].
        rewrite (Hclock i0 (ticks w) Hg) in Hlt. discriminate Hlt. }
      run_inv; rewrite ?lookups_app;
        try match goal with
          | H : poll _ _ _ _ _ _ _ _ _ _ = _ |- _ => apply IH in H; cbn in H
          end;
        cbn; lia.
    + run_inv. cbn. lia.
Qed.

Ltac count_lookups :=
  run_inv; rewrite ?lookups_app;
  try match goal with
    | H : poll _ _ _ _ _ _ _ _ _ _ = _ |- _ => apply poll_lookups in H; cbn in H
    end;
  cbn; lia.

Lemma huawei_lookups (fuel : nat) (conn : connection)
  (hostname ip search_mac : str) (w : world)
  (r : res (option match_record)) (w' : world) (t : list event) :
  handle_huawei_device E fuel conn hostname ip search_mac timeout w = (r, w', t) ->
  (4 * lookups t <= N + 2)%nat.
Proof.
  intro Hrun. unfold handle_huawei_device, send_command, after_poll in Hrun.
  count_lookups.
Qed.

Lemma alcatel_lookups (fuel : nat) (conn : connection)
  (hostname ip search_mac : str) (w : world)
  (r : res (option match_record)) (w' : world) (t : list event) :
  handle_alcatel_device E fuel conn hostname ip search_mac timeout w = (r, w', t) ->
  (4 * lookups t <= N + 2)%nat.
Proof.
  intro Hrun. unfold handle_alcatel_device, send_command, after_poll in Hrun.
  count_lookups.
Qed.

End Lookups.

(** X8.  The timeout bounds the polling.  When any [N] interactions with
    the outside take at least the timeout, a vendor handler sends its
    lookup command at most [(N + 2) / 4] times, whatever the device
    answers: each turn of the loop takes four interactions. *)
Theorem lookups_bounded (E : env) (timeout : Q) (N : nat) (fuel : nat)
  (conn : connection) (hostname ip search_mac : str) (w : world)
  (r : res (option match_record)) (w' : world) (t : list event) :
  clock_passes E timeout N ->
  handle_huawei_device E fuel conn hostname ip search_mac timeout w = (r, w', t)
  \/ handle_alcatel_device E fuel conn hostname ip search_mac timeout w = (r, w', t) ->
  (4 * lookups t <= N + 2)%nat.
Proof.
  intros Hclock [Hrun | Hrun].
  - exact (huawei_lookups E timeout N Hclock _ _ _ _ _ _ _ _ _ Hrun).
  - exact (alcatel_lookups E timeout N Hclock _ _ _ _ _ _ _ _ _ Hrun).
Qed.

Lemma lookups_bounded_witness :
  (4 * lookups (snd (run_of (handle_huawei_device
                               (lab (fun _ _ => Ok (lit "no such entry")) nobody)
                               61 (Connection (lit "10.0.0.1") (lit "huawei"))
                               (lit "sw1") (lit "10.0.0.1") sample_mac 60)
                       scan_started))
   <= 60 + 2)%nat.
Proof.
  unfold run_of.
  destruct (handle_huawei_device _ _ _ _ _ _ _ _) as [[r w'] t] eqn:Hrun.
  cbn [snd].
  exact (lookups_bounded _ 60 60 _ _ _ _ _ _ _ _ _
           (lab_clock_passes _ _) (or_introl Hrun)).
Defined.

(** ** A timeout that has elapsed before the first lookup *)

Section Elapsed.

Variable E : env.

Lemma poll_elapsed (fuel : nat) (conn : connection) (hostname cmd needle : str)
  (start_time timeout : Q) (mac_output : option str) (w : world) :
  Qltb (env_clock E (ticks w) - start_time) timeout = false ->
  poll E (S fuel) conn hostname cmd needle start_time timeout mac_output w
  = (Ret (LeftLoop mac_output), tick w, []).
Proof.
  intro Hlt. cbn [poll]. unfold bind, time_time. rewrite Hlt. reflexivity.
Qed.

End Elapsed.

(** X9.  A timeout that has already elapsed at the first test of the
    polling loop (as with a timeout of zero) does not give a "not found":
    the loop body never runs, [mac_output] is never assigned, and the
    handler raises [UnboundLocalError] after the pagination command,
    without sending a single lookup. *)
Theorem elapsed_timeout_raises (E : env) (fuel : nat) (conn : connection)
  (hostname ip search_mac : str) (timeout : Q) (w : world) :
  (0 < fuel)%nat ->
  stopped_on_entry E w = false ->
  (forall cmd, exists out, env_send_command E (S (ticks w)) cmd = Ok out) ->
  elapsed_at_first_test E timeout w ->
  (exists w' line,
      handle_huawei_device E fuel conn hostname ip search_mac timeout w
      = (Raise UnboundLocalError, w',
         [EvPrint line; EvSendCommand (lit "screen-length 0 temporary")]))
  /\ (exists w' line,
         handle_alcatel_device E fuel conn hostname ip search_mac timeout w
         = (Raise UnboundLocalError, w',
            [EvPrint line; EvSendCommand (lit "environment no more")])).
Proof.
  intros Hfuel Hgo Hsend Hlate.
  destruct fuel as [|fuel]; [lia|].
  unfold stopped_on_entry in Hgo. unfold elapsed_at_first_test in Hlate.
  split.
  - destruct (Hsend (lit "screen-length 0 temporary")) as (out & Hout).
    unfold handle_huawei_device.
    unfold bind at 1, is_set. rewrite Hgo. cbv zeta.
    unfold bind at 1, print, emit.
    unfold bind at 1, send_command, bind at 1, emit, ask.
    cbn [ticks]. rewrite Hout.
    unfold bind at 1, time_time at 1. cbn [ticks tick].
    unfold bind at 1.
    rewrite poll_elapsed by (cbn [ticks tick]; exact Hlate).
    cbn. eexists _, _. reflexivity.
  - destruct (Hsend (lit "environment no more")) as (out & Hout).
    unfold handle_alcatel_device.
    unfold bind at 1, is_set. rewrite Hgo. cbv zeta.
    unfold bind at 1, print, emit.
    unfold bind at 1, send_command, bind at 1, emit, ask.
    cbn [ticks]. rewrite Hout.
    unfold bind at 1, time_time at 1. cbn [ticks tick].
    unfold bind at 1.
    rewrite poll_elapsed by (cbn [ticks tick]; exact Hlate).
    cbn. eexists _, _. reflexivity.
Qed.

Lemma elapsed_timeout_raises_witness :
  exists w' line,
    handle_huawei_device (lab (fun _ _ => Ok lag_row) nobody) 61
      (Connection (lit "10.0.0.1") (lit "huawei")) (lit "sw1") (lit "10.0.0.1")
      sample_mac 0 scan_started
    = (Raise UnboundLocalError, w',
       [EvPrint line; EvSendCommand (lit "screen-length 0 temporary")]).
Proof.
  refine (proj1 (elapsed_timeout_raises (lab (fun _ _ => Ok lag_row) nobody) 61
                   (Connection (lit "10.0.0.1") (lit "huawei")) (lit "sw1")
                   (lit "10.0.0.1") sample_mac 0 scan_started _ _ _ _)).
  - lia.
  - reflexivity.
  - intro cmd. exists []. reflexivity.
  - vm_compute. reflexivity.
Defined.

(** ** Opening the session *)

Section Connect.

Variable E : env.

(** The three runs of [ssh_connect]. *)
Lemma ssh_connect_run (host device_type : str) (w : world) :
  ssh_connect E host device_type w
  = match env_socket_connect E (ticks w) host with
    | Failed e =>
        (Ret None, tick w,
         [EvPrint ((lit "[DEBUG] Trying to connect to " ++ host) ++ newline);
          EvSocketConnect host;
          connection_error_line host e])
    | Ok _ =>
        match env_connect_handler E (S (ticks w)) host device_type with
        | Failed e =>
            (Ret None, tick (tick w),
             [EvPrint ((lit "[DEBUG] Trying to connect to " ++ host) ++ newline);
              EvSocketConnect host;
              EvPrint ((lit "[DEBUG] Socket connection successful to " ++ host)
                         ++ newline);
              EvConnectHandler host device_type;
              connection_error_line host e])
        | Ok _ =>
            (Ret (Some (Connection host device_type)), tick (tick w),
             [EvPrint ((lit "[DEBUG] Trying to connect to " ++ host) ++ newline);
              EvSocketConnect host;
              EvPrint ((lit "[DEBUG] Socket connection successful to " ++ host)
                         ++ newline);
              EvConnectHandler host device_type])
        end
    end.
Proof.
  unfold ssh_connect, try_catch, bind, print, emit, ask, ret, connection_error_line.
  destruct (env_socket_connect E (ticks w) host) as [u|e]; [|reflexivity].
  cbn [ticks tick].
  destruct (env_connect_handler E (S (ticks w)) host device_type) as [u'|e];
    reflexivity.
Qed.

End Connect.

(** X10.  [ssh_connect] contains every failure: it always returns, with
    a connection or with [None], and never raises.  The SSH login is
    attempted only after the probe of port 22 has succeeded, a
    connection is returned exactly when both succeed, and every [None]
    comes with the connection error line. *)
Theorem ssh_connect_contained (E : env) (host device_type : str) (w : world) :
  exists v w' t,
    ssh_connect E host device_type w = (Ret v, w', t)
    /\ (v = None \/ v = Some (Connection host device_type))
    /\ (v <> None <->
        (exists u, env_socket_connect E (ticks w) host = Ok u)
        /\ (exists u, env_connect_handler E (S (ticks w)) host device_type = Ok u))
    /\ (In (EvConnectHandler host device_type) t <->
        exists u, env_socket_connect E (ticks w) host = Ok u)
    /\ (v = None -> exists e, In (connection_error_line host e) t)
    /\ Forall (fun ev => session_event ev = false) t.
Proof.
  rewrite ssh_connect_run.
  destruct (env_socket_connect E (ticks w) host) as [u|e].
  - destruct (env_connect_handler E (S (ticks w)) host device_type) as [u'|e].
    + eexists _, _, _. conjs.
      * reflexivity.
      * now right.
      * split; [intros _; split; eexists; reflexivity | discriminate].
      * split; [intros _; eexists; reflexivity | intros _; cbn; tauto].
      * discriminate.
      * repeat constructor.
    + eexists _, _, _. conjs.
      * reflexivity.
      * now left.
      * split; [intro H; now contradiction H | intros (_ & u' & H); discriminate H].
      * split; [intros _; eexists; reflexivity | intros _; cbn; tauto].
      * intros _. exists e. cbn. tauto.
      * repeat constructor.
  - eexists _, _, _. conjs.
    + reflexivity.
    + now left.
    + split; [intro H; now contradiction H | intros ((u & H) & _); discriminate H].
    + split.
      * intros [H | [H | [H | []]]]; discriminate H.
      * intros (u & H). discriminate H.
    + intros _. exists e. cbn. tauto.
    + repeat constructor.
Qed.

(** ** One device, by cases *)

Lemma malformed_dec (device_info : str) :
  malformed device_info \/ ~ malformed device_info.
Proof.
  unfold malformed. cbv zeta.
  destruct (Nat.eq_dec (List.length (split "," (strip device_info))) 2) as [He|He].
  - destruct (existsb _ _) eqn:Hv.
    + right. intros [H|H]; [now apply H | discriminate].
    + left. now right.
  - left. now left.
Qed.

Lemma progress_output_prints (w : world) (line : list event) :
  progress_output w line -> Forall is_print line.
Proof.
  unfold progress_output. destruct (scan_start_time w).
  - intros (eta & ->). repeat constructor.
  - intros ->. constructor.
Qed.

Section DeviceCases.

Variable E : env.

(** A well-formed line that is not stopped on entry runs the guarded
    session on its two fields and then reports the completion. *)
Lemma handle_device_run (fuel : nat) (device_info search_mac : str)
  (timeout : Q) (w : world) (r : res (option match_record)) (w' : world)
  (t : list event) :
  handle_device E fuel device_info search_mac timeout w = (r, w', t) ->
  stopped_on_entry E w = false ->
  ~ malformed device_info ->
  r <> Diverge ->
  exists v w1 before line,
    session E fuel (device_ip device_info) (device_vendor device_info)
      search_mac timeout (entered E w) = (Ret v, w1, before)
    /\ r = Ret v
    /\ w' = after_progress (counted w1)
    /\ t = before ++ EvAcquire :: EvCompleted (completed_devices w + 1)
                  :: line ++ [EvRelease]
    /\ progress_output (counted w1) line.
Proof.
  intros Hrun Hgo Hok Hret.
  pose proof (handle_device_session E fuel device_info search_mac timeout w Hgo Hok)
    as Heq.
  cbv zeta in Heq. rewrite Heq in Hrun. clear Heq.
  fold (device_ip device_info) in Hrun. fold (device_vendor device_info) in Hrun.
  destruct (finally _ _ _) as [[r0 w0] t0] eqn:Hfin.
  apply triple_inv in Hrun. destruct Hrun as (-> & -> & ->).
  apply finally_inv in Hfin.
  destruct Hfin as [(_ & Hd) | (r1 & w1 & t1 & rc & t2 & Hs & Hnd & Hc & -> & Hr)];
    [contradiction|].
  destruct (report_completion_run E w1) as (line & Hrep & Hline).
  rewrite Hrep in Hc. apply triple_inv in Hc. destruct Hc as (<- & <- & <-).
  pose proof (framed_session E _ _ _ _ _ _ _ _ _ Hs) as Hframe.
  destruct r1 as [v|e|].
  - exists v, w1, t1, line.
    rewrite (frame_completed _ _ _ Hframe). cbn [entered completed_devices].
    conjs; [exact Hs | exact Hr | reflexivity | reflexivity | exact Hline].
  - exfalso. eapply session_no_raise. exact Hs.
  - contradiction.
Qed.

(** The session of a device that cannot be reached. *)
Lemma session_unreachable (fuel : nat) (ip vendor search_mac : str)
  (timeout : Q) (w : world) (e : exn) :
  env_socket_connect E (ticks w) ip = Failed e
  \/ (env_socket_connect E (ticks w) ip = Ok tt
      /\ env_connect_handler E (S (ticks w)) ip vendor = Failed e) ->
  exists w1 before,
    session E fuel ip vendor search_mac timeout w = (Ret None, w1, before)
    /\ mac_found_event w1 = mac_found_event w
    /\ completed_devices w1 = completed_devices w
    /\ In (connection_error_line ip e) before
    /\ Forall (fun ev => session_event ev = false) before.
Proof.
  intro Hfail. unfold session, try_catch, bind at 1.
  rewrite ssh_connect_run.
  destruct Hfail as [-> | (-> & ->)].
  - eexists _, _.
    conjs; [reflexivity | reflexivity | reflexivity | | repeat constructor].
    cbn. tauto.
  - eexists _, _.
    conjs; [reflexivity | reflexivity | reflexivity | | repeat constructor].
    cbn. tauto.
Qed.

(** A session that was opened is closed or reported. *)
Lemma session_release (fuel : nat) (ip vendor search_mac : str) (timeout : Q)
  (w : world) (v : option match_record) (w' : world) (t : list event) :
  session E fuel ip vendor search_mac timeout w = (Ret v, w', t) ->
  In EvSetBasePrompt t ->
  In EvDisconnect t
  \/ (v = None /\ exists e, In (device_error_line ip e) t).
Proof.
  intros Hrun Hopen. unfold session in Hrun. apply try_catch_inv in Hrun.
  destruct Hrun as [(e & w1 & t1 & t2 & _ & Hrun & ->) | (Hrun & _)].
  - right. run_inv. split; [reflexivity|].
    exists e. apply in_or_app. right. now left.
  - left.
    apply bind_inv in Hrun.
    destruct Hrun as [(c & w1 & t1 & t2 & Hc & Hrun & ->) | [(e & _ & He) | (_ & He)]];
      [| discriminate He | discriminate He].
    rewrite ssh_connect_run in Hc.
    destruct (env_socket_connect E (ticks w) ip) as [u|e].
    + destruct (env_connect_handler E (S (ticks w)) ip vendor) as [u'|e].
      * apply triple_inv in Hc. destruct Hc as (Hc & <- & <-).
        apply Ret_inj in Hc. subst c.
        unfold set_base_prompt, find_prompt, disconnect in Hrun.
        run_inv; repeat (rewrite in_app_iff; cbn); tauto.
      * apply triple_inv in Hc. destruct Hc as (Hc & <- & <-).
        apply Ret_inj in Hc. subst c. run_inv.
        exfalso. rewrite app_nil_r in Hopen.
        destruct Hopen as [H | [H | [H | [H | [H | []]]]]]; discriminate H.
    + apply triple_inv in Hc. destruct Hc as (Hc & <- & <-).
      apply Ret_inj in Hc. subst c. run_inv.
      exfalso. rewrite app_nil_r in Hopen.
      destruct Hopen as [H | [H | [H | []]]]; discriminate H.
Qed.

End DeviceCases.

(** X11.  A device that cannot be reached costs the scan nothing but a
    line of output: when the probe of port 22 or the SSH login fails for
    a well-formed device line, [handle_device] returns [None] normally,
    prints the connection error line, counts the device as completed,
    and neither uses a session nor touches the stop event. *)
Theorem unreachable_device_reported (E : env) (fuel : nat)
  (device_info search_mac : str) (timeout : Q) (w : world) (e : exn) :
  ~ malformed device_info ->
  stopped_on_entry E w = false ->
  unreachable E (entered E w) (device_ip device_info) (device_vendor device_info) e ->
  exists w' t,
    handle_device E fuel device_info search_mac timeout w = (Ret None, w', t)
    /\ In (connection_error_line (device_ip device_info) e) t
    /\ completed_devices w' = (completed_devices w + 1)%Z
    /\ mac_found_event w' = false
    /\ Forall (fun ev => session_event ev = false) t.
Proof.
  intros Hok Hgo Hfail.
  destruct (session_unreachable E fuel (device_ip device_info)
              (device_vendor device_info) search_mac timeout (entered E w) e Hfail)
    as (w1 & before & Hs & Hflag & Hcount & Hin & Hquiet).
  destruct (report_completion_run E w1) as (line & Hrep & Hline).
  pose proof (handle_device_session E fuel device_info search_mac timeout w Hgo Hok)
    as Heq.
  cbv zeta in Heq. rewrite Heq. clear Heq.
  fold (device_ip device_info). fold (device_vendor device_info).
  unfold finally. rewrite Hs, Hrep.
  destruct (after_progress_counted w1) as (Hc & _ & _ & Hf).
  eexists _, _. conjs.
  - reflexivity.
  - apply in_or_app. now left.
  - rewrite Hc, Hcount. reflexivity.
  - rewrite Hf, Hflag. exact Hgo.
  - apply Forall_app. split; [exact Hquiet|].
    constructor; [reflexivity|]. constructor; [reflexivity|].
    apply Forall_app. split; [|repeat constructor].
    apply progress_output_prints in Hline.
    eapply Forall_impl; [|exact Hline].
    intros [] H; try contradiction H; reflexivity.
Qed.

Lemma unreachable_device_reported_witness :
  let down := {| env_clock := fun n => inject_Z (Z.of_nat n);
                 env_set_elsewhere := nobody;
                 env_socket_connect :=
                   fun _ _ => Failed (RemoteError (lit "timed out"));
                 env_connect_handler := fun _ _ _ => Ok tt;
                 env_set_base_prompt := fun _ => Ok tt;
                 env_find_prompt := fun _ => Ok (lit "<sw1>");
                 env_send_command := fun _ _ => Ok [];
                 env_send_command_timing := fun _ _ => Ok lag_row;
                 env_disconnect := fun _ => Ok tt |} in
  exists w' t,
    handle_device down 61 (lit "10.0.0.1,huawei") sample_mac 60 scan_started
    = (Ret None, w', t)
    /\ In (EvPrint (lit "[X] Connection error for 10.0.0.1: timed out" ++ newline)) t
    /\ completed_devices w' = 1%Z.
Proof.
  intro down.
  destruct (unreachable_device_reported down 61 (lit "10.0.0.1,huawei") sample_mac
              60 scan_started (RemoteError (lit "timed out")))
    as (w' & t & Hrun & Hin & Hc & _).
  - intros [H | H]; vm_compute in H; [now apply H | discriminate H].
  - reflexivity.
  - left. reflexivity.
  - exists w', t. conjs; [exact Hrun | exact Hin | exact Hc].
Defined.

(** X12.  What becomes of an opened session.  In every invocation of
    [handle_device] that comes back, a session that was opened (its
    prompt was asked for) has either been closed with [disconnect], or
    the invocation has printed the error line of its [except] clause and
    returned [None]; a Match Record is only returned after
    [disconnect]. *)
Theorem session_closed_or_reported (E : env) (fuel : nat)
  (device_info search_mac : str) (timeout : Q) (w : world)
  (r : res (option match_record)) (w' : world) (t : list event) :
  handle_device E fuel device_info search_mac timeout w = (r, w', t) ->
  r <> Diverge ->
  (In EvSetBasePrompt t ->
   In EvDisconnect t
   \/ (r = Ret None
       /\ exists e, In (device_error_line (device_ip device_info) e) t))
  /\ (forall rec, r = Ret (Some rec) -> In EvSetBasePrompt t /\ In EvDisconnect t).
Proof.
  intros Hrun Hret.
  destruct (stopped_on_entry E w) eqn:Hgo.
  { rewrite (handle_device_stopped E _ _ _ _ _ Hgo) in Hrun.
    apply triple_inv in Hrun. destruct Hrun as (<- & <- & <-).
    split; [intros [] | discriminate]. }
  destruct (malformed_dec device_info) as [Hbad | Hok].
  { destruct (handle_device_malformed E fuel device_info search_mac timeout w Hgo Hbad)
      as (line & Heq & Hline).
    rewrite Heq in Hrun. apply triple_inv in Hrun. destruct Hrun as (<- & <- & <-).
    split; [|discriminate].
    intro Hin. exfalso.
    destruct Hin as [H | [H | Hin]]; [discriminate H | discriminate H |].
    apply in_app_or in Hin. destruct Hin as [Hin | [H | []]]; [|discriminate H].
    apply progress_output_prints in Hline. rewrite Forall_forall in Hline.
    exact (Hline _ Hin). }
  destruct (handle_device_run E _ _ _ _ _ _ _ _ Hrun Hgo Hok Hret)
    as (v & w1 & before & line & Hs & -> & -> & -> & Hline).
  assert (Hopened : In EvSetBasePrompt
                      (before ++ EvAcquire :: EvCompleted (completed_devices w + 1)
                                 :: line ++ [EvRelease])
                    -> In EvSetBasePrompt before).
  { intro Hin. apply in_app_or in Hin. destruct Hin as [Hin | Hin]; [exact Hin|].
    exfalso.
    destruct Hin as [H | [H | Hin]]; [discriminate H | discriminate H |].
    apply in_app_or in Hin. destruct Hin as [Hin | [H | []]]; [|discriminate H].
    apply progress_output_prints in Hline. rewrite Forall_forall in Hline.
    exact (Hline _ Hin). }
  assert (Hfound : forall rec, v = Some rec -> In EvSetBasePrompt before).
  { intros rec ->. clear Hopened. unfold session in Hs. apply try_catch_inv in Hs.
    destruct Hs as [(e & w2 & t1 & t2 & _ & Hs & _) | (Hs & _)];
      [run_inv; discriminate|].
    apply bind_inv in Hs.
    destruct Hs as [(c & w2 & t1 & t2 & _ & Hs & ->) | [(e & _ & He) | (_ & He)]];
      [| discriminate He | discriminate He].
    destruct c as [conn|]; [|run_inv; discriminate].
    unfold set_base_prompt in Hs.
    apply bind_inv in Hs.
    destruct Hs as [(u & w3 & t3 & t4 & Hp & _ & ->) | [(e & _ & He) | (_ & He)]];
      [| discriminate He | discriminate He].
    run_inv. apply in_or_app. right. now left. }
  split.
  - intro Hin. apply Hopened in Hin.
    destruct (session_release E _ _ _ _ _ _ _ _ _ Hs Hin) as [Hd | (-> & e & He)].
    + left. apply in_or_app. now left.
    + right. split; [reflexivity|]. exists e. apply in_or_app. now left.
  - intros rec Hrec. apply Ret_inj in Hrec. subst v.
    pose proof (Hfound rec eq_refl) as Hin.
    split; [apply in_or_app; now left|].
    destruct (session_release E _ _ _ _ _ _ _ _ _ Hs Hin) as [Hd | (Hnone & _)];
      [apply in_or_app; now left | discriminate Hnone].
Qed.

Lemma session_closed_or_reported_witness :
  let run := run_of (handle_device (lab (fun _ _ => Ok lag_row) nobody) 61
                       (lit "10.0.0.1,alcatel_aos") sample_mac 60) scan_started in
  In EvSetBasePrompt (snd run) /\ In EvDisconnect (snd run).
Proof.
  intro run.
  assert (Hrec : fst (fst run)
                 = Ret (Some (MatchRecord (lit "AA:BB:CC:DD:EE:FF") (lit "lag-1:100")
                                (lit "10.0.0.1") (lit "sw1") (lit "Service=100")
                                (lit "LastSeen=01/02/24 10:00:00"))))
    by by_eval.
  refine (proj2 (session_closed_or_reported _ _ _ _ _ _ _ _ _ (run_eta run) _)
            _ Hrec).
  rewrite Hrec. discriminate.
Defined.

(** ** The estimate on the progress line *)

Lemma two_digits_length (n : Z) :
  (0 <= n < 60)%Z -> List.length (two_digits n) = 2%nat.
Proof.
  intro Hn.
  assert (Hall : forallb (fun k => (List.length (two_digits (Z.of_nat k)) =? 2)%nat)
                   (seq 0 60) = true) by by_eval.
  rewrite forallb_forall in Hall.
  specialize (Hall (Z.to_nat n)).
  rewrite Z2Nat.id in Hall by lia.
  apply Nat.eqb_eq, Hall, in_seq. lia.
Qed.

Lemma strftime_HMS_fields (seconds : Q) :
  let t := (Qfloor seconds mod 86400)%Z in
  strftime_HMS seconds
  = two_digits (t / 3600) ++ lit ":" ++ two_digits ((t mod 3600) / 60)
      ++ lit ":" ++ two_digits (t mod 60)
  /\ (0 <= t / 3600 < 24)%Z
  /\ (0 <= (t mod 3600) / 60 < 60)%Z
  /\ (0 <= t mod 60 < 60)%Z.
Proof.
  intro t.
  assert (Ht : (0 <= t < 86400)%Z) by (apply Z.mod_pos_bound; lia).
  conjs; try reflexivity.
  - apply Z.div_pos; lia.
  - apply Z.div_lt_upper_bound; lia.
  - apply Z.div_pos; [apply Z.mod_pos_bound|]; lia.
  - apply Z.div_lt_upper_bound; [lia|]. apply Z.mod_pos_bound. lia.
  - apply Z.mod_pos_bound. lia.
  - apply Z.mod_pos_bound. lia.
Qed.

Lemma Qfloor_times_zero (x : Q) : Qfloor (x * inject_Z 0) = 0%Z.
Proof.
  destruct x as [n d]. unfold Qmult, inject_Z, Qfloor. cbn [Qnum Qden].
  rewrite Z.mul_0_r. apply Z.div_0_l. lia.
Qed.

(** X13.  The estimate on the progress line.  Once the scan has started,
    [print_progress] prints one line whose ETA is a time of day
    [HH:MM:SS] of eight characters, with hours below 24, minutes and
    seconds below 60 - an estimate of a day or more wraps around - and
    the ETA is [00:00:00] when every device is completed. *)
Theorem progress_eta_shape (E : env) (w : world) (started : Q) :
  scan_start_time w = Some started ->
  exists h m s,
    print_progress E w
    = (Ret tt, tick w,
       [EvPrint (progress_line (completed_devices w) (total_devices w)
                   (two_digits h ++ lit ":" ++ two_digits m ++ lit ":" ++ two_digits s)
                   ++ ["013"%char])])
    /\ (0 <= h < 24)%Z /\ (0 <= m < 60)%Z /\ (0 <= s < 60)%Z
    /\ List.length (two_digits h ++ lit ":" ++ two_digits m ++ lit ":" ++ two_digits s)
       = 8%nat
    /\ (completed_devices w = total_devices w -> h = 0%Z /\ m = 0%Z /\ s = 0%Z).
Proof.
  intro Hs.
  set (elapsed := (env_clock E (ticks w) - started)%Q).
  set (avg := if (0 <? completed_devices w)%Z
              then (elapsed / inject_Z (completed_devices w))%Q else 0%Q).
  set (eta := (avg * inject_Z (total_devices w - completed_devices w))%Q).
  assert (Hrun : print_progress E w
                 = (Ret tt, tick w,
                    [EvPrint (progress_line (completed_devices w) (total_devices w)
                                (strftime_HMS eta) ++ ["013"%char])])).
  { unfold print_progress, bind at 1, get. rewrite Hs.
    unfold bind at 1, time_time. fold elapsed.
    unfold eta, avg, truediv.
    destruct (0 <? completed_devices w)%Z eqn:Hpos.
    - destruct (completed_devices w =? 0)%Z eqn:Hz.
      + apply Z.ltb_lt in Hpos. apply Z.eqb_eq in Hz. lia.
      + reflexivity.
    - reflexivity. }
  destruct (strftime_HMS_fields eta) as (Heta & Hh & Hm & Hsec).
  cbv zeta in Heta, Hh, Hm, Hsec.
  eexists _, _, _. conjs.
  - rewrite Hrun, Heta. reflexivity.
  - apply Hh.
  - apply Hh.
  - apply Hm.
  - apply Hm.
  - apply Hsec.
  - apply Hsec.
  - rewrite !length_app, !two_digits_length by lia. reflexivity.
  - intro Hall. unfold eta. rewrite Hall, Z.sub_diag, Qfloor_times_zero.
    conjs; reflexivity.
Qed.

Lemma progress_eta_shape_witness :
  let w := World false 3 3 (Some 0%Q) 5 in
  print_progress (lab (fun _ _ => Ok lag_row) nobody) w
  = (Ret tt, tick w,
     [EvPrint (lit "[PROGRESS] 3/3 devices scanned | ETA: 00:00:00" ++ ["013"%char])]).
Proof.
  intro w.
  destruct (progress_eta_shape (lab (fun _ _ => Ok lag_row) nobody) w 0%Q eq_refl)
    as (h & m & s & Hrun & _ & _ & _ & _ & Hzero).
  destruct (Hzero eq_refl) as (-> & -> & ->). exact Hrun.
Defined.

(** ** The coordinator's output *)

Section Coordinator.

Variable E : env.

(** The loop passes over the futures that hold no Found result, printing
    the error line of each one that raised. *)
Lemma collect_passes (before : list future) (w : world) :
  no_found before ->
  exists w1,
    completed_devices w1 = completed_devices w
    /\ total_devices w1 = total_devices w
    /\ scan_start_time w1 = scan_start_time w
    /\ ticks w1 = (ticks w + List.length before)%nat
    /\ forall rest,
        collect E (before ++ rest) None w
        = let '(r, w', t) := collect E rest None w1 in
          (r, w', reported before ++ t).
Proof.
  revert w. induction before as [|[d o] before IH]; intros w Hnone.
  - exists w. conjs; try reflexivity; [cbn; lia|].
    intro rest. cbn [app reported flat_map].
    destruct (collect E rest None w) as [[r w'] t]. reflexivity.
  - assert (Hrest : no_found before)
      by (intros f Hf; apply Hnone; now right).
    set (w0 := World (mac_found_event w || env_set_elsewhere E (ticks w))
                 (completed_devices w) (total_devices w) (scan_start_time w)
                 (S (ticks w))).
    destruct (IH w0 Hrest) as (w1 & Hc & Ht & Hs & Hticks & Hrun).
    exists w1. conjs; [exact Hc | exact Ht | exact Hs | cbn in *; lia |].
    intro rest. cbn [app collect]. unfold bind at 1, is_set. fold w0.
    rewrite andb_false_r.
    destruct o as [[r0|]|e].
    + exfalso. exact (Hnone (d, Ok (Some r0)) (or_introl eq_refl) r0 eq_refl).
    + rewrite Hrun. destruct (collect E rest None w1) as [[r w'] t]. reflexivity.
    + unfold bind, print, emit. rewrite Hrun.
      destruct (collect E rest None w1) as [[r w'] t]. reflexivity.
Qed.

End Coordinator.

(** X14.  What the coordinator prints when a match is found.  When the
    first Found result in completion order is [rec], the coordinator
    returns it, prints the error line of each future that raised before
    it, sets the stop event once and prints the summary of [rec];
    whatever completed later - other matches and errors included - is
    neither looked at nor reported. *)
Theorem coordinator_reports_first_match (E : env) (before : list future)
  (device_info : str) (rec : match_record) (after : list future)
  (search_mac : str) (w : world) :
  no_found before ->
  exists w',
    coordinate E (before ++ (device_info, Ok (Some rec)) :: after) search_mac w
    = (Ret (Some rec), w', reported before ++ EvSetEvent :: found_summary rec)
    /\ mac_found_event w' = true
    /\ ticks w' = (ticks w + List.length before + 1)%nat.
Proof.
  intro Hnone.
  destruct (collect_passes E before w Hnone) as (w1 & _ & _ & _ & Hticks & Hrun).
  unfold coordinate, bind at 1. rewrite Hrun.
  cbn [collect]. unfold bind at 1, is_set. rewrite andb_false_r.
  unfold bind at 1, set_event. cbn [mac_found_event completed_devices
    total_devices scan_start_time ticks].
  unfold ret at 1. cbn [app].
  unfold summary, bind, print, emit, ret.
  eexists. conjs.
  - rewrite <- app_assoc. cbn [app]. unfold found_summary. reflexivity.
  - reflexivity.
  - cbn [ticks]. lia.
Qed.

Lemma coordinator_reports_first_match_witness :
  let found := MatchRecord (lit "AA:BB:CC:DD:EE:FF") (lit "lag-1:100")
                 (lit "10.0.0.2") (lit "sw2") (lit "Service=100")
                 (lit "LastSeen=01/02/24 10:00:00") in
  let other := MatchRecord (lit "AA:BB:CC:DD:EE:FF") (lit "lag-9:900")
                 (lit "10.0.0.3") (lit "sw3") (lit "Service=900")
                 (lit "LastSeen=01/02/24 10:00:00") in
  exists w',
    coordinate (lab (fun _ _ => Ok lag_row) nobody)
      [(lit "10.0.0.1,huawei", Failed (RemoteError (lit "boom")));
       (lit "10.0.0.2,alcatel_aos", Ok (Some found));
       (lit "10.0.0.3,alcatel_aos", Ok (Some other));
       (lit "10.0.0.4,huawei", Failed (RemoteError (lit "late")))]
      sample_mac scan_started
    = (Ret (Some found), w',
       EvPrint (lit "[X] Error scanning device 10.0.0.1,huawei: boom" ++ newline)
         :: EvSetEvent :: found_summary found).
Proof.
  intros found other.
  destruct (coordinator_reports_first_match (lab (fun _ _ => Ok lag_row) nobody)
              [(lit "10.0.0.1,huawei", Failed (RemoteError (lit "boom")))]
              (lit "10.0.0.2,alcatel_aos") found
              [(lit "10.0.0.3,alcatel_aos", Ok (Some other));
               (lit "10.0.0.4,huawei", Failed (RemoteError (lit "late")))]
              sample_mac scan_started)
    as (w' & Hrun & _).
  - intros f [<- | []] r0. cbn. discriminate.
  - exists w'. exact Hrun.
Defined.



(** ** Device lines *)

Lemma split_on_nonempty (sep : ascii) (cur s : str) : split_on sep cur s <> [].
Proof.
  revert cur. induction s as [|c s IH]; intro cur; cbn [split_on].
  - discriminate.
  - destruct (Ascii.eqb c sep); [discriminate | apply IH].
Qed.

Lemma split_on_one (sep : ascii) (cur s y : str) :
  split_on sep cur s = [y] -> y = rev cur ++ s /\ ~ In sep s.
Proof.
  revert cur. induction s as [|c s IH]; intro cur; cbn [split_on].
  - intro H. injection H as <-. rewrite app_nil_r. auto.
  - destruct (Ascii.eqb c sep) eqn:Hc.
    + intro H. injection H as _ H. exfalso.
      exact (split_on_nonempty _ _ _ H).
    + intro H. apply IH in H. destruct H as (-> & Hs).
      cbn [rev]. rewrite <- app_assoc. split; [reflexivity|].
      intros [<- | Hin]; [|exact (Hs Hin)].
      rewrite Ascii.eqb_refl in Hc. discriminate Hc.
Qed.

Lemma split_on_two (sep : ascii) (cur s x y : str) :
  split_on sep cur s = [x; y] ->
  exists a, x = rev cur ++ a /\ s = a ++ sep :: y /\ ~ In sep a /\ ~ In sep y.
Proof.
  revert cur. induction s as [|c s IH]; intro cur; cbn [split_on].
  - discriminate.
  - destruct (Ascii.eqb c sep) eqn:Hc.
    + intro H. injection H as <- H. apply Ascii.eqb_eq in Hc. subst c.
      apply split_on_one in H. destruct H as (-> & Hs).
      exists []. rewrite app_nil_r. cbn [rev app]. auto.
    + intro H. apply IH in H. destruct H as (a & -> & -> & Ha & Hy).
      exists (c :: a). cbn [rev]. rewrite <- app_assoc. conjs; auto.
      intros [<- | Hin]; [|exact (Ha Hin)].
      rewrite Ascii.eqb_refl in Hc. discriminate Hc.
Qed.

Lemma split_on_clean (sep : ascii) (cur s : str) :
  ~ In sep s -> split_on sep cur s = [rev cur ++ s].
Proof.
  revert cur. induction s as [|c s IH]; intros cur Hs; cbn [split_on].
  - now rewrite app_nil_r.
  - destruct (Ascii.eqb c sep) eqn:Hc.
    + apply Ascii.eqb_eq in Hc. subst c. exfalso. apply Hs. now left.
    + rewrite IH by (intro Hin; apply Hs; now right).
      cbn [rev]. now rewrite <- app_assoc.
Qed.

Lemma split_on_first (sep : ascii) (cur a rest : str) :
  ~ In sep a ->
  split_on sep cur (a ++ sep :: rest) = (rev cur ++ a) :: split_on sep [] rest.
Proof.
  revert cur. induction a as [|c a IH]; intros cur Ha; cbn [app split_on].
  - rewrite Ascii.eqb_refl, app_nil_r. reflexivity.
  - destruct (Ascii.eqb c sep) eqn:Hc.
    + apply Ascii.eqb_eq in Hc. subst c. exfalso. apply Ha. now left.
    + rewrite IH by (intro Hin; apply Ha; now right).
      cbn [rev]. now rewrite <- app_assoc.
Qed.

Lemma str_eqb_eq (a b : str) : str_eqb a b = true <-> a = b.
Proof.
  unfold str_eqb. destruct (list_eq_dec ascii_dec a b); split; auto; discriminate.
Qed.

Lemma known_vendor (v : str) :
  existsb (str_eqb v) [lit "huawei"; lit "alcatel_aos"] = true
  <-> v = lit "huawei" \/ v = lit "alcatel_aos".
Proof.
  cbn [existsb]. rewrite orb_false_r, orb_true_iff, !str_eqb_eq. reflexivity.
Qed.

(** X16.  Which device lines are scanned.  [handle_device] takes a line
    as a device exactly when the line, stripped of surrounding white
    space, has one comma, and the text after the comma, stripped and
    lower-cased, is [huawei] or [alcatel_aos]; the address is the
    stripped text before the comma.  So the vendor name is matched
    without regard to case or padding, and a line with a second comma or
    another vendor is skipped. *)
Theorem device_line_fields (device_info : str) :
  ~ malformed device_info
  <-> exists a b,
        strip device_info = a ++ ","%char :: b
        /\ ~ In ","%char a
        /\ ~ In ","%char b
        /\ (lower (strip b) = lit "huawei" \/ lower (strip b) = lit "alcatel_aos")
        /\ device_ip device_info = strip a
        /\ device_vendor device_info = lower (strip b).
Proof.
  unfold malformed, device_ip, device_vendor, split. cbv zeta.
  split.
  - intro Hok.
    destruct (split_on "," [] (strip device_info)) as [|x [|y [|z parts]]] eqn:Hparts;
      try (exfalso; apply Hok; left; cbn; lia).
    apply split_on_two in Hparts.
    destruct Hparts as (a & -> & Hs & Ha & Hy).
    exists a, y. cbn [rev app nth]. conjs; auto.
    apply known_vendor.
    destruct (existsb _ _) eqn:Hv; [reflexivity|].
    exfalso. apply Hok. right. reflexivity.
  - intros (a & b & Hs & Ha & Hb & Hv & _ & _).
    rewrite Hs, (split_on_first _ _ _ _ Ha), (split_on_clean _ _ _ Hb).
    cbn [rev app List.length nth].
    intros [Hlen | Hbad]; [now apply Hlen|].
    apply known_vendor in Hv. rewrite Hv in Hbad. discriminate Hbad.
Qed.

(** ** Finding the target *)

Lemma starts_with_app (n x : str) : starts_with n (n ++ x) = true.
Proof.
  induction n as [|c n IH]; [reflexivity|].
  cbn [app starts_with]. now rewrite Ascii.eqb_refl, IH.
Qed.

Lemma contains_starts (n hay : str) : starts_with n hay = true -> contains n hay = true.
Proof. intro H. destruct hay; cbn [contains]; now rewrite H. Qed.

Lemma contains_app (n pre post : str) : contains n (pre ++ n ++ post) = true.
Proof.
  induction pre as [|c pre IH]; cbn [app].
  - apply contains_starts, starts_with_app.
  - cbn [contains]. rewrite IH. apply orb_true_r.
Qed.

Lemma lower_app (a b : str) : lower (a ++ b) = lower a ++ lower b.
Proof. apply map_app. Qed.

Lemma upper_app (a b : str) : upper (a ++ b) = upper a ++ upper b.
Proof. apply map_app. Qed.

Lemma lower_hyphen_char (c : ascii) :
  Ascii.eqb (Char.lower c) "-"%char = Ascii.eqb c "-"%char.
Proof. each_char c; reflexivity. Qed.

Lemma drop_hyphen_lower (s : str) :
  replace_char "-"%char [] (lower s) = lower (replace_char "-"%char [] s).
Proof.
  unfold replace_char, lower. induction s as [|c s IH]; [reflexivity|].
  cbn [map flat_map]. rewrite lower_hyphen_char, IH, map_app.
  destruct (Ascii.eqb c "-"%char); reflexivity.
Qed.

(** [huawei_mac_to_standard] does not depend on the case of its
    argument. *)
Lemma to_standard_lower (h : str) :
  huawei_mac_to_standard (lower h) = huawei_mac_to_standard h.
Proof.
  unfold huawei_mac_to_standard. cbv zeta.
  now rewrite drop_hyphen_lower, lower_idem.
Qed.

Lemma round_trip_standard (mac : str) :
  is_standard_mac mac = true ->
  huawei_mac_to_standard (mac_to_huawei_format mac) = upper mac.
Proof.
  intro H. apply standard_mac_shape in H.
  destruct H as (a1 & a2 & a3 & a4 & a5 & a6 & a7 & a8 & a9 & a10 & a11 & a12 & -> & H).
  repeat match goal with
         | F : Forall _ (_ :: _) |- _ => inversion F; subst; clear F
         end.
  unfold mac_to_huawei_format. cbv zeta.
  repeat first [rewrite hex_only_hex by assumption | rewrite hex_only_colon].
  change (hex_only []) with (@nil ascii).
  cbv [slice firstn skipn Nat.sub lit list_ascii_of_string app].
  unfold huawei_mac_to_standard. cbv zeta.
  repeat first [rewrite drop_hyphen_hex by assumption | rewrite drop_hyphen_hyphen].
  change (replace_char "-"%char [] []) with (@nil ascii).
  cbv [lower upper map slice firstn skipn Nat.sub Nat.add
       join lit list_ascii_of_string app].
  rewrite !upper_lower_char. reflexivity.
Qed.

(** The MAC of a row that spells the target is the target. *)
Lemma to_standard_of_needle (search_mac h : str) :
  is_standard_mac search_mac = true ->
  lower h = huawei_needle search_mac ->
  huawei_mac_to_standard h = upper search_mac.
Proof.
  intros Hstd Hh.
  rewrite <- (to_standard_lower h), Hh. unfold huawei_needle.
  rewrite to_standard_lower. now apply round_trip_standard.
Qed.

Lemma upper_of_lower (s : str) : upper (lower s) = upper s.
Proof.
  unfold upper, lower. rewrite map_map. apply map_ext. apply upper_lower_char.
Qed.

Lemma colons_upper (s : str) :
  replace_char "-"%char (lit ":") (upper s) = upper (replace_char "-"%char (lit ":") s).
Proof.
  unfold replace_char, upper. induction s as [|c s IH]; [reflexivity|].
  cbn [map flat_map]. rewrite upper_hyphen_char, IH, map_app.
  destruct (Ascii.eqb c "-"%char); reflexivity.
Qed.

Lemma colons_of_standard (mac : str) :
  is_standard_mac mac = true -> replace_char "-"%char (lit ":") mac = mac.
Proof.
  intro H. apply standard_mac_shape in H.
  destruct H as (a1 & a2 & a3 & a4 & a5 & a6 & a7 & a8 & a9 & a10 & a11 & a12 & -> & H).
  repeat match goal with
         | F : Forall _ (_ :: _) |- _ => inversion F; subst; clear F
         end.
  unfold replace_char. cbn [flat_map app].
  repeat match goal with
         | Hc : Char.is_hex ?c = true |- _ => rewrite (hex_not_hyphen c Hc); clear Hc
         end.
  reflexivity.
Qed.

Lemma alcatel_mac_of_needle (search_mac mac : str) :
  is_standard_mac search_mac = true ->
  lower mac = alcatel_needle search_mac ->
  upper (replace_char "-"%char (lit ":") mac) = upper search_mac.
Proof.
  intros Hstd Hm. unfold alcatel_needle in Hm.
  rewrite <- colons_upper, <- (upper_of_lower mac), Hm, upper_of_lower.
  rewrite colons_upper. now rewrite colons_of_standard.
Qed.

Section FirstLookup.

Variable E : env.

Lemma poll_first_answer (fuel : nat) (conn : connection)
  (hostname cmd needle : str) (start_time timeout : Q)
  (mac_output : option str) (w : world) (out : str) :
  Qltb (env_clock E (ticks w) - start_time) timeout = true ->
  mac_found_event w = false ->
  env_set_elsewhere E (1 + ticks w) = false ->
  env_send_command_timing E (2 + ticks w) cmd = Ok out ->
  strip out <> [] ->
  contains needle (lower (strip out)) = true ->
  poll E (S fuel) conn hostname cmd needle start_time timeout mac_output w
  = (Ret (LeftLoop (Some (strip out))),
     World false (completed_devices w) (total_devices w) (scan_start_time w)
       (3 + ticks w),
     [EvSendCommandTiming cmd (Ok out)]).
Proof.
  intros Hlt Hflag Hquiet Hout Hne Hin.
  cbn [Nat.add] in Hquiet, Hout.
  cbn [poll]. unfold bind at 1, time_time. rewrite Hlt.
  unfold bind at 1, is_set. cbn [tick mac_found_event ticks].
  rewrite Hflag, Hquiet. cbn [orb].
  unfold bind at 1, send_command_timing. cbn [ticks]. rewrite Hout.
  destruct (strip out) as [|c s] eqn:Hs; [now contradiction Hne|].
  rewrite Hin. reflexivity.
Qed.

End FirstLookup.

Lemma huawei_row_contains (search_mac q1 q2 q3 rest : str) :
  lower (q1 ++ lit "-" ++ q2 ++ lit "-" ++ q3) = huawei_needle search_mac ->
  contains (huawei_needle search_mac)
    (lower ((q1 ++ lit "-" ++ q2 ++ lit "-" ++ q3) ++ rest)) = true.
Proof.
  intro H. rewrite lower_app, H. apply (contains_app _ []).
Qed.

Lemma alcatel_row_contains (search_mac service gap1 mac rest : str) :
  lower mac = alcatel_needle search_mac ->
  contains (alcatel_needle search_mac) (lower (service ++ gap1 ++ mac ++ rest)) = true.
Proof.
  intro H. rewrite app_assoc, !lower_app, H. apply contains_app.
Qed.

Section Target.

Variable E : env.

Lemma huawei_first_lookup (fuel : nat) (conn : connection)
  (hostname ip search_mac : str) (timeout : Q) (w : world) (out : str)
  (rec : match_record) :
  first_lookup_answered E timeout w (lit "screen-length 0 temporary")
    (huawei_command search_mac) out ->
  strip out <> [] ->
  contains (huawei_needle search_mac) (lower (strip out)) = true ->
  huawei_parse hostname ip (strip out) = Some rec ->
  exists line parsed,
    handle_huawei_device E (S fuel) conn hostname ip search_mac timeout w
    = (Ret (Some rec),
       World true (completed_devices w) (total_devices w) (scan_start_time w)
         (6 + ticks w),
       [EvPrint line; EvSendCommand (lit "screen-length 0 temporary");
        EvSendCommandTiming (huawei_command search_mac) (Ok out);
        EvPrint parsed; EvSetEvent]).
Proof.
  intros (Hgo & (o & Hpag) & Hlt & Hquiet & Hout) Hne Hin Hparse.
  unfold stopped_on_entry in Hgo. cbn [Nat.add] in Hpag, Hlt, Hquiet, Hout.
  unfold handle_huawei_device.
  unfold bind at 1, is_set. rewrite Hgo. cbv zeta.
  unfold bind at 1, print, emit.
  unfold bind at 1, send_command, bind at 1, emit, ask.
  cbn [ticks]. rewrite Hpag.
  unfold bind at 1, time_time at 1. cbn [ticks tick].
  unfold bind at 1.
  rewrite (poll_first_answer E fuel conn hostname _ _ _ timeout None _ out);
    [ | exact Hlt | reflexivity | exact Hquiet | exact Hout | exact Hne | exact Hin ].
  unfold after_poll. rewrite Hin. cbn [negb]. rewrite Hparse.
  unfold bind, print, emit, set_event, ret.
  cbn [mac_found_event completed_devices total_devices scan_start_time ticks
       Nat.add app].
  eexists _, _. reflexivity.
Qed.

Lemma alcatel_first_lookup (fuel : nat) (conn : connection)
  (hostname ip search_mac : str) (timeout : Q) (w : world) (out : str)
  (rec : match_record) :
  first_lookup_answered E timeout w (lit "environment no more")
    (alcatel_command search_mac) out ->
  strip out <> [] ->
  contains (alcatel_needle search_mac) (lower (strip out)) = true ->
  alcatel_parse hostname ip (strip out) = Some rec ->
  exists line parsed,
    handle_alcatel_device E (S fuel) conn hostname ip search_mac timeout w
    = (Ret (Some rec),
       World true (completed_devices w) (total_devices w) (scan_start_time w)
         (6 + ticks w),
       [EvPrint line; EvSendCommand (lit "environment no more");
        EvSendCommandTiming (alcatel_command search_mac) (Ok out);
        EvPrint parsed; EvSetEvent]).
Proof.
  intros (Hgo & (o & Hpag) & Hlt & Hquiet & Hout) Hne Hin Hparse.
  unfold stopped_on_entry in Hgo. cbn [Nat.add] in Hpag, Hlt, Hquiet, Hout.
  unfold handle_alcatel_device.
  unfold bind at 1, is_set. rewrite Hgo. cbv zeta.
  unfold bind at 1, print, emit.
  unfold bind at 1, send_command, bind at 1, emit, ask.
  cbn [ticks]. rewrite Hpag.
  unfold bind at 1, time_time at 1. cbn [ticks tick].
  unfold bind at 1.
  rewrite (poll_first_answer E fuel conn hostname _ _ _ timeout None _ out);
    [ | exact Hlt | reflexivity | exact Hquiet | exact Hout | exact Hne | exact Hin ].
  unfold after_poll. rewrite Hin. cbn [negb]. rewrite Hparse.
  unfold bind, print, emit, set_event, ret.
  cbn [mac_found_event completed_devices total_devices scan_start_time ticks
       Nat.add app].
  eexists _, _. reflexivity.
Qed.

End Target.

(** X17.  Finding the target on a Huawei device.  When the target is a
    standard MAC and the first answer to the lookup command is, up to
    surrounding white space, a well-formed row that spells the target in
    the Huawei form, in either case, the handler returns after this one
    lookup with the record of the row - the target in upper case, the
    row's interface, VLAN/VSI and type - and has set the stop event. *)
Theorem huawei_target_found (E : env) (fuel : nat) (conn : connection)
  (hostname ip search_mac : str) (timeout : Q) (w : world)
  (out q1 q2 q3 gap1 vlan gap2 interface gap3 mac_type tail : str) :
  (0 < fuel)%nat ->
  is_standard_mac search_mac = true ->
  first_lookup_answered E timeout w (lit "screen-length 0 temporary")
    (huawei_command search_mac) out ->
  strip out = huawei_row q1 q2 q3 gap1 vlan gap2 interface gap3 mac_type tail ->
  huawei_fields_ok q1 q2 q3 gap1 vlan gap2 interface gap3 mac_type tail = true ->
  lower (q1 ++ lit "-" ++ q2 ++ lit "-" ++ q3) = huawei_needle search_mac ->
  exists w' t,
    handle_huawei_device E fuel conn hostname ip search_mac timeout w
    = (Ret (Some (MatchRecord (upper search_mac) interface ip hostname
                    (lit "VLAN/VSI=" ++ vlan) (lit "Type=" ++ mac_type))),
       w', t)
    /\ mac_found_event w' = true
    /\ lookups t = 1%nat
    /\ In EvSetEvent t.
Proof.
  intros Hfuel Hstd Hfirst Hrow Hok Hspell.
  destruct fuel as [|fuel]; [lia|].
  destruct (huawei_first_lookup E fuel conn hostname ip search_mac timeout w out
              (MatchRecord (upper search_mac) interface ip hostname
                 (lit "VLAN/VSI=" ++ vlan) (lit "Type=" ++ mac_type)) Hfirst)
    as (line & parsed & Hrun).
  - rewrite Hrow. unfold huawei_row.
    unfold huawei_fields_ok in Hok. bools Hok.
    destruct q1; [discriminate | discriminate].
  - rewrite Hrow. unfold huawei_row. now apply huawei_row_contains.
  - rewrite Hrow, (huawei_row_parse hostname ip _ _ _ _ _ _ _ _ _ _ Hok).
    now rewrite (to_standard_of_needle search_mac _ Hstd Hspell).
  - eexists _, _. conjs; [exact Hrun | reflexivity | reflexivity |].
    cbn. tauto.
Qed.

Lemma huawei_target_found_witness :
  exists w' t,
    handle_huawei_device
      (lab (fun _ _ => Ok (lit " AABB-ccdd-EEFF   10   GE0/0/1   dynamic ")) nobody)
      61 (Connection (lit "10.0.0.1") (lit "huawei")) (lit "sw1") (lit "10.0.0.1")
      sample_mac 60 scan_started
    = (Ret (Some (MatchRecord (lit "AA:BB:CC:DD:EE:FF") (lit "GE0/0/1")
                    (lit "10.0.0.1") (lit "sw1") (lit "VLAN/VSI=10")
                    (lit "Type=dynamic"))),
       w', t).
Proof.
  destruct (huawei_target_found
              (lab (fun _ _ => Ok (lit " AABB-ccdd-EEFF   10   GE0/0/1   dynamic "))
                 nobody)
              61 (Connection (lit "10.0.0.1") (lit "huawei")) (lit "sw1")
              (lit "10.0.0.1") sample_mac 60 scan_started
              (lit " AABB-ccdd-EEFF   10   GE0/0/1   dynamic ")
              (lit "AABB") (lit "ccdd") (lit "EEFF") (lit "   ") (lit "10")
              (lit "   ") (lit "GE0/0/1") (lit "   ") (lit "dynamic") [])
    as (w' & t & Hrun & _).
  - lia.
  - reflexivity.
  - unfold first_lookup_answered. conjs; try reflexivity.
    exists []. reflexivity.
  - vm_compute. reflexivity.
  - reflexivity.
  - vm_compute. reflexivity.
  - exists w', t. exact Hrun.
Defined.

(** X18.  Finding the target on an Alcatel device.  When the target is a
    standard MAC and the first answer to the lookup command is, up to
    surrounding white space, a well-formed row whose MAC spells the
    target, in either case, the handler returns after this one lookup
    with the record of the row - the target in upper case, the row's
    interface, service and timestamp - and has set the stop event. *)
Theorem alcatel_target_found (E : env) (fuel : nat) (conn : connection)
  (hostname ip search_mac : str) (timeout : Q) (w : world)
  (out service gap1 o1 s1 o2 s2 o3 s3 o4 s4 o5 s5 o6 gap2 interface gap3
     flag age gap4 d1 d2 d3 gap5 t1 t2 t3 tail : str) :
  (0 < fuel)%nat ->
  is_standard_mac search_mac = true ->
  first_lookup_answered E timeout w (lit "environment no more")
    (alcatel_command search_mac) out ->
  strip out
  = alcatel_row service gap1 (alcatel_mac_text o1 s1 o2 s2 o3 s3 o4 s4 o5 s5 o6)
      gap2 interface gap3 flag age gap4
      (alcatel_timestamp d1 d2 d3 gap5 t1 t2 t3) tail ->
  alcatel_fields_ok service gap1 gap2 interface gap3 flag age gap4 tail = true ->
  alcatel_mac_ok o1 s1 o2 s2 o3 s3 o4 s4 o5 s5 o6 = true ->
  alcatel_timestamp_ok d1 d2 d3 gap5 t1 t2 t3 = true ->
  lower (alcatel_mac_text o1 s1 o2 s2 o3 s3 o4 s4 o5 s5 o6)
  = alcatel_needle search_mac ->
  exists w' t,
    handle_alcatel_device E fuel conn hostname ip search_mac timeout w
    = (Ret (Some (MatchRecord (upper search_mac) interface ip hostname
                    (lit "Service=" ++ service)
                    (lit "LastSeen=" ++ alcatel_timestamp d1 d2 d3 gap5 t1 t2 t3))),
       w', t)
    /\ mac_found_event w' = true
    /\ lookups t = 1%nat
    /\ In EvSetEvent t.
Proof.
  intros Hfuel Hstd Hfirst Hrow Hok Hmac Hts Hspell.
  destruct fuel as [|fuel]; [lia|].
  destruct (alcatel_first_lookup E fuel conn hostname ip search_mac timeout w out
              (MatchRecord (upper search_mac) interface ip hostname
                 (lit "Service=" ++ service)
                 (lit "LastSeen=" ++ alcatel_timestamp d1 d2 d3 gap5 t1 t2 t3))
              Hfirst)
    as (line & parsed & Hrun).
  - rewrite Hrow. unfold alcatel_row.
    unfold alcatel_fields_ok in Hok. bools Hok.
    destruct service; [discriminate | discriminate].
  - rewrite Hrow. unfold alcatel_row. now apply alcatel_row_contains.
  - rewrite Hrow,
      (alcatel_row_parse hostname ip _ _ _ _ _ _ _ _ _ _ _ _ _ _ _ _ _ _ _ _ _ _ _ _ _ _ _
         Hok Hmac Hts).
    now rewrite (alcatel_mac_of_needle search_mac _ Hstd Hspell).
  - eexists _, _. conjs; [exact Hrun | reflexivity | reflexivity |].
    cbn. tauto.
Qed.

Lemma alcatel_target_found_witness :
  exists w' t,
    handle_alcatel_device (lab (fun _ _ => Ok lag_row) nobody)
      61 (Connection (lit "10.0.0.1") (lit "alcatel_aos")) (lit "sw1")
      (lit "10.0.0.1") sample_mac 60 scan_started
    = (Ret (Some (MatchRecord (lit "AA:BB:CC:DD:EE:FF") (lit "lag-1:100")
                    (lit "10.0.0.1") (lit "sw1") (lit "Service=100")
                    (lit "LastSeen=01/02/24 10:00:00"))),
       w', t).
Proof.
  destruct (alcatel_target_found (lab (fun _ _ => Ok lag_row) nobody)
              61 (Connection (lit "10.0.0.1") (lit "alcatel_aos")) (lit "sw1")
              (lit "10.0.0.1") sample_mac 60 scan_started lag_row
              (lit "100") (lit "  ")
              (lit "AA") (lit ":") (lit "BB") (lit ":") (lit "CC") (lit ":")
              (lit "DD") (lit ":") (lit "EE") (lit ":") (lit "FF")
              (lit " ") (lit "lag-1:100") (lit " ") (lit "L") (lit "300") (lit " ")
              (lit "01") (lit "02") (lit "24") (lit " ") (lit "10") (lit "00") (lit "00")
              [])
    as (w' & t & Hrun & _).
  - lia.
  - reflexivity.
  - unfold first_lookup_answered. conjs; try reflexivity.
    exists []. reflexivity.
  - vm_compute. reflexivity.
  - reflexivity.
  - reflexivity.
  - reflexivity.
  - vm_compute. reflexivity.
  - exists w', t. exact Hrun.
Defined.

(** ** Polling after the stop event is set *)

Section Stopped.

Variable E : env.
Variable n0 : nat.
Hypothesis Hset : forall n, (n0 <= n)%nat -> env_set_elsewhere E n = true.

Lemma seen_unset (flag : bool) (n : nat) :
  flag || env_set_elsewhere E n = false -> (n < n0)%nat.
Proof.
  intro H. apply orb_false_elim in H. destruct H as (_ & H).
  destruct (Nat.lt_ge_cases n n0) as [Hl|Hg]; [exact Hl|].
  rewrite (Hset n Hg) in H. discriminate H.
Qed.

Ltac unseen :=
  repeat match goal with
    | H : _ || env_set_elsewhere E _ = false |- _ =>
        apply seen_unset in H; cbn [ticks tick] in H
    end.

Lemma poll_stopped (fuel : nat) (conn : connection) (hostname cmd needle : str)
  (start_time timeout : Q) (mac_output : option str) (w : world)
  (r : res loop_exit) (w' : world) (t : list event) :
  poll E fuel conn hostname cmd needle start_time timeout mac_output w
  = (r, w', t) ->
  (4 * lookups t <= (n0 - ticks w) + 2)%nat
  /\ ((n0 < fuel + ticks w)%nat -> (0 < fuel)%nat -> r <> Diverge).
Proof.
  revert mac_output w t.
  induction fuel as [|fuel IH]; intros mac_output w t Hrun; cbn [poll] in Hrun.
  - run_inv. split; [cbn; lia | lia].
  - run_inv; unseen; rewrite ?lookups_app;
      try match goal with
        | H : poll _ _ _ _ _ _ _ _ _ _ = _ |- _ =>
            apply IH in H; cbn [ticks tick] in H; destruct H as (Hcount & Hback)
        end;
      (split; [cbn; lia | intros Hfuel _; try discriminate; try (apply Hback; lia)]).
Qed.

Ltac handler_stopped :=
  run_inv; unseen; rewrite ?lookups_app;
  try match goal with
    | H : poll _ _ _ _ _ _ _ _ _ _ = _ |- _ =>
        apply poll_stopped in H; cbn [ticks tick] in H; destruct H as (? & ?)
    end;
  (conjs;
   [ cbn; lia
   | intro; first [ split; reflexivity | exfalso; lia ]
   | intro; try discriminate;
     try match goal with
       | Hb : _ -> _ -> Diverge <> Diverge |- _ =>
           exfalso; refine (Hb _ _ eq_refl); lia
       end ]).

Lemma huawei_stopped (fuel : nat) (conn : connection)
  (hostname ip search_mac : str) (timeout : Q) (w : world)
  (r : res (option match_record)) (w' : world) (t : list event) :
  handle_huawei_device E fuel conn hostname ip search_mac timeout w = (r, w', t) ->
  (4 * lookups t <= n0 - ticks w)%nat
  /\ ((n0 <= ticks w)%nat -> r = Ret None /\ t = [])
  /\ ((n0 < fuel + ticks w)%nat -> r <> Diverge).
Proof.
  intro Hrun. unfold handle_huawei_device, send_command, after_poll in Hrun.
  handler_stopped.
Qed.

Lemma alcatel_stopped (fuel : nat) (conn : connection)
  (hostname ip search_mac : str) (timeout : Q) (w : world)
  (r : res (option match_record)) (w' : world) (t : list event) :
  handle_alcatel_device E fuel conn hostname ip search_mac timeout w = (r, w', t) ->
  (4 * lookups t <= n0 - ticks w)%nat
  /\ ((n0 <= ticks w)%nat -> r = Ret None /\ t = [])
  /\ ((n0 < fuel + ticks w)%nat -> r <> Diverge).
Proof.
  intro Hrun. unfold handle_alcatel_device, send_command, after_poll in Hrun.
  handler_stopped.
Qed.

End Stopped.

(** X19.  The stop event bounds the polling.  Once another thread has set
    the stop event - from the [n0]-th interaction on - a vendor handler
    sends at most [(n0 - ticks w) / 4] lookups, counted from the
    interactions [ticks w] made before it started, and then returns,
    whatever the clock and the device say; a handler that starts after
    that does nothing and returns [None]. *)
Theorem stop_event_ends_polling (E : env) (n0 : nat) (fuel : nat)
  (conn : connection) (hostname ip search_mac : str) (timeout : Q) (w : world)
  (r : res (option match_record)) (w' : world) (t : list event) :
  (forall n, (n0 <= n)%nat -> env_set_elsewhere E n = true) ->
  handle_huawei_device E fuel conn hostname ip search_mac timeout w = (r, w', t)
  \/ handle_alcatel_device E fuel conn hostname ip search_mac timeout w = (r, w', t) ->
  (4 * lookups t <= n0 - ticks w)%nat
  /\ ((n0 <= ticks w)%nat -> r = Ret None /\ t = [])
  /\ ((n0 < fuel + ticks w)%nat -> r <> Diverge).
Proof.
  intros Hset [Hrun | Hrun].
  - exact (huawei_stopped E n0 Hset _ _ _ _ _ _ _ _ _ _ Hrun).
  - exact (alcatel_stopped E n0 Hset _ _ _ _ _ _ _ _ _ _ Hrun).
Qed.

Lemma stop_event_ends_polling_witness :
  let run := run_of (handle_huawei_device
                       (lab (fun _ _ => Ok (lit "no such entry"))
                          (fun n => (9 <=? n)%nat))
                       10 (Connection (lit "10.0.0.1") (lit "huawei")) (lit "sw1")
                       (lit "10.0.0.1") sample_mac 60) scan_started in
  (4 * lookups (snd run) <= 9 - 0)%nat /\ fst (fst run) <> Diverge.
Proof.
  assert (Hset : forall n, (9 <= n)%nat ->
                     env_set_elsewhere
                       (lab (fun _ _ => Ok (lit "no such entry"))
                          (fun n => (9 <=? n)%nat)) n = true)
    by (intros n Hn; cbn [env_set_elsewhere lab]; apply Nat.leb_le; exact Hn).
  cbv zeta. unfold run_of.
  destruct (handle_huawei_device _ _ _ _ _ _ _ _) as [[r w'] t] eqn:Hrun.
  cbn [fst snd].
  destruct (stop_event_ends_polling _ 9 _ _ _ _ _ _ _ _ _ _ Hset (or_introl Hrun))
    as (Hcount & _ & Hback).
  split; [exact Hcount | apply Hback; cbn; lia].
Defined.

(** ** The commands sent to a device *)

Lemma handler_trace_commands (pagination cmd : str)
  (r : res (option match_record)) (t : list event) :
  handler_trace pagination cmd r t -> Forall (command_event pagination cmd) t.
Proof.
  intros [(_ & ->) | (line & polled & closing & -> & Hp & Hc)]; [constructor|].
  constructor; [exact I|]. constructor; [reflexivity|].
  apply Forall_app. split.
  - eapply Forall_impl; [|exact Hp]. intros [] H; cbn in *; auto; contradiction.
  - destruct r as [[rec|]|e|];
      try (eapply Forall_impl; [|exact Hc]; intros [] H; cbn in *; auto; contradiction).
    destruct Hc as (parsed & ->). repeat constructor.
Qed.

Lemma quiet_commands (pagination cmd : str) (t : list event) :
  Forall (fun ev => session_event ev = false) t ->
  Forall (command_event pagination cmd) t.
Proof.
  intro H. eapply Forall_impl; [|exact H].
  intros [] Hev; cbn in *; auto; discriminate Hev.
Qed.

Section SessionCommands.

Variable E : env.

Lemma ssh_connect_events (host device_type : str) (w : world)
  (r : res (option connection)) (w' : world) (t : list event) :
  ssh_connect E host device_type w = (r, w', t) ->
  Forall (fun ev => session_event ev = false) t.
Proof.
  rewrite ssh_connect_run.
  destruct (env_socket_connect E (ticks w) host) as [u|e].
  - destruct (env_connect_handler E (S (ticks w)) host device_type) as [u'|e];
      intro H; apply triple_inv in H; destruct H as (_ & _ & <-);
      repeat constructor.
  - intro H. apply triple_inv in H. destruct H as (_ & _ & <-). repeat constructor.
Qed.

Ltac commands_of_handler :=
  unfold pagination_command, lookup_command;
  match goal with
  | Hv : str_eqb _ _ = _ |- _ => rewrite Hv
  end;
  match goal with
  | H : handle_huawei_device _ _ _ _ _ _ _ _ = _ |- _ =>
      exact (handler_trace_commands _ _ _ _ (huawei_trace E _ _ _ _ _ _ _ _ _ _ H))
  | H : handle_alcatel_device _ _ _ _ _ _ _ _ = _ |- _ =>
      exact (handler_trace_commands _ _ _ _ (alcatel_trace E _ _ _ _ _ _ _ _ _ _ H))
  end.

Ltac commands :=
  repeat first
    [ apply Forall_nil
    | apply Forall_app; split
    | apply Forall_cons; [exact I|]
    | commands_of_handler ].

(** The body of the [try] statement of [handle_device]. *)
Lemma session_body_commands (fuel : nat) (ip vendor search_mac : str)
  (timeout : Q) (c : option connection) (w : world)
  (r : res (option match_record)) (w' : world) (t : list event) :
  match c with
  | None => ret None
  | Some conn =>
      set_base_prompt E conn ;;
      prompt <- find_prompt E conn ;;
      (let hostname := strip (strip_chars (lit "<># ") prompt) in
       result <-
         (if str_eqb vendor (lit "huawei")
          then handle_huawei_device E fuel conn hostname ip search_mac timeout
          else handle_alcatel_device E fuel conn hostname ip search_mac timeout) ;;
       disconnect E conn ;;
       ret result)
  end w = (r, w', t) ->
  Forall (command_event (pagination_command vendor) (lookup_command vendor search_mac)) t.
Proof.
  intro Hrun. destruct c as [conn|]; [|run_inv; constructor].
  unfold set_base_prompt, find_prompt, disconnect in Hrun. cbv zeta in Hrun.
  run_inv; commands.
Qed.

Lemma session_commands (fuel : nat) (ip vendor search_mac : str) (timeout : Q)
  (w : world) (r : res (option match_record)) (w' : world) (t : list event) :
  session E fuel ip vendor search_mac timeout w = (r, w', t) ->
  Forall (command_event (pagination_command vendor) (lookup_command vendor search_mac)) t.
Proof.
  intro Hrun. unfold session in Hrun.
  assert (Hbody : forall r0 w0 t0,
             bind (ssh_connect E ip vendor)
               (fun c =>
                  match c with
                  | None => ret None
                  | Some conn =>
                      set_base_prompt E conn ;;
                      prompt <- find_prompt E conn ;;
                      (let hostname := strip (strip_chars (lit "<># ") prompt) in
                       result <-
                         (if str_eqb vendor (lit "huawei")
                          then handle_huawei_device E fuel conn hostname ip
                                 search_mac timeout
                          else handle_alcatel_device E fuel conn hostname ip
                                 search_mac timeout) ;;
                       disconnect E conn ;;
                       ret result)
                  end) w = (r0, w0, t0) ->
             Forall (command_event (pagination_command vendor)
                       (lookup_command vendor search_mac)) t0).
  { intros r0 w0 t0 H. apply bind_inv in H.
    destruct H as [(c & w1 & t1 & t2 & Hc & H & ->) | [(e & Hc & _) | (Hc & _)]].
    - apply Forall_app. split.
      + apply quiet_commands. exact (ssh_connect_events _ _ _ _ _ _ Hc).
      + exact (session_body_commands _ _ _ _ _ _ _ _ _ _ H).
    - apply quiet_commands. exact (ssh_connect_events _ _ _ _ _ _ Hc).
    - apply quiet_commands. exact (ssh_connect_events _ _ _ _ _ _ Hc). }
  apply try_catch_inv in Hrun.
  destruct Hrun as [(e & w1 & t1 & t2 & Hm & Hh & ->) | (Hm & _)].
  - apply Forall_app. split; [exact (Hbody _ _ _ Hm)|].
    clear Hm Hbody. run_inv. cbn [app]. constructor; [exact I | constructor].
  - exact (Hbody _ _ _ Hm).
Qed.

End SessionCommands.

(** X20.  The vendor field selects the commands.  Whatever happens in an
    invocation of [handle_device], every command it sends to the device
    is the pagination command of the vendor named on the device line
    ([screen-length 0 temporary] for [huawei], [environment no more]
    otherwise) or that vendor's lookup command for the target. *)
Theorem vendor_selects_commands (E : env) (fuel : nat)
  (device_info search_mac : str) (timeout : Q) (w : world)
  (r : res (option match_record)) (w' : world) (t : list event) :
  handle_device E fuel device_info search_mac timeout w = (r, w', t) ->
  Forall (command_event (pagination_command (device_vendor device_info))
            (lookup_command (device_vendor device_info) search_mac)) t.
Proof.
  intro Hrun.
  destruct (stopped_on_entry E w) eqn:Hgo.
  { rewrite (handle_device_stopped E _ _ _ _ _ Hgo) in Hrun.
    apply triple_inv in Hrun. destruct Hrun as (_ & _ & <-). constructor. }
  assert (Hreport : forall w1 rc w2 t2,
             report_completion E w1 = (rc, w2, t2) ->
             Forall (command_event (pagination_command (device_vendor device_info))
                       (lookup_command (device_vendor device_info) search_mac)) t2).
  { intros w1 rc w2 t2 Hc.
    destruct (report_completion_run E w1) as (line & Hrep & Hline).
    rewrite Hrep in Hc. apply triple_inv in Hc. destruct Hc as (_ & _ & <-).
    constructor; [exact I|]. constructor; [exact I|].
    apply Forall_app. split; [|repeat constructor].
    apply progress_output_prints in Hline.
    eapply Forall_impl; [|exact Hline].
    intros [] H; cbn in *; auto; contradiction. }
  destruct (malformed_dec device_info) as [Hbad | Hok].
  { destruct (handle_device_malformed E fuel device_info search_mac timeout w Hgo Hbad)
      as (line & Heq & Hline).
    rewrite Heq in Hrun. apply triple_inv in Hrun. destruct Hrun as (_ & _ & <-).
    constructor; [exact I|]. constructor; [exact I|].
    apply Forall_app. split; [|repeat constructor].
    apply progress_output_prints in Hline.
    eapply Forall_impl; [|exact Hline].
    intros [] H; cbn in *; auto; contradiction. }
  pose proof (handle_device_session E fuel device_info search_mac timeout w Hgo Hok)
    as Heq.
  cbv zeta in Heq. rewrite Heq in Hrun. clear Heq.
  fold (device_ip device_info) in Hrun. fold (device_vendor device_info) in Hrun.
  destruct (finally _ _ _) as [[r0 w0] t0] eqn:Hfin.
  apply triple_inv in Hrun. destruct Hrun as (-> & -> & ->).
  apply finally_inv in Hfin.
  destruct Hfin as [(Hs & _) | (r1 & w1 & t1 & rc & t2 & Hs & _ & Hc & -> & _)].
  - exact (session_commands E _ _ _ _ _ _ _ _ _ Hs).
  - apply Forall_app. split.
    + exact (session_commands E _ _ _ _ _ _ _ _ _ Hs).
    + exact (Hreport _ _ _ _ Hc).
Qed.

Lemma vendor_selects_commands_witness :
  Forall (command_event (lit "environment no more")
            (lit "show service fdb-mac | match aa:bb:cc:dd:ee:ff"))
    (snd (run_of (handle_device (lab (fun _ _ => Ok lag_row) nobody) 61
                    (lit "10.0.0.1, Alcatel_AOS") sample_mac 60) scan_started)).
Proof.
  unfold run_of.
  destruct (handle_device _ _ _ _ _ _) as [[r w'] t] eqn:Hrun.
  cbn [snd].
  exact (vendor_selects_commands _ _ _ _ _ _ _ _ _ Hrun).
Defined.

(** ** Where a record says it was found *)

Section Identity.

Variable E : env.

Lemma session_found (fuel : nat) (ip vendor search_mac : str) (timeout : Q)
  (w : world) (rec : match_record) (w' : world) (t : list event) :
  session E fuel ip vendor search_mac timeout w = (Ret (Some rec), w', t) ->
  exists conn k prompt wa wb th,
    env_find_prompt E k = Ok prompt
    /\ (handle_huawei_device E fuel conn (strip (strip_chars (lit "<># ") prompt))
          ip search_mac timeout wa = (Ret (Some rec), wb, th)
        \/ handle_alcatel_device E fuel conn (strip (strip_chars (lit "<># ") prompt))
             ip search_mac timeout wa = (Ret (Some rec), wb, th)).
Proof.
  intro Hrun. unfold session in Hrun. apply try_catch_inv in Hrun.
  destruct Hrun as [(e & w1 & t1 & t2 & _ & Hrun & _) | (Hrun & _)].
  - run_inv; discriminate.
  - apply bind_inv in Hrun.
    destruct Hrun as [(c & w1 & t1 & t2 & _ & Hrun & ->) | [(e & _ & He) | (_ & He)]];
      [| discriminate He | discriminate He].
    destruct c as [conn|]; [|run_inv; discriminate].
    unfold set_base_prompt, find_prompt, disconnect in Hrun. cbv zeta in Hrun.
    run_inv;
      match goal with
      | Hp : env_find_prompt E ?k = Ok ?prompt |- _ =>
          exists conn, k, prompt; eexists _, _, _; split; [exact Hp|]
      end;
      first [ left; eassumption | right; eassumption ].
Qed.

End Identity.

(** X21.  A record says where it was found.  When an invocation of
    [handle_device] returns a Match Record, the device line was well
    formed, the record's address is the address field of that line, its
    host name is the prompt the device gave, without the characters
    [<], [>], [#] and space at its ends and then stripped of white
    space, and its MAC is a standard MAC. *)
Theorem record_identifies_device (E : env) (fuel : nat)
  (device_info search_mac : str) (timeout : Q) (w : world)
  (rec : match_record) (w' : world) (t : list event) :
  handle_device E fuel device_info search_mac timeout w = (Ret (Some rec), w', t) ->
  ~ malformed device_info
  /\ rec_ip rec = device_ip device_info
  /\ is_standard_mac (rec_mac rec) = true
  /\ exists k prompt,
      env_find_prompt E k = Ok prompt
      /\ rec_hostname rec = strip (strip_chars (lit "<># ") prompt).
Proof.
  intro Hrun.
  destruct (stopped_on_entry E w) eqn:Hgo.
  { rewrite (handle_device_stopped E _ _ _ _ _ Hgo) in Hrun.
    apply triple_inv in Hrun. destruct Hrun as (Hr & _). discriminate Hr. }
  destruct (malformed_dec device_info) as [Hbad | Hok].
  { destruct (handle_device_malformed E fuel device_info search_mac timeout w Hgo Hbad)
      as (line & Heq & _).
    rewrite Heq in Hrun. apply triple_inv in Hrun. destruct Hrun as (Hr & _).
    discriminate Hr. }
  split; [exact Hok|].
  destruct (handle_device_run E _ _ _ _ _ _ _ _ Hrun Hgo Hok)
    as (v & w1 & before & line & Hs & Hv & _); [discriminate|].
  apply Ret_inj in Hv. subst v.
  destruct (session_found E _ _ _ _ _ _ _ _ _ Hs)
    as (conn & k & prompt & wa & wb & th & Hp & [Hh | Ha]).
  - destruct (huawei_found E _ _ _ _ _ _ _ _ _ _ Hh) as (out & _ & _ & Hparse).
    destruct (huawei_parse_shape _ _ _ _ Hparse) as (Hmac & _ & Hip & Hhost & _).
    conjs; [exact Hip | exact Hmac |]. exists k, prompt. split; [exact Hp | exact Hhost].
  - destruct (alcatel_found E _ _ _ _ _ _ _ _ _ _ Ha) as (out & _ & _ & Hparse).
    destruct (alcatel_parse_shape _ _ _ _ Hparse) as (Hmac & _ & Hip & Hhost & _).
    conjs; [exact Hip | exact Hmac |]. exists k, prompt. split; [exact Hp | exact Hhost].
Qed.

Lemma record_identifies_device_witness :
  rec_ip (MatchRecord (lit "AA:BB:CC:DD:EE:FF") (lit "lag-1:100")
            (lit "10.0.0.1") (lit "sw1") (lit "Service=100")
            (lit "LastSeen=01/02/24 10:00:00"))
  = device_ip (lit " 10.0.0.1 ,alcatel_aos").
Proof.
  pose (run := run_of (handle_device (lab (fun _ _ => Ok lag_row) nobody) 61
                         (lit " 10.0.0.1 ,alcatel_aos") sample_mac 60) scan_started).
  assert (Hrun : run
                 = (Ret (Some (MatchRecord (lit "AA:BB:CC:DD:EE:FF") (lit "lag-1:100")
                                 (lit "10.0.0.1") (lit "sw1") (lit "Service=100")
                                 (lit "LastSeen=01/02/24 10:00:00"))),
                    snd (fst run), snd run)).
  { rewrite (run_eta run) at 1.
    replace (fst (fst run)) with
      (Ret (Some (MatchRecord (lit "AA:BB:CC:DD:EE:FF") (lit "lag-1:100")
                    (lit "10.0.0.1") (lit "sw1") (lit "Service=100")
                    (lit "LastSeen=01/02/24 10:00:00")))) by (symmetry; by_eval).
    reflexivity. }
  exact (proj1 (proj2 (record_identifies_device _ _ _ _ _ _ _ _ _ Hrun))).
Defined.

(** ** The stop event is never cleared *)

Lemma latch_refl (w : world) : latch w w [].
Proof. intros [H | []]. exact H. Qed.

Lemma latch_trans (w w1 w2 : world) (t1 t2 : list event) :
  latch w w1 t1 -> latch w1 w2 t2 -> latch w w2 (t1 ++ t2).
Proof.
  intros H1 H2 [H | H].
  - apply H2. left. apply H1. now left.
  - apply in_app_or in H. destruct H as [H | H].
    + apply H2. left. apply H1. now right.
    + apply H2. now right.
Qed.

Lemma latched_ret {A} (a : A) : latched (ret a).
Proof. intros w r w' t H. triple H. apply latch_refl. Qed.

Lemma latched_raise {A} (e : exn) : latched (@raise A e).
Proof. intros w r w' t H. triple H. apply latch_refl. Qed.

Lemma latched_diverge {A} : latched (@diverge A).
Proof. intros w r w' t H. triple H. apply latch_refl. Qed.

Lemma latched_bind {A B} (m : M A) (f : A -> M B) :
  latched m -> (forall a, latched (f a)) -> latched (bind m f).
Proof.
  intros Hm Hf w r w' t H. apply bind_inv in H.
  destruct H as [(a & w1 & t1 & t2 & H1 & H2 & ->) | [(e & H1 & _) | (H1 & _)]].
  - eapply latch_trans; [eapply Hm | eapply Hf]; eassumption.
  - eapply Hm; eassumption.
  - eapply Hm; eassumption.
Qed.

Lemma latched_try_catch {A} (m : M A) (h : exn -> M A) :
  latched m -> (forall e, latched (h e)) -> latched (try_catch m h).
Proof.
  intros Hm Hh w r w' t H. apply try_catch_inv in H.
  destruct H as [(e & w1 & t1 & t2 & H1 & H2 & ->) | (H1 & _)].
  - eapply latch_trans; [eapply Hm | eapply Hh]; eassumption.
  - eapply Hm; eassumption.
Qed.

Lemma latched_finally {A} (m : M A) (c : M unit) :
  latched m -> latched c -> latched (finally m c).
Proof.
  intros Hm Hc w r w' t H. apply finally_inv in H.
  destruct H as [(H1 & _) | (r1 & w1 & t1 & rc & t2 & H1 & _ & H2 & -> & _)].
  - eapply Hm; eassumption.
  - eapply latch_trans; [eapply Hm | eapply Hc]; eassumption.
Qed.

Lemma latched_emit (ev : event) : ev <> EvSetEvent -> latched (emit ev).
Proof.
  intros Hev w r w' t H. triple H.
  intros [Hw | [Hin | []]]; [exact Hw | now contradiction Hev].
Qed.

Lemma latched_print (text : str) : latched (print text).
Proof. apply latched_emit. discriminate. Qed.

Lemma latched_ask {A} (answer : nat -> reply A) : latched (ask answer).
Proof.
  intros w r w' t H. unfold ask in H.
  destruct (answer (ticks w)); triple H; intros [Hw | []]; exact Hw.
Qed.

Lemma latched_get : latched get.
Proof. intros w r w' t H. triple H. apply latch_refl. Qed.

Lemma latched_set_event : latched set_event.
Proof. intros w r w' t H. triple H. intros _. reflexivity. Qed.

Lemma latched_count_completed : latched count_completed.
Proof.
  intros w r w' t H. triple H.
  intros [Hw | [Hin | []]]; [exact Hw | discriminate Hin].
Qed.

Section Latched.

Variable E : env.

Lemma latched_time_time : latched (time_time E).
Proof. intros w r w' t H. triple H. intros [Hw | []]. exact Hw. Qed.

Lemma latched_time_sleep (seconds : Z) : latched (time_sleep seconds).
Proof.
  intros w r w' t H. triple H.
  intros [Hw | [Hin | []]]; [exact Hw | discriminate Hin].
Qed.

Lemma latched_is_set : latched (is_set E).
Proof.
  intros w r w' t H. triple H. intros [Hw | []].
  cbn [mac_found_event]. now rewrite Hw.
Qed.

Lemma latched_send_command_timing (conn : connection) (cmd : str) :
  latched (send_command_timing E conn cmd).
Proof.
  intros w r w' t H. unfold send_command_timing in H. triple H.
  intros [Hw | [Hin | []]]; [exact Hw | discriminate Hin].
Qed.

End Latched.

Ltac latched_step :=
  first
    [ solve [auto 1 with nocore]
    | apply latched_bind
    | apply latched_try_catch
    | apply latched_finally
    | apply latched_ret
    | apply latched_raise
    | apply latched_diverge
    | apply latched_print
    | apply latched_ask
    | apply latched_get
    | apply latched_set_event
    | apply latched_count_completed
    | apply latched_time_time
    | apply latched_time_sleep
    | apply latched_is_set
    | apply latched_send_command_timing
    | apply latched_emit; discriminate
    | match goal with
      | |- latched (if ?b then _ else _) => destruct b
      | |- latched (match ?x with _ => _ end) => destruct x
      end
    | progress intros ].

Ltac latched_auto := repeat latched_step.

Section LatchedProgram.

Variable E : env.

Lemma latched_poll (fuel : nat) (conn : connection) (hostname cmd needle : str)
  (start_time timeout : Q) (mac_output : option str) :
  latched (poll E fuel conn hostname cmd needle start_time timeout mac_output).
Proof.
  revert mac_output.
  induction fuel as [|fuel IH]; intro mac_output; cbn [poll].
  - apply latched_diverge.
  - latched_auto.
Qed.

Lemma latched_handle_huawei_device (fuel : nat) (conn : connection)
  (hostname ip search_mac : str) (timeout : Q) :
  latched (handle_huawei_device E fuel conn hostname ip search_mac timeout).
Proof.
  pose proof latched_poll as Hpoll.
  unfold handle_huawei_device, send_command, after_poll.
  latched_auto.
Qed.

Lemma latched_handle_alcatel_device (fuel : nat) (conn : connection)
  (hostname ip search_mac : str) (timeout : Q) :
  latched (handle_alcatel_device E fuel conn hostname ip search_mac timeout).
Proof.
  pose proof latched_poll as Hpoll.
  unfold handle_alcatel_device, send_command, after_poll.
  latched_auto.
Qed.

Lemma latched_print_progress : latched (print_progress E).
Proof.
  unfold print_progress, truediv, print_end. latched_auto.
Qed.

Lemma latched_report_completion : latched (report_completion E).
Proof.
  pose proof latched_print_progress as Hprogress.
  unfold report_completion, with_progress_lock. latched_auto.
Qed.

Lemma latched_session (fuel : nat) (ip vendor search_mac : str) (timeout : Q) :
  latched (session E fuel ip vendor search_mac timeout).
Proof.
  pose proof latched_handle_huawei_device as Hh.
  pose proof latched_handle_alcatel_device as Ha.
  unfold session, ssh_connect, set_base_prompt, find_prompt, disconnect.
  latched_auto.
Qed.

Lemma latched_handle_device (fuel : nat) (device_info search_mac : str)
  (timeout : Q) :
  latched (handle_device E fuel device_info search_mac timeout).
Proof.
  pose proof latched_report_completion as Hreport.
  pose proof latched_session as Hsession.
  unfold handle_device. cbv zeta.
  latched_auto.
Qed.

Lemma latched_collect (futures : list future) (found_result : option match_record) :
  latched (collect E futures found_result).
Proof.
  induction futures as [|[device_info outcome] rest IH]; cbn [collect].
  - apply latched_ret.
  - latched_auto.
Qed.

Lemma latched_coordinate (futures : list future) (search_mac : str) :
  latched (coordinate E futures search_mac).
Proof.
  pose proof latched_collect as Hcollect.
  unfold coordinate, summary.
  latched_auto.
Qed.

End LatchedProgram.

(** X22.  The stop event is a latch.  No invocation of [handle_device]
    and no run of the coordinator clears it: if it was set before, or is
    set on the way, it is set afterwards, whatever the outcome - also
    when the invocation raises after setting it and its result is
    lost. *)
Theorem stop_event_never_cleared (E : env) (w : world) :
  (forall fuel device_info search_mac timeout r w' t,
      handle_device E fuel device_info search_mac timeout w = (r, w', t) ->
      mac_found_event w = true \/ In EvSetEvent t ->
      mac_found_event w' = true)
  /\ (forall futures search_mac r w' t,
         coordinate E futures search_mac w = (r, w', t) ->
         mac_found_event w = true \/ In EvSetEvent t ->
         mac_found_event w' = true).
Proof.
  split.
  - intros fuel device_info search_mac timeout r w' t Hrun.
    exact (latched_handle_device E _ _ _ _ _ _ _ _ Hrun).
  - intros futures search_mac r w' t Hrun.
    exact (latched_coordinate E _ _ _ _ _ _ Hrun).
Qed.

Lemma stop_event_never_cleared_witness :
  let run := run_of (handle_device (lab_closing_fails (fun _ _ => Ok lag_row) nobody)
                       61 (lit "10.0.0.1,alcatel_aos") sample_mac 60) scan_started in
  mac_found_event (snd (fst run)) = true.
Proof.
  intro run.
  assert (Hset : In EvSetEvent (snd run)) by (vm_compute; tauto).
  exact (proj1 (stop_event_never_cleared _ _) _ _ _ _ _ _ _ (run_eta run)
           (or_intror Hset)).
Defined.
